(** * Quoting: pricing engine and version codec

    A shallow embedding of the pricing engine ([PricingEngine] in
    [pricing_engine.js]) and of the export and import of catalog versions
    ([version_utils.js]), with the properties of the written specification
    stated over it.

    Conventions of the embedding.
    - A number is an exact rational [Q]: arithmetic does not round and there
      are no infinities.  A value that is not a proper number is [NaN] of
      the type [number].
    - An optional field is an [option]: [None] is a field that is absent
      ([undefined]) or [null] or, for a number, [NaN].  Where JavaScript
      tells these apart, [None] behaves as [undefined] does: as an operand
      of arithmetic it is [NaN], and a template literal prints it as the
      text undefined.
    - An object used as a dictionary is a [gmap] keyed by strings;
      [Object.values] lists it in the order of the map, and no statement
      depends on that order.
    - A string is a sequence of characters below 256.
    - A function that can [throw] returns a [result]. *)

From Stdlib Require Import QArith Qround Qminmax ZArith String Ascii List Lia Lqa.
From stdpp Require Import gmap strings list pretty.

Local Open Scope string_scope.
Local Open Scope list_scope.

(** ** JavaScript values *)

Inductive error : Type :=
  | InvalidConfiguration (pricingModel : option string)
      (* Error(`Invalid pricing model: ${product.pricingModel}`) *)
  | ExclusiveGroupConflict (group : string)
      (* Error(`Exclusive addon conflict in group: ${addon.exclusiveGroup}`) *)
  | NegativeUplift
      (* Error('Sales uplift cannot be negative') *)
  | PriceFloorViolation
      (* Error('Final price cannot be below par price') *)
  | TypeError
      (* a property read or a method call on [undefined] *).

Inductive result (A : Type) : Type :=
  | Ok (a : A)
  | Throw (e : error).
Arguments Ok {A} a.
Arguments Throw {A} e.

#[global] Instance result_ret : MRet result := fun A a => Ok a.

#[global] Instance result_bind : MBind result := fun A B k r =>
  match r with
  | Ok a => k a
  | Throw e => Throw e
  end.

Module Js.

(** Numbers: an exact rational or [NaN]. *)
Inductive number : Type :=
  | NaN
  | Num (q : Q).

Definition add (a b : number) : number :=
  match a, b with
  | Num x, Num y => Num (x + y)
  | _, _ => NaN
  end.

Definition Qltb (x y : Q) : bool := negb (Qle_bool y x).

(** [a < b]: false as soon as one side is [NaN]. *)
Definition lt (a b : number) : bool :=
  match a, b with
  | Num x, Num y => Qltb x y
  | _, _ => false
  end.

(** An absent operand of an arithmetic operator is [NaN]. *)
Definition toNumber (o : option Q) : number :=
  match o with
  | Some q => Num q
  | None => NaN
  end.

(** Equality of numbers by value; [NaN] is only related to itself here,
    the relation compares results of the model, it is not [===]. *)
Definition number_eq (a b : number) : Prop :=
  match a, b with
  | NaN, NaN => True
  | Num x, Num y => x == y
  | _, _ => False
  end.

(** Truthiness of an optional number: absent and [0] are falsy. *)
Definition truthyQ (o : option Q) : bool :=
  match o with
  | Some q => negb (Qeq_bool q 0)
  | None => false
  end.

(** [o || d] for an optional number. *)
Definition orQ (o : option Q) (d : Q) : Q :=
  match o with
  | Some q => if Qeq_bool q 0 then d else q
  | None => d
  end.

(** Truthiness of an optional string: absent and [""] are falsy. *)
Definition truthyS (o : option string) : bool :=
  match o with
  | Some s => negb (String.eqb s "")
  | None => false
  end.

(** [a || b] for optional strings. *)
Definition orS (a b : option string) : option string :=
  if truthyS a then a else b.

(** [list.includes(v)] for a list of strings. *)
Definition includes (l : list string) (v : option string) : bool :=
  match v with
  | Some s => bool_decide (s ∈ l)
  | None => false
  end.

(** [new Set(l)], kept as the list of its elements in insertion order,
    which is the order [...set] spreads them in. *)
Definition set_add (s : list string) (x : string) : list string :=
  if bool_decide (x ∈ s) then s else s ++ [x].

Definition new_Set (l : list string) : list string :=
  fold_left set_add l [].

End Js.

Import Js.

(** ** Catalog model *)

Module Manufacturer.
Record t := mk { id : string; name : string }.
End Manufacturer.

Module ProductLine.
Record t := mk { id : string; manufacturerId : string; name : string }.
End ProductLine.

Module SizeLimits.
Record t := mk {
  minWidth : option Q;
  maxWidth : option Q;
  minHeight : option Q;
  maxHeight : option Q
}.
End SizeLimits.

Module Product.
Record t := mk {
  id : string;
  productLineId : option string;
  productLine : option string;      (* legacy name read by isAddonAllowed *)
  productType : option string;
  type : option string;             (* legacy name read by isAddonAllowed *)
  productTypeCode : option string;
  name : string;
  pricingModel : option string;
  uiRate : option Q;
  flatPrice : option Q;
  minimumUI : option Q;
  maximumUI : option Q;
  sizeLimits : option SizeLimits.t;
  allowedAddons : option (list string)
}.
End Product.

Module Addon.
Record t := mk {
  id : string;
  name : string;
  pricingModel : option string;
  uiRate : option Q;
  flatPrice : option Q;
  exclusiveGroup : option string;
  mandatory : bool;
  hiddenFromCustomer : bool;
  isJobBased : bool;
  allowedProductTypes : option (list string);
  allowedProductLines : option (list string);
  minSize : option Q;
  maxSize : option Q
}.
End Addon.

Module AppliedAddon.
Record t := mk { id : string; name : string; price : number; hidden : bool }.
End AppliedAddon.

Module LineItem.
Record t := mk {
  ui : Q;
  basePrice : number;
  addonTotal : number;
  lineItemParTotal : number;
  appliedAddons : list AppliedAddon.t
}.
End LineItem.

(** A job-based addon as [calculateQuote] reads it: only its price. *)
Module JobAddon.
Record t := mk { price : option Q }.
End JobAddon.

Module QuoteTotals.
Record t := mk {
  totalParPrice : number;
  jobAddonTotal : number;
  jobBasedAddons : list JobAddon.t;
  salesUplift : Q;
  finalPrice : number
}.
End QuoteTotals.

(** ** Pricing engine *)

Module PricingEngine.

(** A restriction list applies when it is present and not empty. *)
Definition restricts (l : option (list string)) : option (list string) :=
  match l with
  | Some (x :: r) => Some (x :: r)
  | _ => None
  end.

Definition isAddonAllowed (addon : Addon.t) (product : Product.t) (ui : Q) : bool :=
  let typeOk :=
    match restricts (Addon.allowedProductTypes addon) with
    | Some types =>
        let productType :=
          orS (orS (Product.productType product) (Product.type product))
              (Product.productTypeCode product) in
        truthyS productType && includes types productType
    | None => true
    end in
  let lineOk :=
    match restricts (Addon.allowedProductLines addon) with
    | Some lines =>
        let productLine :=
          orS (Product.productLineId product) (Product.productLine product) in
        truthyS productLine && includes lines productLine
    | None => true
    end in
  if negb typeOk then false
  else if negb lineOk then false
  else if match Addon.maxSize addon with
          | Some m => Qltb m ui
          | None => false
          end then false
  else if match Addon.minSize addon with
          | Some m => Qltb ui m
          | None => false
          end then false
  else true.

Definition calculateUI (width height : Q) : Q :=
  inject_Z (Qceiling (width + height)).

Definition calculateSquareFootage (width height : Q) : Q :=
  (width * height) / 144.

(** The state of the addon loop of [calculateLineItem]. *)
Record loop_state := mk_state {
  appliedAddons : list AppliedAddon.t;
  usedExclusiveGroups : gset string;
  addonTotal : number
}.

Definition addonPrice (addon : Addon.t) (effectiveUI : Q) : number :=
  match Addon.pricingModel addon with
  | Some "UI" =>
      match Addon.uiRate addon with
      | Some r => Num (effectiveUI * r)
      | None => NaN
      end
  | Some "FLAT" => toNumber (Addon.flatPrice addon)
  | _ => Num 0
  end.

(** One turn of [for (const addonId of allAddonIds)]. *)
Definition addon_step (product : Product.t) (ui effectiveUI : Q)
    (allAddons : gmap string Addon.t) (st : loop_state) (addonId : string)
    : result loop_state :=
  match allAddons !! addonId with
  | None => Ok st
  | Some addon =>
      if negb (isAddonAllowed addon product ui) then Ok st
      else
        groups ←
          (if truthyS (Addon.exclusiveGroup addon) then
             match Addon.exclusiveGroup addon with
             | Some g =>
                 if bool_decide (g ∈ usedExclusiveGroups st)
                 then Throw (ExclusiveGroupConflict g)
                 else Ok ({[ g ]} ∪ usedExclusiveGroups st)
             | None => Ok (usedExclusiveGroups st)
             end
           else Ok (usedExclusiveGroups st));
        let price := addonPrice addon effectiveUI in
        Ok {| appliedAddons :=
                appliedAddons st ++
                [AppliedAddon.mk addonId (Addon.name addon) price
                   (Addon.hiddenFromCustomer addon || false)];
              usedExclusiveGroups := groups;
              addonTotal := add (addonTotal st) price |}
  end.

Fixpoint addon_loop (product : Product.t) (ui effectiveUI : Q)
    (allAddons : gmap string Addon.t) (st : loop_state) (ids : list string)
    : result loop_state :=
  match ids with
  | [] => Ok st
  | addonId :: rest =>
      st' ← addon_step product ui effectiveUI allAddons st addonId;
      addon_loop product ui effectiveUI allAddons st' rest
  end.

Definition mandatoryAddonIds (product : Product.t)
    (allAddons : gmap string Addon.t) : list string :=
  List.filter
    (fun addonId =>
       match allAddons !! addonId with
       | Some a => Addon.mandatory a
       | None => false
       end)
    (default [] (Product.allowedAddons product)).

Definition allAddonIds (product : Product.t) (selectedAddonIds : list string)
    (allAddons : gmap string Addon.t) : list string :=
  new_Set (mandatoryAddonIds product allAddons ++ selectedAddonIds).

Definition effectiveUI_of (product : Product.t) (ui : Q) : Q :=
  Qmax ui (orQ (Product.minimumUI product) 0).

Definition basePrice_of (product : Product.t) (effectiveUI : Q) : result number :=
  match Product.pricingModel product with
  | Some "UI" =>
      Ok (match Product.uiRate product with
          | Some r => Num (effectiveUI * r)
          | None => NaN
          end)
  | Some "FLAT" => Ok (toNumber (Product.flatPrice product))
  | other => Throw (InvalidConfiguration other)
  end.

Definition calculateLineItem (product : Product.t) (width height : Q)
    (selectedAddonIds : list string) (allAddons : gmap string Addon.t)
    : result LineItem.t :=
  let ui := calculateUI width height in
  let effectiveUI := effectiveUI_of product ui in
  basePrice ← basePrice_of product effectiveUI;
  st ← addon_loop product ui effectiveUI allAddons
          (mk_state [] ∅ (Num 0))
          (allAddonIds product selectedAddonIds allAddons);
  let lineItemParTotal := add basePrice (addonTotal st) in
  Ok (LineItem.mk effectiveUI basePrice (addonTotal st) lineItemParTotal
        (appliedAddons st)).

Definition calculateQuote (lineItems : list LineItem.t)
    (jobBasedAddons : list JobAddon.t) (salesUplift : Q)
    : result QuoteTotals.t :=
  if Qltb salesUplift 0 then Throw NegativeUplift
  else
    let totalParPrice :=
      fold_left (fun sum item => add sum (LineItem.lineItemParTotal item))
                lineItems (Num 0) in
    let jobAddonTotal :=
      fold_left (fun total addon => add total (Num (orQ (JobAddon.price addon) 0)))
                jobBasedAddons (Num 0) in
    let finalPrice := add (add totalParPrice jobAddonTotal) (Num salesUplift) in
    if lt finalPrice totalParPrice then Throw PriceFloorViolation
    else Ok (QuoteTotals.mk totalParPrice jobAddonTotal jobBasedAddons
               salesUplift finalPrice).

(** The error strings of [validateSize] and [validateUI], by the
    constraint they report and the limit they print. *)
Inductive violation : Type :=
  | WidthBelowMin (limit : Q)    (* Width must be at least ${minWidth} *)
  | WidthAboveMax (limit : Q)    (* Width cannot exceed ${maxWidth} *)
  | HeightBelowMin (limit : Q)   (* Height must be at least ${minHeight} *)
  | HeightAboveMax (limit : Q)   (* Height cannot exceed ${maxHeight} *)
  | UIBelowMin (limit : Q)       (* UI must be at least ${minimumUI} *)
  | UIAboveMax (limit : Q)       (* UI cannot exceed ${maximumUI} *).

(** [{ valid, errors }]; [errors] is absent from [{ valid: true }]. *)
Record validation := mk_validation {
  valid : bool;
  errors : option (list violation)
}.

(** [if (limit && violated) errors.push(message)]. *)
Definition check (limit : option Q) (violated : Q -> bool)
    (message : Q -> violation) : list violation :=
  match limit with
  | Some m => if truthyQ limit && violated m then [message m] else []
  | None => []
  end.

Definition is_empty (errors : list violation) : bool :=
  match errors with
  | [] => true
  | _ :: _ => false
  end.

Definition validateSize (product : Product.t) (width height : Q) : validation :=
  match Product.sizeLimits product with
  | None => mk_validation true None
  | Some limits =>
      let errors :=
        check (SizeLimits.minWidth limits) (fun m => Qltb width m) WidthBelowMin ++
        check (SizeLimits.maxWidth limits) (fun m => Qltb m width) WidthAboveMax ++
        check (SizeLimits.minHeight limits) (fun m => Qltb height m) HeightBelowMin ++
        check (SizeLimits.maxHeight limits) (fun m => Qltb m height) HeightAboveMax in
      mk_validation (is_empty errors) (Some errors)
  end.

Definition validateUI (product : Product.t) (ui : Q) : validation :=
  let errors :=
    check (Product.minimumUI product) (fun m => Qltb ui m) UIBelowMin ++
    check (Product.maximumUI product) (fun m => Qltb m ui) UIAboveMax in
  mk_validation (is_empty errors) (Some errors).

End PricingEngine.

(** ** Vocabulary of the statements about the pricing engine *)

Module Spec.
Import PricingEngine.

(** The catalog entry of [addonId] when the addon is known and
    [isAddonAllowed] accepts it at the size [ui]. *)
Definition accepted (product : Product.t) (ui : Q)
    (allAddons : gmap string Addon.t) (addonId : string) : option Addon.t :=
  match allAddons !! addonId with
  | Some addon => if isAddonAllowed addon product ui then Some addon else None
  | None => None
  end.

(** The entry of [appliedAddons] an accepted addon gives rise to. *)
Definition entry (effectiveUI : Q) (addonId : string) (addon : Addon.t)
    : AppliedAddon.t :=
  AppliedAddon.mk addonId (Addon.name addon) (addonPrice addon effectiveUI)
    (Addon.hiddenFromCustomer addon).

Definition entries (product : Product.t) (ui effectiveUI : Q)
    (allAddons : gmap string Addon.t) (ids : list string)
    : list AppliedAddon.t :=
  omap (fun addonId => entry effectiveUI addonId <$>
                         accepted product ui allAddons addonId) ids.

(** The exclusive group an accepted addon declares: a non-empty label. *)
Definition declares (product : Product.t) (ui : Q)
    (allAddons : gmap string Addon.t) (addonId : string) : option string :=
  match accepted product ui allAddons addonId with
  | Some addon =>
      if truthyS (Addon.exclusiveGroup addon) then Addon.exclusiveGroup addon
      else None
  | None => None
  end.

(** Two different addon ids of [ids] are accepted and declare [group]. *)
Definition shared_group (product : Product.t) (ui : Q)
    (allAddons : gmap string Addon.t) (ids : list string) (group : string)
    : Prop :=
  exists a b : string,
    a <> b /\ a ∈ ids /\ b ∈ ids /\
    declares product ui allAddons a = Some group /\
    declares product ui allAddons b = Some group.

(** A sum, term by term from the right. *)
Definition sum (l : list number) : number := fold_right add (Num 0) l.

(** A price that is a number and not negative, or absent. *)
Definition nonneg_price (a : JobAddon.t) : Prop :=
  match JobAddon.price a with
  | Some q => (0 <= q)%Q
  | None => True
  end.

(** A limit takes part in validation when it is present and not 0. *)
Definition limit (o : option Q) (m : Q) : Prop :=
  o = Some m /\ ~ (m == 0)%Q.

(** The violations of the size limits by [width] and [height]. *)
Definition size_violation (limits : SizeLimits.t) (width height : Q)
    (v : violation) : Prop :=
  (exists m, limit (SizeLimits.minWidth limits) m /\ (width < m)%Q /\
             v = WidthBelowMin m) \/
  (exists m, limit (SizeLimits.maxWidth limits) m /\ (m < width)%Q /\
             v = WidthAboveMax m) \/
  (exists m, limit (SizeLimits.minHeight limits) m /\ (height < m)%Q /\
             v = HeightBelowMin m) \/
  (exists m, limit (SizeLimits.maxHeight limits) m /\ (m < height)%Q /\
             v = HeightAboveMax m).

(** The violations of the UI bounds of a product by [ui]. *)
Definition ui_violation (product : Product.t) (ui : Q) (v : violation) : Prop :=
  (exists m, limit (Product.minimumUI product) m /\ (ui < m)%Q /\
             v = UIBelowMin m) \/
  (exists m, limit (Product.maximumUI product) m /\ (m < ui)%Q /\
             v = UIAboveMax m).

End Spec.

(** ** Sample catalog, used to run the definitions on concrete inputs *)

Module Sample.

Definition grids : Addon.t :=
  Addon.mk "grids" "Grids" (Some "UI") (Some (1 # 2)%Q) None (Some "glass")
    true false false None None None (Some 55%Q).

Definition tempered : Addon.t :=
  Addon.mk "tempered" "Tempered Glass" (Some "FLAT") None (Some 25%Q)
    (Some "glass") false false false None None None None.

Definition lowE : Addon.t :=
  Addon.mk "lowE" "Low-E Coating" (Some "FLAT") None (Some 40%Q)
    (Some "coating") false false false None None None None.

Definition tint : Addon.t :=
  Addon.mk "tint" "Tint" (Some "FLAT") None (Some 15%Q)
    (Some "coating") false false false None None None None.

Definition labor : Addon.t :=
  Addon.mk "labor" "Install Labor" (Some "PERCENT") None (Some 25%Q)
    None false true false None None None None.

Definition addons : gmap string Addon.t :=
  <["grids" := grids]> (<["tempered" := tempered]> (<["lowE" := lowE]>
    (<["tint" := tint]> (<["labor" := labor]> ∅)))).

(** A UI-priced window with a minimum of 60 united inches and a
    mandatory addon. *)
Definition window : Product.t :=
  Product.mk "sh" (Some "series400") None (Some "window") None (Some "SH")
    "Single Hung" (Some "UI") (Some 10%Q) None (Some 60%Q) None None
    (Some ["grids"]).

(** The same window without addons of its own. *)
Definition plain_window : Product.t :=
  Product.mk "dh" (Some "series400") None (Some "window") None (Some "DH")
    "Double Hung" (Some "UI") (Some 10%Q) None (Some 0%Q) None None None.

(** A product whose pricing model is neither UI nor FLAT. *)
Definition tiered_window : Product.t :=
  Product.mk "tw" (Some "series400") None (Some "window") None (Some "TW")
    "Tiered Window" (Some "TIERED") (Some 10%Q) None (Some 0%Q) None None
    (Some ["grids"]).

(** A product with a maximum width and a maximum UI of 0, and a minimum
    UI of 100. *)
Definition zero_limits : Product.t :=
  Product.mk "zl" (Some "series400") None (Some "window") None (Some "ZL")
    "Zero Limits" (Some "FLAT") None (Some 250%Q) (Some 100%Q) (Some 0%Q)
    (Some (SizeLimits.mk (Some 24%Q) (Some 0%Q) (Some 24%Q) (Some 96%Q)))
    None.

End Sample.

(** ** Line items in the store of objects

    [createQuoteVersion] receives a reference to an array of line item
    objects that the caller may go on mutating.  The store maps locations
    to the objects a line items array is made of; an array holds the
    locations of its elements. *)

Module Store.

(** A numeric property of an object: absent, [null], or a number. *)
Inductive prop : Type :=
  | Undefined
  | Null
  | Number (n : number).

(** The value an arithmetic operator reads from a property. *)
Definition ToNumber (p : prop) : number :=
  match p with
  | Undefined => NaN
  | Null => Num 0
  | Number n => n
  end.

(** The property after [JSON.parse(JSON.stringify(...))]: [NaN] is
    written as [null], an absent property stays absent. *)
Definition json (p : prop) : prop :=
  match p with
  | Number NaN => Null
  | _ => p
  end.

Definition loc := positive.

Inductive object : Type :=
  | ItemArray (items : list loc)
  | Item (ui : Q) (basePrice addonTotal lineItemParTotal : prop)
         (appliedAddons : loc)
  | AddonArray (entries : list loc)
  | Entry (id name : string) (price : prop) (hidden : bool).

(** The contents of a line items array, read through the references. *)
Module Snapshot.
Record entry := mk_entry {
  id : string; name : string; price : prop; hidden : bool
}.
Record item := mk_item {
  ui : Q;
  basePrice : prop;
  addonTotal : prop;
  lineItemParTotal : prop;
  appliedAddons : list entry
}.
End Snapshot.

Definition read_entry (h : gmap loc object) (l : loc) : option Snapshot.entry :=
  match h !! l with
  | Some (Entry id name price hidden) =>
      Some (Snapshot.mk_entry id name price hidden)
  | _ => None
  end.

Definition read_item (h : gmap loc object) (l : loc) : option Snapshot.item :=
  match h !! l with
  | Some (Item ui basePrice addonTotal lineItemParTotal addons) =>
      match h !! addons with
      | Some (AddonArray entries) =>
          es ← mapM (read_entry h) entries;
          Some (Snapshot.mk_item ui basePrice addonTotal lineItemParTotal es)
      | _ => None
      end
  | _ => None
  end.

Definition read (h : gmap loc object) (lineItems : loc)
    : option (list Snapshot.item) :=
  match h !! lineItems with
  | Some (ItemArray items) => mapM (read_item h) items
  | _ => None
  end.

(** The line item [calculateQuote] sees when it reads the properties. *)
Definition to_entry (e : Snapshot.entry) : AppliedAddon.t :=
  AppliedAddon.mk (Snapshot.id e) (Snapshot.name e)
    (ToNumber (Snapshot.price e)) (Snapshot.hidden e).

Definition to_LineItem (i : Snapshot.item) : LineItem.t :=
  LineItem.mk (Snapshot.ui i)
    (ToNumber (Snapshot.basePrice i))
    (ToNumber (Snapshot.addonTotal i))
    (ToNumber (Snapshot.lineItemParTotal i))
    (map to_entry (Snapshot.appliedAddons i)).

(** What [JSON.stringify] writes of a line item and [JSON.parse] reads
    back. *)
Definition json_entry (e : Snapshot.entry) : Snapshot.entry :=
  Snapshot.mk_entry (Snapshot.id e) (Snapshot.name e)
    (json (Snapshot.price e)) (Snapshot.hidden e).

Definition json_item (i : Snapshot.item) : Snapshot.item :=
  Snapshot.mk_item (Snapshot.ui i)
    (json (Snapshot.basePrice i))
    (json (Snapshot.addonTotal i))
    (json (Snapshot.lineItemParTotal i))
    (map json_entry (Snapshot.appliedAddons i)).

(** Allocation of new objects, as [JSON.parse] builds them. *)
Definition alloc (o : object) (h : gmap loc object) : gmap loc object * loc :=
  let l := fresh (dom h) in (<[l := o]> h, l).

Fixpoint alloc_list {A} (alloc1 : A -> gmap loc object -> gmap loc object * loc)
    (xs : list A) (h : gmap loc object) : gmap loc object * list loc :=
  match xs with
  | [] => (h, [])
  | x :: xs =>
      let '(h1, l) := alloc1 x h in
      let '(h2, ls) := alloc_list alloc1 xs h1 in
      (h2, l :: ls)
  end.

Definition alloc_entry (e : Snapshot.entry) (h : gmap loc object)
    : gmap loc object * loc :=
  alloc (Entry (Snapshot.id e) (Snapshot.name e) (Snapshot.price e)
           (Snapshot.hidden e)) h.

Definition alloc_item (i : Snapshot.item) (h : gmap loc object)
    : gmap loc object * loc :=
  let '(h1, entries) := alloc_list alloc_entry (Snapshot.appliedAddons i) h in
  let '(h2, addons) := alloc (AddonArray entries) h1 in
  alloc (Item (Snapshot.ui i) (Snapshot.basePrice i) (Snapshot.addonTotal i)
           (Snapshot.lineItemParTotal i) addons) h2.

Definition alloc_items (items : list Snapshot.item) (h : gmap loc object)
    : gmap loc object * loc :=
  let '(h1, ls) := alloc_list alloc_item items h in
  alloc (ItemArray ls) h1.

(** [JSON.parse(JSON.stringify(lineItems))] for the array whose
    contents are [items]: the contents as JSON keeps them, in new
    objects. *)
Definition JSON_clone (items : list Snapshot.item) (h : gmap loc object)
    : gmap loc object * loc :=
  alloc_items (map json_item items) h.

End Store.

Module QuoteVersion.
Record t {M : Type} := mk {
  id : string;
  quoteId : string;
  timestamp : string;
  lineItems : Store.loc;
  totalParPrice : number;
  salesUplift : Q;
  finalPrice : number;
  locked : bool;
  metadata : M
}.
Arguments t M : clear implicits.
End QuoteVersion.

Module Snapshots.
Import PricingEngine Store.

(** [createQuoteVersion] in a store [h].  [now] is the value of
    [Date.now()] and [timestamp] that of [new Date().toISOString()];
    [metadata] is kept as it is passed.  The result is [None] when
    [lineItems] does not refer to a line items array, which the model does
    not cover; otherwise the call throws or returns the version together
    with the store that holds the copy. *)
Definition createQuoteVersion {M : Type} (now : Z) (timestamp : string)
    (h : gmap loc object) (quoteId : string) (lineItems : loc)
    (salesUplift : Q) (metadata : M)
    : option (result (gmap loc object * QuoteVersion.t M)) :=
  items ← read h lineItems;
  Some (
    quoteCalc ← calculateQuote (map to_LineItem items) [] salesUplift;
    let '(h', copy) := JSON_clone items h in
    Ok (h',
        QuoteVersion.mk M
          (quoteId +:+ "_v" +:+ pretty now)
          quoteId
          timestamp
          copy
          (QuoteTotals.totalParPrice quoteCalc)
          (QuoteTotals.salesUplift quoteCalc)
          (QuoteTotals.finalPrice quoteCalc)
          true
          metadata)).

End Snapshots.

(** ** Vocabulary of the statements about snapshots *)

Module StoreSpec.
Import Store.

(** [h2] still holds every object that [h'] holds outside [h]: the
    objects allocated between [h] and [h'] are untouched, the others may
    have been changed or removed. *)
Definition keeps (h h' h2 : gmap loc object) : Prop :=
  forall k o, h !! k = None -> h' !! k = Some o -> h2 !! k = Some o.

(** All the prices of a line item are numbers. *)
Definition is_number (p : prop) : Prop :=
  match p with
  | Number (Num _) => True
  | _ => False
  end.

Definition priced (i : Snapshot.item) : Prop :=
  is_number (Snapshot.basePrice i) /\
  is_number (Snapshot.addonTotal i) /\
  is_number (Snapshot.lineItemParTotal i) /\
  Forall (fun e => is_number (Snapshot.price e)) (Snapshot.appliedAddons i).

(** [alloc1] builds, out of new objects only, something [read1] reads
    back as long as the new objects are kept. *)
Definition allocates {A} (alloc1 : A -> gmap loc object -> gmap loc object * loc)
    (read1 : gmap loc object -> loc -> option A) : Prop :=
  forall x h h' l,
    alloc1 x h = (h', l) ->
    h ⊆ h' /\ h !! l = None /\
    forall h2, keeps h h' h2 -> read1 h2 l = Some x.

End StoreSpec.

Module SampleStore.
Import Store.

Definition items : list Snapshot.item :=
  [Snapshot.mk_item 50 (Number (Num 500)) (Number (Num 30)) (Number (Num 530))
     [Snapshot.mk_entry "grids" "Grids" (Number (Num 30)) false];
   Snapshot.mk_item 60 (Number (Num 600)) (Number (Num 0)) (Number (Num 600)) []].

(** A line item of a UI-priced product without a rate: its prices are
    [NaN]. *)
Definition unpriced : list Snapshot.item :=
  [Snapshot.mk_item 50 (Number NaN) (Number (Num 0)) (Number NaN) []].

(** The stores a caller has built the arrays in. *)
Definition store : gmap loc object * loc := alloc_items items ∅.
Definition unpriced_store : gmap loc object * loc := alloc_items unpriced ∅.

End SampleStore.

(** ** Strings *)

Module JsString.

Definition LF : ascii := "010"%char.
Definition DQUOTE : ascii := "034"%char.
Definition COMMA : ascii := ","%char.
Definition SEMICOLON : ascii := ";"%char.

(** Characters are code units below 256; of these, [trim] strips the
    tab, the line feed, the vertical tab, the form feed, the carriage
    return, the space and the no-break space. *)
Definition is_space (c : ascii) : bool :=
  match nat_of_ascii c with
  | 9 | 10 | 11 | 12 | 13 | 32 | 160 => true
  | _ => false
  end%nat.

Fixpoint trimStart (s : string) : string :=
  match s with
  | String c r => if is_space c then trimStart r else s
  | EmptyString => EmptyString
  end.

Fixpoint trimEnd (s : string) : string :=
  match s with
  | EmptyString => EmptyString
  | String c r =>
      match trimEnd r with
      | EmptyString => if is_space c then EmptyString else String c EmptyString
      | r' => String c r'
      end
  end.

Definition trim (s : string) : string := trimEnd (trimStart s).

(** [s.split(sep)] for a separator of one character. *)
Fixpoint split (sep : ascii) (s : string) : list string :=
  match s with
  | EmptyString => [EmptyString]
  | String c r =>
      if Ascii.eqb c sep then EmptyString :: split sep r
      else
        match split sep r with
        | x :: xs => String c x :: xs
        | [] => [String c EmptyString]
        end
  end.

(** [l.join(sep)]. *)
Fixpoint join (sep : string) (l : list string) : string :=
  match l with
  | [] => EmptyString
  | [x] => x
  | x :: r => x +:+ sep +:+ join sep r
  end.

(** [s.replace(/c/g, '')]. *)
Fixpoint remove (c : ascii) (s : string) : string :=
  match s with
  | EmptyString => EmptyString
  | String d r => if Ascii.eqb d c then remove c r else String d (remove c r)
  end.

(** [s.toUpperCase()], on the letters a to z. *)
Definition upper (c : ascii) : ascii :=
  let n := nat_of_ascii c in
  if (97 <=? n)%nat && (n <=? 122)%nat then ascii_of_nat (n - 32) else c.

Fixpoint toUpperCase (s : string) : string :=
  match s with
  | EmptyString => EmptyString
  | String c r => String (upper c) (toUpperCase r)
  end.

(** Truthiness of a string. *)
Definition nonempty (s : string) : bool := negb (String.eqb s "").

End JsString.

(** ** Version export and import *)

Module CatalogData.
Record t := mk {
  manufacturers : gmap string Manufacturer.t;
  productLines : gmap string ProductLine.t;
  products : gmap string Product.t;
  addons : gmap string Addon.t
}.
End CatalogData.

Module VersionUtils.
Import JsString.

(** The conversions between numbers and text of the JavaScript runtime:
    [`${x}`] for a number [x], [parseFloat] and [parseInt], which return
    [None] for [NaN]. *)
Class NumberFormat := {
  Number_toString : Q -> string;
  parseFloat : string -> option Q;
  parseInt : string -> option Q
}.

Section Codec.
Context `{NumberFormat}.

(** [Object.values(o)]: the values of the dictionary, in the order the
    map lists them. *)
Definition Object_values {V} (o : gmap string V) : list V :=
  (map_to_list o).*2.

(** [`${s}`] for an optional string. *)
Definition template (o : option string) : string := default "undefined" o.

(** [`${x}`] for an optional number. *)
Definition template_number (o : option Q) : string :=
  match o with
  | Some q => Number_toString q
  | None => "undefined"
  end.

(** [`${x || ''}`] for an optional number and an optional string. *)
Definition number_or_empty (o : option Q) : string :=
  if truthyQ o then template_number o else "".

Definition string_or_empty (o : option string) : string :=
  if truthyS o then template o else "".

Definition yes_no (b : bool) : string := if b then "YES" else "NO".

(** A line of quoted fields separated by commas, with its line feed. *)
Definition quoted (field : string) : string :=
  String DQUOTE field +:+ String DQUOTE "".

Definition row (fields : list string) : string :=
  join "," (map quoted fields) +:+ String LF "".

Definition manufacturer_fields (m : Manufacturer.t) : list string :=
  [Manufacturer.id m; Manufacturer.name m].

Definition productLine_fields (pl : ProductLine.t) : list string :=
  [ProductLine.id pl; ProductLine.manufacturerId pl; ProductLine.name pl].

Definition product_fields (p : Product.t) : list string :=
  let uiRate := number_or_empty (Product.uiRate p) in
  let flatPrice := number_or_empty (Product.flatPrice p) in
  let maxUI := number_or_empty (Product.maximumUI p) in
  [Product.id p; template (Product.productLineId p);
   template (Product.productType p); template (Product.productTypeCode p);
   Product.name p; template (Product.pricingModel p); uiRate; flatPrice;
   template_number (Product.minimumUI p); maxUI].

Definition addon_fields (a : Addon.t) : list string :=
  let uiRate := number_or_empty (Addon.uiRate a) in
  let flatPrice := number_or_empty (Addon.flatPrice a) in
  let exclusiveGroup := string_or_empty (Addon.exclusiveGroup a) in
  let minSize := number_or_empty (Addon.minSize a) in
  let maxSize := number_or_empty (Addon.maxSize a) in
  let productTypes := join "; " (default [] (Addon.allowedProductTypes a)) in
  let productLines := join "; " (default [] (Addon.allowedProductLines a)) in
  [Addon.id a; Addon.name a; template (Addon.pricingModel a); uiRate;
   flatPrice; exclusiveGroup; yes_no (Addon.mandatory a);
   yes_no (Addon.hiddenFromCustomer a); yes_no (Addon.isJobBased a);
   productTypes; productLines; minSize; maxSize].

(** [forEach(x => { csv += row })]. *)
Definition rows {A} (fields : A -> list string) (l : list A) (csv : string)
    : string :=
  fold_left (fun csv x => csv +:+ row (fields x)) l csv.

Definition line (s : string) : string := s +:+ String LF "".

(** The text [exportAsCSV] hands to [downloadFile]. *)
Definition exportAsCSV (version : CatalogData.t) : string :=
  let csv := "" in
  let csv := csv +:+ line "MANUFACTURERS" in
  let csv := csv +:+ line "ID,Name" in
  let csv := rows manufacturer_fields
               (Object_values (CatalogData.manufacturers version)) csv in
  let csv := csv +:+ line "" in
  let csv := csv +:+ line "PRODUCT LINES" in
  let csv := csv +:+ line "ID,Manufacturer ID,Name" in
  let csv := rows productLine_fields
               (Object_values (CatalogData.productLines version)) csv in
  let csv := csv +:+ line "" in
  let csv := csv +:+ line "PRODUCTS" in
  let csv := csv +:+ line "ID,Product Line ID,Product Type,Type Code,Name,Pricing Model,UI Rate,Flat Price,Minimum UI,Maximum UI" in
  let csv := rows product_fields
               (Object_values (CatalogData.products version)) csv in
  let csv := csv +:+ line "" in
  let csv := csv +:+ line "ADDONS" in
  let csv := csv +:+ line "ID,Name,Pricing Model,UI Rate,Flat Price,Exclusive Group,Mandatory,Hidden From Customer,Job Based,Allowed Product Types,Allowed Product Lines,Min Size,Max Size" in
  rows addon_fields (Object_values (CatalogData.addons version)) csv.

(** The loop of [parseCSVLine] over the characters of the line. *)
Fixpoint parseCSVLine_loop (line : string) (values : list string)
    (current : string) (inQuotes : bool) : list string :=
  match line with
  | EmptyString => values ++ [trim current]
  | String char rest =>
      if Ascii.eqb char DQUOTE then
        parseCSVLine_loop rest values current (negb inQuotes)
      else if Ascii.eqb char COMMA && negb inQuotes then
        parseCSVLine_loop rest (values ++ [trim current]) "" inQuotes
      else
        parseCSVLine_loop rest values (current +:+ String char "") inQuotes
  end.

Definition parseCSVLine (line : string) : list string :=
  map (remove DQUOTE) (parseCSVLine_loop line [] "" false).

(** [v ? f(v) : null] for a value read at an index of [values]. *)
Definition if_present {A} (v : option string) (f : string -> option A)
    : option A :=
  match v with
  | Some s => if nonempty s then f s else None
  | None => None
  end.

(** [v.split(';').map(t => t.trim()).filter(t => t)]. *)
Definition split_list (v : string) : list string :=
  List.filter nonempty (map trim (split SEMICOLON v)).

Definition parse_product (values : list string) : option Product.t :=
  match values with
  | id :: productLineId :: productType :: productTypeCode :: name :: rest =>
      let pricingModel := rest !! 0%nat in
      let minimumUI := orQ (rest !! 3%nat ≫= parseInt) 0 in
      let maximumUI := if_present (rest !! 4%nat) parseInt in
      let uiRate :=
        if bool_decide (pricingModel = Some "UI")
        then if_present (rest !! 1%nat) parseFloat else None in
      let flatPrice :=
        if bool_decide (pricingModel = Some "FLAT")
        then if_present (rest !! 2%nat) parseFloat else None in
      Some (Product.mk id (Some productLineId) None (Some productType) None
              (Some productTypeCode) name pricingModel uiRate flatPrice
              (Some minimumUI) maximumUI None None)
  | _ => None
  end.

(** [values[i].toUpperCase() === 'YES']; a [TypeError] when the line has
    no value at that index. *)
Definition is_yes (v : option string) : result bool :=
  match v with
  | Some s => Ok (String.eqb (toUpperCase s) "YES")
  | None => Throw TypeError
  end.

Definition parse_addon (values : list string) : option (result Addon.t) :=
  match values with
  | id :: name :: pricingModel :: v3 :: rest =>
      Some (
        let exclusiveGroup := if_present (rest !! 1%nat) Some in
        mandatory ← is_yes (rest !! 2%nat);
        hiddenFromCustomer ← is_yes (rest !! 3%nat);
        isJobBased ← is_yes (rest !! 4%nat);
        let minSize := if_present (rest !! 7%nat) parseFloat in
        let maxSize := if_present (rest !! 8%nat) parseFloat in
        let uiRate :=
          if String.eqb pricingModel "UI"
          then if_present (Some v3) parseFloat else None in
        let flatPrice :=
          if String.eqb pricingModel "FLAT"
          then if_present (rest !! 0%nat) parseFloat else None in
        let allowedProductTypes :=
          if_present (rest !! 5%nat) (fun v => Some (split_list v)) in
        let allowedProductLines :=
          if_present (rest !! 6%nat) (fun v => Some (split_list v)) in
        Ok (Addon.mk id name (Some pricingModel) uiRate flatPrice
              exclusiveGroup mandatory hiddenFromCustomer isJobBased
              allowedProductTypes allowedProductLines minSize maxSize))
  | _ => None
  end.

Inductive section : Type :=
  | manufacturers
  | productLines
  | products
  | addons.

(** The part of the loop body of [importFromCSV] that stores the values
    of a line in the current section. *)
Definition store_line (currentSection : option section) (values : list string)
    (data : CatalogData.t) : result CatalogData.t :=
  match currentSection, values with
  | Some manufacturers, id :: name :: _ =>
      Ok (CatalogData.mk
            (<[id := Manufacturer.mk id name]> (CatalogData.manufacturers data))
            (CatalogData.productLines data) (CatalogData.products data)
            (CatalogData.addons data))
  | Some productLines, id :: manufacturerId :: name :: _ =>
      Ok (CatalogData.mk (CatalogData.manufacturers data)
            (<[id := ProductLine.mk id manufacturerId name]>
               (CatalogData.productLines data))
            (CatalogData.products data) (CatalogData.addons data))
  | Some products, _ =>
      match parse_product values with
      | Some product =>
          Ok (CatalogData.mk (CatalogData.manufacturers data)
                (CatalogData.productLines data)
                (<[Product.id product := product]> (CatalogData.products data))
                (CatalogData.addons data))
      | None => Ok data
      end
  | Some addons, _ =>
      match parse_addon values with
      | Some r =>
          addon ← r;
          Ok (CatalogData.mk (CatalogData.manufacturers data)
                (CatalogData.productLines data) (CatalogData.products data)
                (<[Addon.id addon := addon]> (CatalogData.addons data)))
      | None => Ok data
      end
  | _, _ => Ok data
  end.

(** [for (let i = 0; i < lines.length; i++)]: a section header also
    skips the line of column titles after it. *)
Fixpoint import_lines (lines : list string) (currentSection : option section)
    (data : CatalogData.t) : result CatalogData.t :=
  match lines with
  | [] => Ok data
  | l :: rest =>
      let line := trim l in
      let skipped := match rest with [] => rest | _ :: rest' => rest' end in
      if String.eqb line "MANUFACTURERS" then
        import_lines skipped (Some manufacturers) data
      else if String.eqb line "PRODUCT LINES" then
        import_lines skipped (Some productLines) data
      else if String.eqb line "PRODUCTS" then
        import_lines skipped (Some products) data
      else if String.eqb line "ADDONS" then
        import_lines skipped (Some addons) data
      else if String.eqb line "" then
        import_lines rest currentSection data
      else
        data' ← store_line currentSection (parseCSVLine line) data;
        import_lines rest currentSection data'
  end.

Definition importFromCSV (content : string) : result CatalogData.t :=
  let lines := split LF (trim content) in
  import_lines lines None (CatalogData.mk ∅ ∅ ∅ ∅).

End Codec.

End VersionUtils.

(** ** Vocabulary of the statements about the CSV round trip *)

Module CsvSpec.
Import JsString VersionUtils.

Fixpoint contains (c : ascii) (s : string) : bool :=
  match s with
  | EmptyString => false
  | String d r => Ascii.eqb d c || contains c r
  end.

(** A text that a quoted CSV field carries unchanged: no double quote,
    no line feed, no white space at either end. *)
Definition safe_text (s : string) : bool :=
  negb (contains DQUOTE s) && negb (contains LF s) && String.eqb (trim s) s.

(** An element of a list-valued field: moreover not empty and without a
    semicolon. *)
Definition safe_element (s : string) : bool :=
  safe_text s && nonempty s && negb (contains SEMICOLON s).

Definition safe_list (o : option (list string)) : bool :=
  forallb safe_element (default [] o).

Section WithFormat.
Context `{NumberFormat}.

(** A number that is written when it is truthy: its text is a safe,
    non-empty field. *)
Definition prints (o : option Q) : Prop :=
  truthyQ o = true ->
  safe_text (template_number o) = true /\
  nonempty (template_number o) = true.

(** ... and [parse] reads the number back from that text. *)
Definition reads (parse : string -> option Q) (o : option Q) : Prop :=
  truthyQ o = true -> parse (template_number o) = o.

Definition safe_manufacturer (m : Manufacturer.t) : Prop :=
  safe_text (Manufacturer.id m) = true /\
  safe_text (Manufacturer.name m) = true.

Definition safe_productLine (pl : ProductLine.t) : Prop :=
  safe_text (ProductLine.id pl) = true /\
  safe_text (ProductLine.manufacturerId pl) = true /\
  safe_text (ProductLine.name pl) = true.

(** An optional text that is present and safe. *)
Definition safe_present (o : option string) : Prop :=
  exists s, o = Some s /\ safe_text s = true.

Definition safe_product (p : Product.t) : Prop :=
  safe_text (Product.id p) = true /\
  safe_present (Product.productLineId p) /\
  safe_present (Product.productType p) /\
  safe_present (Product.productTypeCode p) /\
  safe_text (Product.name p) = true /\
  safe_present (Product.pricingModel p) /\
  prints (Product.uiRate p) /\
  prints (Product.flatPrice p) /\
  prints (Product.maximumUI p) /\
  safe_text (template_number (Product.minimumUI p)) = true /\
  (Product.pricingModel p = Some "UI" -> reads parseFloat (Product.uiRate p)) /\
  (Product.pricingModel p = Some "FLAT" ->
     reads parseFloat (Product.flatPrice p)) /\
  reads parseInt (Product.maximumUI p) /\
  orQ (parseInt (template_number (Product.minimumUI p))) 0 =
    orQ (Product.minimumUI p) 0.

Definition safe_addon (a : Addon.t) : Prop :=
  safe_text (Addon.id a) = true /\
  safe_text (Addon.name a) = true /\
  safe_present (Addon.pricingModel a) /\
  safe_text (string_or_empty (Addon.exclusiveGroup a)) = true /\
  safe_list (Addon.allowedProductTypes a) = true /\
  safe_list (Addon.allowedProductLines a) = true /\
  prints (Addon.uiRate a) /\
  prints (Addon.flatPrice a) /\
  prints (Addon.minSize a) /\
  prints (Addon.maxSize a) /\
  (Addon.pricingModel a = Some "UI" -> reads parseFloat (Addon.uiRate a)) /\
  (Addon.pricingModel a = Some "FLAT" -> reads parseFloat (Addon.flatPrice a)) /\
  reads parseFloat (Addon.minSize a) /\
  reads parseFloat (Addon.maxSize a).

(** Every entity is stored under its own id and is safe to write. *)
Definition keyed {V} (id : V -> string) (safe : V -> Prop)
    (m : gmap string V) : Prop :=
  forall k v, m !! k = Some v -> id v = k /\ safe v.

Definition safe_catalog (c : CatalogData.t) : Prop :=
  keyed Manufacturer.id safe_manufacturer (CatalogData.manufacturers c) /\
  keyed ProductLine.id safe_productLine (CatalogData.productLines c) /\
  keyed Product.id safe_product (CatalogData.products c) /\
  keyed Addon.id safe_addon (CatalogData.addons c).

End WithFormat.

(** [x || null] as the import reads it back. *)
Definition truthy_number (o : option Q) : option Q :=
  if truthyQ o then o else None.

Definition truthy_string (o : option string) : option string :=
  if truthyS o then o else None.

(** What the CSV carries of a product: the ten columns.  A rate or a
    price comes back when it is not 0 and the pricing model selects it;
    [minimumUI] comes back with 0 for an absent one, [maximumUI] when it is
    not 0.  [sizeLimits], [allowedAddons] and the legacy names are not in
    the file. *)
Definition exported_product (p : Product.t) : Product.t :=
  Product.mk
    (Product.id p)
    (Product.productLineId p)
    None
    (Product.productType p)
    None
    (Product.productTypeCode p)
    (Product.name p)
    (Product.pricingModel p)
    (if bool_decide (Product.pricingModel p = Some "UI")
     then truthy_number (Product.uiRate p) else None)
    (if bool_decide (Product.pricingModel p = Some "FLAT")
     then truthy_number (Product.flatPrice p) else None)
    (Some (orQ (Product.minimumUI p) 0))
    (truthy_number (Product.maximumUI p))
    None
    None.

(** What the CSV carries of an addon: all of its thirteen fields, an
    empty group or list and a rate, price or size of 0 as absent ones, a
    rate or a price when the pricing model selects it. *)
Definition exported_addon (a : Addon.t) : Addon.t :=
  Addon.mk
    (Addon.id a)
    (Addon.name a)
    (Addon.pricingModel a)
    (if bool_decide (Addon.pricingModel a = Some "UI")
     then truthy_number (Addon.uiRate a) else None)
    (if bool_decide (Addon.pricingModel a = Some "FLAT")
     then truthy_number (Addon.flatPrice a) else None)
    (truthy_string (Addon.exclusiveGroup a))
    (Addon.mandatory a)
    (Addon.hiddenFromCustomer a)
    (Addon.isJobBased a)
    (PricingEngine.restricts (Addon.allowedProductTypes a))
    (PricingEngine.restricts (Addon.allowedProductLines a))
    (truthy_number (Addon.minSize a))
    (truthy_number (Addon.maxSize a)).

Definition exported (c : CatalogData.t) : CatalogData.t :=
  CatalogData.mk
    (CatalogData.manufacturers c)
    (CatalogData.productLines c)
    (exported_product <$> CatalogData.products c)
    (exported_addon <$> CatalogData.addons c).

End CsvSpec.

(** ** Vocabulary of the proof of the round trip: the text line by line *)

Module CsvText.
Import JsString VersionUtils CsvSpec.

(** A row without its line feed. *)
Definition row_text (fields : list string) : string :=
  join "," (map quoted fields).

Definition LFs : string := String LF "".

Definition unlines (ls : list string) : string :=
  fold_right (fun l text => line l +:+ text) "" ls.

(** A line that stays as it is under [trim], and is not blank. *)
Definition stable (l : string) : Prop := l <> "" /\ trimEnd l = l.

Section WithFormat.
Context `{NumberFormat}.

Definition titles_manufacturers : string := "ID,Name".
Definition titles_productLines : string := "ID,Manufacturer ID,Name".
Definition titles_products : string :=
"ID,Product Line ID,Product Type,Type Code,Name,Pricing Model,UI Rate,Flat Price,Minimum UI,Maximum UI".
Definition titles_addons : string :=
"ID,Name,Pricing Model,UI Rate,Flat Price,Exclusive Group,Mandatory,Hidden From Customer,Job Based,Allowed Product Types,Allowed Product Lines,Min Size,Max Size".

(** The lines of the text [exportAsCSV] writes. *)
Definition export_lines (version : CatalogData.t) : list string :=
"MANUFACTURERS" :: titles_manufacturers ::
(map (fun m => row_text (manufacturer_fields m))
   (Object_values (CatalogData.manufacturers version)) ++
 "" :: "PRODUCT LINES" :: titles_productLines ::
 (map (fun pl => row_text (productLine_fields pl))
    (Object_values (CatalogData.productLines version)) ++
  "" :: "PRODUCTS" :: titles_products ::
  (map (fun p => row_text (product_fields p))
     (Object_values (CatalogData.products version)) ++
   "" :: "ADDONS" :: titles_addons ::
   map (fun a => row_text (addon_fields a))
     (Object_values (CatalogData.addons version))))).

End WithFormat.

(** What storing the row of an entity does to the data. *)
Definition ins_manufacturer (m : Manufacturer.t) (d : CatalogData.t)
    : CatalogData.t :=
  CatalogData.mk (<[Manufacturer.id m := m]> (CatalogData.manufacturers d))
    (CatalogData.productLines d) (CatalogData.products d) (CatalogData.addons d).

Definition ins_productLine (pl : ProductLine.t) (d : CatalogData.t)
    : CatalogData.t :=
  CatalogData.mk (CatalogData.manufacturers d)
    (<[ProductLine.id pl := pl]> (CatalogData.productLines d))
    (CatalogData.products d) (CatalogData.addons d).

Definition ins_product (p : Product.t) (d : CatalogData.t) : CatalogData.t :=
  CatalogData.mk (CatalogData.manufacturers d) (CatalogData.productLines d)
    (<[Product.id p := exported_product p]> (CatalogData.products d))
    (CatalogData.addons d).

Definition ins_addon (a : Addon.t) (d : CatalogData.t) : CatalogData.t :=
  CatalogData.mk (CatalogData.manufacturers d) (CatalogData.productLines d)
    (CatalogData.products d)
    (<[Addon.id a := exported_addon a]> (CatalogData.addons d)).

End CsvText.

(** A number format for whole numbers, to run the codec on examples: an
    integer is written in decimal, and [parseInt] and [parseFloat] read an
    optional minus sign and decimal digits, up to the first other
    character.  This is what JavaScript does on the texts the examples
    meet; fractions are outside it. *)
Module IntegerFormat.
Import VersionUtils.

Definition digit (c : ascii) : option Z :=
  let n := nat_of_ascii c in
  if (48 <=? n)%nat && (n <=? 57)%nat then Some (Z.of_nat (n - 48)) else None.

Fixpoint digits (s : string) (acc : option Z) : option Z :=
  match s with
  | EmptyString => acc
  | String c r =>
      match digit c with
      | Some d => digits r (Some (10 * default 0%Z acc + d)%Z)
      | None => acc
      end
  end.

Definition parse (s : string) : option Q :=
  match s with
  | String "-" r => (fun z => inject_Z (- z)) <$> digits r None
  | _ => inject_Z <$> digits s None
  end.

#[export] Instance format : NumberFormat := {|
  Number_toString q := pretty (Qnum q);
  parseFloat := parse;
  parseInt := parse
|}.

End IntegerFormat.

Module SampleCatalog.

Definition andersen : Manufacturer.t := Manufacturer.mk "andersen" "Andersen".

Definition series400 : ProductLine.t :=
  ProductLine.mk "series400" "andersen" "400 Series, Premium".

Definition door : Product.t :=
  Product.mk "door" (Some "series400") None (Some "door") None (Some "DR")
    "Entry Door" (Some "FLAT") None (Some 1200%Q) (Some 0%Q) None None None.

Definition hardware : Addon.t :=
  Addon.mk "hardware" "Hardware" (Some "FLAT") None (Some 45%Q)
    (Some "hardware") false false true (Some ["door"; "window"]) None
    None (Some 120%Q).

(** A catalog whose entities are all safe to write. *)
Definition catalog : CatalogData.t :=
  CatalogData.mk
    {[ "andersen" := andersen ]}
    {[ "series400" := series400 ]}
    {[ "door" := door ]}
    {[ "hardware" := hardware ]}.

(** A catalog with the window of the pricing samples, which has a list
    of allowed addons. *)
Definition with_allowed_addons : CatalogData.t :=
  CatalogData.mk
    {[ "andersen" := andersen ]}
    {[ "series400" := series400 ]}
    {[ "sh" := Sample.window ]}
    ∅.

(** A manufacturer whose name holds double quotes: Pella, then Pro in
    double quotes. *)
Definition pella : Manufacturer.t :=
  Manufacturer.mk "pella"
    ("Pella " +:+ String JsString.DQUOTE ("Pro" +:+ String JsString.DQUOTE "")).

Definition with_quoted_name : CatalogData.t :=
  CatalogData.mk {[ "pella" := pella ]} ∅ ∅ ∅.

End SampleCatalog.
(** ** The addons on offer for a product *)

Module Offer.
Import PricingEngine.

(** [Object.keys(o)]: the keys of the dictionary, in the order the map
    lists them. *)
Definition Object_keys {V} (o : gmap string V) : list string :=
  (map_to_list o).*1.

(** The filter reads [allAddons[addonId]] for a key of [allAddons]; the
    branch for an id without an entry is never taken. *)
Definition getAvailableAddonsForProduct (product : Product.t) (ui : Q)
    (allAddons : gmap string Addon.t) : list string :=
  List.filter
    (fun addonId =>
       match allAddons !! addonId with
       | Some addon => PricingEngine.isAddonAllowed addon product ui
       | None => false
       end)
    (Object_keys allAddons).

End Offer.

(** ** Vocabulary of the statements about eligibility and selections *)

Module Eligibility.
Import PricingEngine.

(** The first of the fields that is present and not empty. *)
Fixpoint first_nonempty (fields : list (option string)) : option string :=
  match fields with
  | [] => None
  | o :: rest => if truthyS o then o else first_nonempty rest
  end.

(** A restriction list that is absent or empty lets every product pass;
    another one lets the products pass whose value is in the list. *)
Definition listed (restriction : option (list string)) (v : option string)
    : Prop :=
  match restriction with
  | None | Some [] => True
  | Some l => exists s, v = Some s /\ s ∈ l
  end.

(** The size is within the bounds of the addon that are present. *)
Definition within (addon : Addon.t) (ui : Q) : Prop :=
  (forall m, Addon.maxSize addon = Some m -> (ui <= m)%Q) /\
  (forall m, Addon.minSize addon = Some m -> (m <= ui)%Q).

(** The addon id is known and [isAddonAllowed] accepts the addon. *)
Definition takes (product : Product.t) (ui : Q)
    (allAddons : gmap string Addon.t) (addonId : string) : bool :=
  match Spec.accepted product ui allAddons addonId with
  | Some _ => true
  | None => false
  end.

(** The product with another maximum UI and other size limits. *)
Definition with_limits (product : Product.t) (maximumUI : option Q)
    (sizeLimits : option SizeLimits.t) : Product.t :=
  Product.mk (Product.id product) (Product.productLineId product)
    (Product.productLine product) (Product.productType product)
    (Product.type product) (Product.productTypeCode product)
    (Product.name product) (Product.pricingModel product)
    (Product.uiRate product) (Product.flatPrice product)
    (Product.minimumUI product) maximumUI sizeLimits
    (Product.allowedAddons product).

End Eligibility.

(** ** Vocabulary of the statements about totals *)

Module Totals.
Import PricingEngine.

(** The product has the rate or the price its pricing model reads. *)
Definition rated_product (p : Product.t) : Prop :=
  (Product.pricingModel p = Some "UI" -> is_Some (Product.uiRate p)) /\
  (Product.pricingModel p = Some "FLAT" -> is_Some (Product.flatPrice p)).

(** The addon has the rate or the price its pricing model reads. *)
Definition rated_addon (a : Addon.t) : Prop :=
  (Addon.pricingModel a = Some "UI" -> is_Some (Addon.uiRate a)) /\
  (Addon.pricingModel a = Some "FLAT" -> is_Some (Addon.flatPrice a)).

(** Two outcomes of [calculateLineItem] that agree up to the order of the
    applied addons: line items of the same size and base price, with the
    same entries and totals of the same value, or two failures that are the
    same or both conflicts of groups. *)
Definition same_line_item (a b : result LineItem.t) : Prop :=
  match a, b with
  | Ok li, Ok li' =>
      LineItem.ui li = LineItem.ui li' /\
      LineItem.basePrice li = LineItem.basePrice li' /\
      LineItem.appliedAddons li ≡ₚ LineItem.appliedAddons li' /\
      number_eq (LineItem.addonTotal li) (LineItem.addonTotal li') /\
      number_eq (LineItem.lineItemParTotal li) (LineItem.lineItemParTotal li')
  | Throw e, Throw e' =>
      e = e' \/
      exists g g', e = ExclusiveGroupConflict g /\ e' = ExclusiveGroupConflict g'
  | _, _ => False
  end.

(** The sum of the job-based addon prices, a missing price or a price of 0
    counting as 0. *)
Definition job_sum (jobBasedAddons : list JobAddon.t) : Q :=
  fold_right (fun a total => (orQ (JobAddon.price a) 0 + total)%Q) 0%Q
    jobBasedAddons.

(** The par total of every line item is a number. *)
Definition numeric (item : LineItem.t) : Prop :=
  exists t, LineItem.lineItemParTotal item = Num t.

(** Two outcomes of [calculateQuote] that are the same error or totals of
    the same value. *)
Definition same_outcome (a b : result QuoteTotals.t) : Prop :=
  match a, b with
  | Ok q, Ok q' =>
      number_eq (QuoteTotals.totalParPrice q) (QuoteTotals.totalParPrice q') /\
      number_eq (QuoteTotals.jobAddonTotal q) (QuoteTotals.jobAddonTotal q') /\
      number_eq (QuoteTotals.finalPrice q) (QuoteTotals.finalPrice q') /\
      QuoteTotals.salesUplift q = QuoteTotals.salesUplift q'
  | Throw e, Throw e' => e = e'
  | _, _ => False
  end.

End Totals.

(** ** Vocabulary of the statements about lines of CSV text *)

Module CsvFacts.
Import JsString VersionUtils.

Definition CR : ascii := "013"%char.

(** The text with a carriage return before every line feed. *)
Fixpoint crlf (s : string) : string :=
  match s with
  | EmptyString => EmptyString
  | String c r =>
      if Ascii.eqb c LF then String CR (String LF (crlf r))
      else String c (crlf r)
  end.

(** A line that opens a section. *)
Definition is_header (line : string) : bool :=
  String.eqb line "MANUFACTURERS" || String.eqb line "PRODUCT LINES" ||
  String.eqb line "PRODUCTS" || String.eqb line "ADDONS".

(** The catalog without entities. *)
Definition empty : CatalogData.t := CatalogData.mk ∅ ∅ ∅ ∅.

(** An addon row that is long enough to be read and too short to hold
    the three flags. *)
Definition short (values : list string) : Prop :=
  (4 <= length values <= 8)%nat.

(** A value as [parseCSVLine] returns it: without double quotes and
    without white space at either end. *)
Definition clean (v : string) : Prop :=
  CsvSpec.contains DQUOTE v = false /\ trim v = v.

(** What a product read from a row never has, and what it always has. *)
Definition bare (p : Product.t) : Prop :=
  Product.sizeLimits p = None /\ Product.allowedAddons p = None /\
  Product.productLine p = None /\ Product.type p = None /\
  is_Some (Product.minimumUI p).

(** Every entity is stored under its own id. *)
Definition keyed_by_id (data : CatalogData.t) : Prop :=
  CsvSpec.keyed Manufacturer.id (fun _ => True) (CatalogData.manufacturers data) /\
  CsvSpec.keyed ProductLine.id (fun _ => True) (CatalogData.productLines data) /\
  CsvSpec.keyed Product.id bare (CatalogData.products data) /\
  CsvSpec.keyed Addon.id (fun _ => True) (CatalogData.addons data).

End CsvFacts.

(** ** Import of a version from JSON

    [importFromJSON] reads the value [JSON.parse] returns through five
    of its properties and their truthiness.  The parser is the one of the
    runtime; the values it returns are the JSON values. *)

Module Json.

#[warnings="-register-all"] Inductive value : Type :=
  | JNull
  | JBool (b : bool)
  | JNumber (n : Q)
  | JString (s : string)
  | JArray (elements : list value)
  | JObject (members : gmap string value).

(** Truthiness of a property; [None] is [undefined]. *)
Definition truthy (v : option value) : bool :=
  match v with
  | None | Some JNull => false
  | Some (JBool b) => b
  | Some (JNumber n) => negb (Qeq_bool n 0)
  | Some (JString s) => negb (String.eqb s "")
  | Some (JArray _) | Some (JObject _) => true
  end.

(** [v.key] for a value that is not [null] and a key that no prototype
    defines, as the five keys read here: the member of an object, and
    [undefined] on every other value. *)
Definition get (v : value) (key : string) : option value :=
  match v with
  | JObject members => members !! key
  | _ => None
  end.

(** [x || {}]. *)
Definition or_empty (x : option value) : value :=
  match x with
  | Some v => if truthy x then v else JObject ∅
  | None => JObject ∅
  end.

End Json.

Module VersionJson.
Import Json.

Inductive failure : Type :=
  | SyntaxError          (* thrown by [JSON.parse] *)
  | PropertyOfNull       (* TypeError: [versionData.id] on [null] *)
  | InvalidVersionFormat (* Error('Invalid version JSON format') *).

(** The object [importFromJSON] returns. *)
Record data := mk {
  manufacturers : value;
  productLines : value;
  products : value;
  addons : value
}.

Inductive outcome : Type :=
  | Returns (d : data)
  | Throws (f : failure).

Section WithParser.

(** [JSON.parse]; [None] when it throws a SyntaxError. *)
Variable JSON_parse : string -> option value.

Definition importFromJSON (content : string) : outcome :=
  match JSON_parse content with
  | None => Throws SyntaxError
  | Some JNull => Throws PropertyOfNull
  | Some versionData =>
      if negb (truthy (get versionData "id")) ||
         negb (truthy (get versionData "manufacturers"))
      then Throws InvalidVersionFormat
      else
        Returns (mk (or_empty (get versionData "manufacturers"))
                    (or_empty (get versionData "productLines"))
                    (or_empty (get versionData "products"))
                    (or_empty (get versionData "addons")))
  end.

End WithParser.

(** The object [importFromJSON] returns, as a JSON value. *)
Definition to_value (d : data) : value :=
  JObject (<["manufacturers" := manufacturers d]>
             (<["productLines" := productLines d]>
                (<["products" := products d]>
                   (<["addons" := addons d]> ∅)))).

End VersionJson.

Module SampleJson.
Import Json.

(** The text of a version with an [id] of 1 and, for [manufacturers], the
    array [[1]]: an opening brace, the two members, a closing brace. *)
Definition version_text : string :=
  "{" +:+ VersionUtils.quoted "id" +:+ ":1," +:+
  VersionUtils.quoted "manufacturers" +:+ ":[1]}".

Definition version : value :=
  JObject (<["id" := JNumber 1]> (<["manufacturers" := JArray [JNumber 1]]> ∅)).

(** What [importFromJSON] returns of it, and its text. *)
Definition imported : VersionJson.data :=
  VersionJson.mk (JArray [JNumber 1]) (JObject ∅) (JObject ∅) (JObject ∅).

Definition imported_text : string :=
  "{" +:+ VersionUtils.quoted "manufacturers" +:+ ":[1]," +:+
  VersionUtils.quoted "productLines" +:+ ":{}," +:+
  VersionUtils.quoted "products" +:+ ":{}," +:+
  VersionUtils.quoted "addons" +:+ ":{}}".

(** [JSON.parse] on the two sample texts; the table holds no other
    text. *)
Definition parse (content : string) : option value :=
  if String.eqb content version_text then Some version
  else if String.eqb content imported_text
       then Some (VersionJson.to_value imported)
       else None.

End SampleJson.

(** * Properties *)

Import PricingEngine.

Section Numbers.

Lemma Qltb_lt (x y : Q) : Qltb x y = true <-> (x < y)%Q.
Proof.
  unfold Qltb. rewrite negb_true_iff. split.
  - intros H. apply Qnot_le_lt. intros Hle.
    apply Qle_bool_iff in Hle. congruence.
  - intros H. destruct (Qle_bool y x) eqn:E; [|reflexivity].
    apply Qle_bool_iff in E. exfalso. exact (Qlt_not_le _ _ H E).
Qed.

Lemma Qltb_ge (x y : Q) : Qltb x y = false <-> (y <= x)%Q.
Proof.
  unfold Qltb. rewrite negb_false_iff. apply Qle_bool_iff.
Qed.

End Numbers.



(** ** The addon loop of [calculateLineItem] *)

Section AddonLoop.
Import Spec.

Variables (product : Product.t) (ui effectiveUI : Q).
Variable allAddons : gmap string Addon.t.

Local Abbreviation step := (addon_step product ui effectiveUI allAddons).
Local Abbreviation loop := (addon_loop product ui effectiveUI allAddons).
Local Abbreviation acc := (accepted product ui allAddons).
Local Abbreviation grp := (declares product ui allAddons).

(** A turn of the loop on an id that is not accepted changes nothing. *)
Lemma addon_step_skip st addonId :
  acc addonId = None -> step st addonId = Ok st.
Proof.
  unfold accepted, addon_step. intros H.
  destruct (allAddons !! addonId) as [addon|]; [|reflexivity].
  destruct (isAddonAllowed addon product ui); [discriminate|reflexivity].
Qed.

(** A turn on an accepted addon that declares no group appends its entry. *)
Lemma addon_step_free st addonId addon :
  acc addonId = Some addon -> grp addonId = None ->
  step st addonId =
    Ok (mk_state (appliedAddons st ++ [entry effectiveUI addonId addon])
                 (usedExclusiveGroups st)
                 (add (addonTotal st) (addonPrice addon effectiveUI))).
Proof.
  unfold declares, accepted, addon_step, entry. intros H Hg.
  destruct (allAddons !! addonId) as [a|]; [|discriminate].
  destruct (isAddonAllowed a product ui); [|discriminate].
  injection H as ->. simpl in *. rewrite orb_false_r.
  destruct (truthyS (Addon.exclusiveGroup addon)) eqn:E; simpl.
  - destruct (Addon.exclusiveGroup addon); discriminate.
  - reflexivity.
Qed.

(** A turn on an accepted addon that declares [g]: a conflict when [g] is
    in use, otherwise [g] becomes used and the entry is appended. *)
Lemma addon_step_group st addonId addon g :
  acc addonId = Some addon -> grp addonId = Some g ->
  step st addonId =
    if bool_decide (g ∈ usedExclusiveGroups st)
    then Throw (ExclusiveGroupConflict g)
    else Ok (mk_state (appliedAddons st ++ [entry effectiveUI addonId addon])
                      ({[ g ]} ∪ usedExclusiveGroups st)
                      (add (addonTotal st) (addonPrice addon effectiveUI))).
Proof.
  unfold declares, accepted, addon_step, entry. intros H Hg.
  destruct (allAddons !! addonId) as [a|]; [|discriminate].
  destruct (isAddonAllowed a product ui); [|discriminate].
  injection H as ->. simpl in *. rewrite orb_false_r.
  destruct (truthyS (Addon.exclusiveGroup addon)) eqn:E; [|discriminate].
  rewrite Hg. simpl. destruct (bool_decide (g ∈ usedExclusiveGroups st)); reflexivity.
Qed.

(** What a completed loop has accumulated. *)
Lemma addon_loop_Ok ids : forall st st',
  loop st ids = Ok st' ->
  appliedAddons st' =
    appliedAddons st ++ entries product ui effectiveUI allAddons ids /\
  addonTotal st' =
    fold_left add
      (map AppliedAddon.price (entries product ui effectiveUI allAddons ids))
      (addonTotal st) /\
  usedExclusiveGroups st' = list_to_set (omap grp ids) ∪ usedExclusiveGroups st /\
  NoDup (omap grp ids) /\
  (forall g, g ∈ omap grp ids -> g ∉ usedExclusiveGroups st).
Proof.
  induction ids as [|addonId rest IH]; intros st st' H; simpl in *.
  - injection H as <-. rewrite app_nil_r. repeat split; try constructor.
    + set_solver.
    + intros g Hg. inversion Hg.
  - unfold entries in *. simpl.
    destruct (acc addonId) as [addon|] eqn:Ha.
    + destruct (grp addonId) as [g|] eqn:Hg.
      * rewrite (addon_step_group st addonId addon g Ha Hg) in H.
        destruct (bool_decide (g ∈ usedExclusiveGroups st)) eqn:Hin;
          [discriminate|]. apply bool_decide_eq_false in Hin.
        simpl in H. apply IH in H as (H1 & H2 & H3 & H4 & H5). simpl in *.
        rewrite H1, H2, H3, <- app_assoc. repeat split; try reflexivity.
        -- set_solver.
        -- constructor; [|exact H4]. intros Hgin. apply (H5 g Hgin). set_solver.
        -- intros g' Hg'. apply elem_of_cons in Hg' as [->|Hg']; [exact Hin|].
           specialize (H5 g' Hg'). set_solver.
      * rewrite (addon_step_free st addonId addon Ha Hg) in H.
        simpl in H. apply IH in H as (H1 & H2 & H3 & H4 & H5). simpl in *.
        rewrite H1, H2, H3, <- app_assoc. repeat split; try reflexivity; assumption.
    + assert (Hg : grp addonId = None) by (unfold declares; rewrite Ha; reflexivity).
      rewrite Hg. rewrite (addon_step_skip st addonId Ha) in H. simpl in H.
      apply IH in H. exact H.
Qed.

(** The loop only fails on a group conflict.  The group it names is the
    first, in the order of the list, that an addon declares after it was
    already in use or declared by an earlier addon. *)
Lemma addon_loop_Throw ids : forall st e,
  loop st ids = Throw e ->
  exists g pre post,
    e = ExclusiveGroupConflict g /\
    omap grp ids = pre ++ g :: post /\
    NoDup pre /\
    (forall x, x ∈ pre -> x ∉ usedExclusiveGroups st) /\
    (g ∈ usedExclusiveGroups st \/ g ∈ pre).
Proof.
  induction ids as [|addonId rest IH]; intros st e H.
  - discriminate.
  - change (omap grp (addonId :: rest)) with
      (match grp addonId with
       | Some g => g :: omap grp rest
       | None => omap grp rest
       end).
    simpl in H.
    destruct (acc addonId) as [addon|] eqn:Ha.
    + destruct (grp addonId) as [g|] eqn:Hg.
      * rewrite (addon_step_group st addonId addon g Ha Hg) in H.
        destruct (bool_decide (g ∈ usedExclusiveGroups st)) eqn:Hin.
        -- apply bool_decide_eq_true in Hin. injection H as <-.
           exists g, [], (omap grp rest).
           repeat split; [constructor| |left; exact Hin].
           intros x Hx. inversion Hx.
        -- apply bool_decide_eq_false in Hin.
           simpl in H. apply IH in H as (g' & pre & post & -> & Hs & Hnd & Hfresh & Hu).
           simpl in Hfresh, Hu. exists g', (g :: pre), post. rewrite Hs.
           split; [reflexivity|]. split; [reflexivity|]. split; [|split].
           ++ constructor; [|exact Hnd]. intros Hgin.
              apply (Hfresh g Hgin). set_solver.
           ++ intros x Hx. apply elem_of_cons in Hx as [->|Hx]; [exact Hin|].
              specialize (Hfresh x Hx). set_solver.
           ++ destruct Hu as [Hu|Hu]; [|right; set_solver].
              apply elem_of_union in Hu as [Hu|Hu]; [|left; exact Hu].
              right. set_solver.
      * rewrite (addon_step_free st addonId addon Ha Hg) in H.
        simpl in H. apply IH in H. exact H.
    + assert (Hg : grp addonId = None) by (unfold declares; rewrite Ha; reflexivity).
      rewrite Hg. rewrite (addon_step_skip st addonId Ha) in H. simpl in H.
      apply IH in H. exact H.
Qed.

Lemma elem_of_entries ids e :
  e ∈ entries product ui effectiveUI allAddons ids <->
  exists addonId addon,
    addonId ∈ ids /\ acc addonId = Some addon /\
    e = entry effectiveUI addonId addon.
Proof.
  unfold entries. rewrite list_elem_of_omap. split.
  - intros (addonId & Hin & He).
    destruct (acc addonId) as [addon|] eqn:Ha; [|discriminate].
    injection He as <-. eauto.
  - intros (addonId & addon & Hin & Ha & ->). exists addonId.
    rewrite Ha. auto.
Qed.

End AddonLoop.

(** ** [new Set(...)] *)

Lemma set_add_fold (l : list string) : forall s,
  NoDup s ->
  NoDup (fold_left set_add l s) /\
  (forall x, x ∈ fold_left set_add l s <-> x ∈ s \/ x ∈ l).
Proof.
  induction l as [|y l IH]; intros s Hs; simpl.
  - split; [exact Hs|]. intros x. rewrite elem_of_nil. tauto.
  - assert (Hs' : NoDup (set_add s y)).
    { unfold set_add. case_bool_decide as Hy; [exact Hs|].
      apply NoDup_app. repeat split; [exact Hs| |apply NoDup_singleton].
      intros x Hx Hx'. apply list_elem_of_singleton in Hx' as ->. exact (Hy Hx). }
    destruct (IH _ Hs') as [IH1 IH2]. split; [exact IH1|].
    intros x. rewrite IH2, elem_of_cons. unfold set_add.
    case_bool_decide as Hy.
    + split; [tauto|]. intros [H|[->|H]]; tauto.
    + rewrite elem_of_app, list_elem_of_singleton. tauto.
Qed.

Lemma new_Set_NoDup (l : list string) : NoDup (new_Set l).
Proof. apply (set_add_fold l []). constructor. Qed.

Lemma elem_of_new_Set (l : list string) (x : string) : x ∈ new_Set l <-> x ∈ l.
Proof.
  unfold new_Set. destruct (set_add_fold l [] (NoDup_nil_2 (A:=string))) as [_ H].
  rewrite H, elem_of_nil. tauto.
Qed.

(** ** [calculateLineItem] *)

Section CalculateLineItem.
Import Spec.

Variables (product : Product.t) (width height : Q).
Variable selectedAddonIds : list string.
Variable allAddons : gmap string Addon.t.

Local Abbreviation rawUI := (calculateUI width height).
Local Abbreviation effUI := (effectiveUI_of product rawUI).
Local Abbreviation ids := (allAddonIds product selectedAddonIds allAddons).

(** The line item of a call that returns: the base price of the product
    and the entries of all the accepted addons, none left out. *)
Lemma calculateLineItem_Ok li :
  calculateLineItem product width height selectedAddonIds allAddons = Ok li ->
  exists basePrice,
    basePrice_of product effUI = Ok basePrice /\
    LineItem.ui li = effUI /\
    LineItem.basePrice li = basePrice /\
    LineItem.appliedAddons li = entries product rawUI effUI allAddons ids /\
    LineItem.addonTotal li =
      fold_left add (map AppliedAddon.price (LineItem.appliedAddons li)) (Num 0) /\
    LineItem.lineItemParTotal li = add basePrice (LineItem.addonTotal li) /\
    NoDup (omap (declares product rawUI allAddons) ids).
Proof.
  unfold calculateLineItem. intros H.
  destruct (basePrice_of product effUI) as [base|] eqn:Hb; [|discriminate].
  simpl in H.
  destruct (addon_loop product rawUI effUI allAddons (mk_state [] ∅ (Num 0)) ids)
    as [st|] eqn:Hl; [|discriminate].
  simpl in H. injection H as <-.
  apply addon_loop_Ok in Hl as (H1 & H2 & _ & H4 & _). simpl in *.
  exists base. rewrite H1, H2. repeat split; try reflexivity. exact H4.
Qed.

(** A call fails on an invalid pricing model of the product or, once the
    product is priced, on the first group that is declared twice. *)
Lemma calculateLineItem_Throw e :
  calculateLineItem product width height selectedAddonIds allAddons = Throw e ->
  basePrice_of product effUI = Throw e \/
  exists g pre post,
    e = ExclusiveGroupConflict g /\
    omap (declares product rawUI allAddons) ids = pre ++ g :: post /\
    NoDup pre /\
    g ∈ pre.
Proof.
  unfold calculateLineItem. intros H.
  destruct (basePrice_of product effUI) as [base|] eqn:Hb.
  - right. simpl in H.
    destruct (addon_loop product rawUI effUI allAddons (mk_state [] ∅ (Num 0)) ids)
      as [st|] eqn:Hl; [discriminate|].
    simpl in H. injection H as <-.
    apply addon_loop_Throw in Hl as (g & pre & post & -> & Hs & Hnd & _ & [Hu|Hu]).
    + simpl in Hu. set_solver.
    + exists g, pre, post. auto.
  - left. simpl in H. injection H as <-. reflexivity.
Qed.

End CalculateLineItem.

(** ** Lists of declared groups *)

Section Omap.
Context {A B : Type} (f : A -> option B).

Lemma omap_split (l : list A) : forall pre g post,
  omap f l = pre ++ g :: post ->
  exists k1 x k2,
    l = k1 ++ x :: k2 /\ omap f k1 = pre /\ f x = Some g /\ omap f k2 = post.
Proof.
  induction l as [|y l IH]; intros pre g post H.
  - destruct pre; discriminate.
  - simpl in H. destruct (f y) as [b|] eqn:Hy.
    + destruct pre as [|p pre]; simpl in H.
      * injection H as -> <-. exists [], y, l. auto.
      * injection H as -> H. apply IH in H as (k1 & x & k2 & -> & H1 & H2 & H3).
        exists (y :: k1), x, k2. repeat split; try assumption.
        simpl. rewrite Hy. f_equal. exact H1.
    + apply IH in H as (k1 & x & k2 & -> & H1 & H2 & H3).
      exists (y :: k1), x, k2. repeat split; try assumption.
      simpl. rewrite Hy. exact H1.
Qed.

End Omap.

Section SharedGroups.
Import Spec.

Variables (product : Product.t) (ui : Q) (allAddons : gmap string Addon.t).

Local Abbreviation grp := (declares product ui allAddons).

Lemma shared_group_not_NoDup (ids : list string) (g : string) :
  shared_group product ui allAddons ids g -> ~ NoDup (omap grp ids).
Proof.
  intros (a & b & Hab & Ha & Hb & Hga & Hgb) Hnd.
  apply list_elem_of_split in Ha as (k1 & k2 & ->).
  rewrite omap_app in Hnd. simpl in Hnd. rewrite Hga in Hnd.
  apply NoDup_app in Hnd as (_ & H1 & H2). apply NoDup_cons in H2 as [H2 _].
  apply elem_of_app in Hb as [Hb|Hb].
  - apply (H1 g); [|left]. apply list_elem_of_omap. eauto.
  - apply elem_of_cons in Hb as [->|Hb]; [congruence|].
    apply H2. apply list_elem_of_omap. eauto.
Qed.

Lemma repeated_group_shared (ids : list string) pre g post :
  NoDup ids -> omap grp ids = pre ++ g :: post -> g ∈ pre ->
  shared_group product ui allAddons ids g.
Proof.
  intros Hnd Hs Hin.
  apply omap_split in Hs as (k1 & x & k2 & -> & <- & Hx & _).
  apply list_elem_of_omap in Hin as (y & Hy & Hgy).
  exists y, x. repeat split; try assumption.
  - intros ->. apply NoDup_app in Hnd as (_ & H & _). apply (H x Hy). left.
  - apply elem_of_app. left. exact Hy.
  - apply elem_of_app. right. left.
Qed.

End SharedGroups.

(** ** Claims about [calculateLineItem] *)



(** C3. A mandatory addon of [product.allowedAddons] belongs to the set of
    addon ids the loop runs over, whether or not the caller selected it; the
    set has no duplicates and holds the mandatory and the selected ids.  When
    the call returns and [isAddonAllowed] accepts the addon, its entry is in
    [appliedAddons] with its price, and [addonTotal] is the sum of the prices
    of [appliedAddons], that price included. *)
Theorem mandatory_addon_applied
    (product : Product.t) (width height : Q) (selectedAddonIds : list string)
    (allAddons : gmap string Addon.t) (allowed : list string)
    (addonId : string) (addon : Addon.t) :
  Product.allowedAddons product = Some allowed ->
  addonId ∈ allowed ->
  allAddons !! addonId = Some addon ->
  Addon.mandatory addon = true ->
  let ids := allAddonIds product selectedAddonIds allAddons in
  let ui := calculateUI width height in
  addonId ∈ ids /\
  NoDup ids /\
  (forall x, x ∈ ids <->
             x ∈ mandatoryAddonIds product allAddons \/ x ∈ selectedAddonIds) /\
  forall li,
    calculateLineItem product width height selectedAddonIds allAddons = Ok li ->
    isAddonAllowed addon product ui = true ->
    exists before after,
      LineItem.appliedAddons li =
        before ++
        AppliedAddon.mk addonId (Addon.name addon)
          (addonPrice addon (LineItem.ui li)) (Addon.hiddenFromCustomer addon)
        :: after /\
      LineItem.addonTotal li =
        fold_left add (map AppliedAddon.price (LineItem.appliedAddons li)) (Num 0).
Proof.
  intros Hallowed Hin Hlook Hmand. cbv zeta.
  assert (Hm : addonId ∈ mandatoryAddonIds product allAddons).
  { unfold mandatoryAddonIds. rewrite Hallowed. simpl.
    apply list_elem_of_In, filter_In. rewrite Hlook, Hmand.
    split; [apply list_elem_of_In; exact Hin|reflexivity]. }
  assert (Hids : forall x, x ∈ allAddonIds product selectedAddonIds allAddons <->
             x ∈ mandatoryAddonIds product allAddons \/ x ∈ selectedAddonIds).
  { intros x. unfold allAddonIds. rewrite elem_of_new_Set, elem_of_app. tauto. }
  split; [apply Hids; left; exact Hm|].
  split; [apply new_Set_NoDup|]. split; [exact Hids|].
  intros li Hcall Hal.
  apply calculateLineItem_Ok in Hcall as (base & _ & Hui & _ & Happ & Htot & _).
  assert (He : Spec.entry (LineItem.ui li) addonId addon ∈ LineItem.appliedAddons li).
  { rewrite Happ, Hui. apply elem_of_entries. exists addonId, addon.
    repeat split; [apply Hids; left; exact Hm|].
    unfold Spec.accepted. rewrite Hlook, Hal. reflexivity. }
  apply list_elem_of_split in He as (before & after & He).
  exists before, after. split; [exact He|exact Htot].
Qed.

(** The mandatory grids of the sample window are applied although only the
    tint was selected. *)
Lemma mandatory_addon_applied_witness :
  exists li,
    calculateLineItem Sample.window 30 20 ["tint"] Sample.addons = Ok li /\
    "grids" ∈ allAddonIds Sample.window ["tint"] Sample.addons /\
    exists before after,
      LineItem.appliedAddons li =
        before ++
        AppliedAddon.mk "grids" "Grids"
          (addonPrice Sample.grids (LineItem.ui li)) false :: after /\
      LineItem.addonTotal li =
        fold_left add (map AppliedAddon.price (LineItem.appliedAddons li)) (Num 0).
Proof.
  destruct (calculateLineItem Sample.window 30 20 ["tint"] Sample.addons)
    as [li|e] eqn:Hcall; [|vm_compute in Hcall; discriminate].
  exists li. split; [reflexivity|].
  destruct (mandatory_addon_applied Sample.window 30 20 ["tint"] Sample.addons
              ["grids"] "grids" Sample.grids)
    as (Hin & _ & _ & Happlied).
  - reflexivity.
  - apply list_elem_of_In. simpl. auto.
  - vm_compute. reflexivity.
  - reflexivity.
  - split; [exact Hin|]. apply (Happlied li Hcall). vm_compute. reflexivity.
Defined.




(** A product whose pricing model is neither UI nor FLAT is rejected. *)
Lemma invalid_product_pricing_model
    (product : Product.t) (width height : Q) (selectedAddonIds : list string)
    (allAddons : gmap string Addon.t) :
  Product.pricingModel product <> Some "UI" ->
  Product.pricingModel product <> Some "FLAT" ->
  calculateLineItem product width height selectedAddonIds allAddons =
    Throw (InvalidConfiguration (Product.pricingModel product)).
Proof.
  intros Hui Hflat. unfold calculateLineItem, basePrice_of.
  destruct (Product.pricingModel product) as [m|]; [|reflexivity].
  assert (Hn1 : m <> "UI") by congruence.
  assert (Hn2 : m <> "FLAT") by congruence.
  clear Hui Hflat.
  repeat match goal with
  | |- context [match ?s with EmptyString => _ | String _ _ => _ end] =>
      destruct s; try reflexivity; try congruence
  | |- context [match ?x with Ascii _ _ _ _ _ _ _ _ => _ end] =>
      destruct x
  | |- context [if ?b then _ else _] =>
      destruct b; try reflexivity; try congruence
  end.
Qed.

(** C6, at the failing input.  The addon "labor" has the pricing model
    "PERCENT"; the call does not fail, the addon is applied at the price 0. *)
Theorem unknown_addon_pricing_model_accepted :
  Addon.pricingModel Sample.labor = Some "PERCENT" /\
  calculateLineItem Sample.plain_window 30 20 ["labor"] Sample.addons =
    Ok (LineItem.mk 50 (Num 500) (Num 0) (Num 500)
          [AppliedAddon.mk "labor" "Install Labor" (Num 0) true]).
Proof.
  split; [reflexivity|]. vm_compute. reflexivity.
Qed.

(** ** [calculateQuote] *)

#[global] Instance number_eq_equiv : Equivalence number_eq.
Proof.
  split.
  - intros [|x]; simpl; [exact I|reflexivity].
  - intros [|x] [|y]; simpl; try tauto. intros H. symmetry. exact H.
  - intros [|x] [|y] [|z]; simpl; try tauto. intros H1 H2.
    rewrite H1. exact H2.
Qed.

Section Sums.

Lemma add_proper a a' b b' :
  number_eq a a' -> number_eq b b' -> number_eq (add a b) (add a' b').
Proof.
  destruct a, a', b, b'; simpl; try tauto. intros -> ->. reflexivity.
Qed.

Lemma add_assoc a b c : number_eq (add (add a b) c) (add a (add b c)).
Proof. destruct a, b, c; simpl; try exact I. ring. Qed.

Lemma add_0_r a : number_eq (add a (Num 0)) a.
Proof. destruct a; simpl; [exact I|ring]. Qed.

Lemma lt_proper a a' b b' :
  number_eq a a' -> number_eq b b' -> lt a b = lt a' b'.
Proof.
  destruct a, a', b, b'; simpl; try tauto. intros Ha Hb.
  unfold Qltb. rewrite Ha, Hb. reflexivity.
Qed.

(** The running total of a loop is the start value plus the sum. *)
Lemma fold_left_add_sum {A} (f : A -> number) (l : list A) : forall a,
  number_eq (fold_left (fun total x => add total (f x)) l a)
            (add a (Spec.sum (map f l))).
Proof.
  induction l as [|x l IH]; intros a; simpl.
  - symmetry. apply add_0_r.
  - rewrite IH. apply add_assoc.
Qed.

Lemma fold_left_sum {A} (f : A -> number) (l : list A) :
  number_eq (fold_left (fun total x => add total (f x)) l (Num 0))
            (Spec.sum (map f l)).
Proof.
  rewrite fold_left_add_sum.
  destruct (Spec.sum (map f l)); simpl; [exact I|ring].
Qed.

Lemma orQ_nonneg (a : JobAddon.t) :
  Spec.nonneg_price a -> (0 <= orQ (JobAddon.price a) 0)%Q.
Proof.
  unfold Spec.nonneg_price, orQ. destruct (JobAddon.price a) as [q|].
  - intros H. destruct (Qeq_bool q 0); [apply Qle_refl|exact H].
  - intros _. apply Qle_refl.
Qed.

(** Non-negative job prices add up to a number that is not below the
    start value. *)
Lemma job_total_nonneg (jobs : list JobAddon.t) : forall a,
  Forall Spec.nonneg_price jobs ->
  exists j,
    fold_left (fun total addon => add total (Num (orQ (JobAddon.price addon) 0)))
              jobs (Num a) = Num j /\ (a <= j)%Q.
Proof.
  induction jobs as [|x jobs IH]; intros a H; simpl.
  - exists a. split; [reflexivity|apply Qle_refl].
  - apply Forall_cons in H as [Hx H].
    destruct (IH (a + orQ (JobAddon.price x) 0)%Q H) as (j & Hj & Hle).
    exists j. split; [exact Hj|]. pose proof (orQ_nonneg x Hx). lra.
Qed.

End Sums.




(** C10. The price-floor branch of [calculateQuote] is reachable with
    [salesUplift = 0] and a job-based addon priced below 0; it cannot be
    reached when the uplift and every job-based addon price are not
    negative. *)
Theorem price_floor_reachable :
  (exists lineItems jobBasedAddons,
     (exists a q, a ∈ jobBasedAddons /\ JobAddon.price a = Some q /\ (q < 0)%Q) /\
     calculateQuote lineItems jobBasedAddons 0 = Throw PriceFloorViolation) /\
  (forall lineItems jobBasedAddons salesUplift,
     (0 <= salesUplift)%Q ->
     Forall Spec.nonneg_price jobBasedAddons ->
     calculateQuote lineItems jobBasedAddons salesUplift <>
       Throw PriceFloorViolation).
Proof.
  split.
  - exists [], [JobAddon.mk (Some (-5)%Q)]. split.
    + exists (JobAddon.mk (Some (-5)%Q)), (-5)%Q.
      split; [left|]. split; [reflexivity|reflexivity].
    + vm_compute. reflexivity.
  - intros lineItems jobs uplift Hpos Hjobs. unfold calculateQuote.
    apply Qltb_ge in Hpos as Hpos'. rewrite Hpos'.
    destruct (job_total_nonneg jobs 0 Hjobs) as (j & -> & Hj).
    destruct (fold_left _ lineItems (Num 0)) as [|t]; simpl; [discriminate|].
    assert (Hge : Qltb (t + j + uplift) t = false) by (apply Qltb_ge; lra).
    rewrite Hge. discriminate.
Qed.

(** Job-based addons priced 75 and without a price, no uplift. *)
Lemma price_floor_reachable_witness :
  (0 <= 0)%Q /\
  Forall Spec.nonneg_price [JobAddon.mk (Some 75%Q); JobAddon.mk None] /\
  calculateQuote [] [JobAddon.mk (Some 75%Q); JobAddon.mk None] 0 <>
    Throw PriceFloorViolation.
Proof.
  assert (H0 : (0 <= 0)%Q) by (vm_compute; discriminate).
  assert (Hj : Forall Spec.nonneg_price [JobAddon.mk (Some 75%Q); JobAddon.mk None]).
  { repeat constructor. vm_compute. discriminate. }
  split; [exact H0|]. split; [exact Hj|].
  apply (proj2 price_floor_reachable [] _ 0%Q H0 Hj).
Defined.

(** ** [validateSize] and [validateUI] *)

Lemma elem_of_check (o : option Q) (violated : Q -> bool) (message : Q -> violation)
    (v : violation) :
  v ∈ check o violated message <->
  exists m, Spec.limit o m /\ violated m = true /\ v = message m.
Proof.
  unfold check, Spec.limit, truthyQ. destruct o as [m|].
  - destruct (Qeq_bool m 0) eqn:Hz; simpl.
    + apply Qeq_bool_iff in Hz. rewrite elem_of_nil. split; [tauto|].
      intros (m' & [Hm Hnz] & _). injection Hm as <-. tauto.
    + assert (Hnz : ~ (m == 0)%Q).
      { intros H. apply Qeq_bool_iff in H. congruence. }
      destruct (violated m) eqn:Hv.
      * rewrite list_elem_of_singleton. split.
        -- intros ->. exists m. auto.
        -- intros (m' & [Hm _] & _ & ->). injection Hm as <-. reflexivity.
      * rewrite elem_of_nil. split; [tauto|].
        intros (m' & [Hm _] & Hv' & _). injection Hm as <-. congruence.
  - rewrite elem_of_nil. split; [tauto|]. intros (m & [H _] & _). discriminate.
Qed.

Lemma is_empty_true (errors : list violation) :
  is_empty errors = true <-> errors = [].
Proof. destruct errors; simpl; split; congruence. Qed.

(** C9, as amended.  [validateSize] checks [width] and [height] against
    each of the four size limits that is present and not 0, a missing limit
    or a limit of 0 being unconstrained, and [validateUI] checks [ui]
    against [minimumUI] and [maximumUI] in the same way.  Each returns the
    list of all the violations, and [valid] is true exactly when that list
    is empty; without [sizeLimits], [validateSize] returns [valid = true]
    and no list. *)
Theorem validate_reports_all_violations
    (product : Product.t) (width height ui : Q) :
  match Product.sizeLimits product with
  | None => validateSize product width height = mk_validation true None
  | Some limits =>
      exists errs,
        validateSize product width height =
          mk_validation (is_empty errs) (Some errs) /\
        (forall v, v ∈ errs <-> Spec.size_violation limits width height v) /\
        (is_empty errs = true <-> errs = [])
  end /\
  exists errs,
    validateUI product ui = mk_validation (is_empty errs) (Some errs) /\
    (forall v, v ∈ errs <-> Spec.ui_violation product ui v) /\
    (is_empty errs = true <-> errs = []).
Proof.
  split.
  - unfold validateSize. destruct (Product.sizeLimits product) as [limits|];
      [|reflexivity].
    eexists. split; [reflexivity|]. split; [|apply is_empty_true].
    intros v. unfold Spec.size_violation.
    rewrite !elem_of_app, !elem_of_check.
    setoid_rewrite Qltb_lt. tauto.
  - unfold validateUI. eexists. split; [reflexivity|].
    split; [|apply is_empty_true].
    intros v. unfold Spec.ui_violation.
    rewrite !elem_of_app, !elem_of_check.
    setoid_rewrite Qltb_lt. tauto.
Qed.

(** C9 as it is stated fails on limits of 0.  The product has the maximum
    width 0 and the maximum UI 0: a width of 30 exceeds the first and a UI
    of 80 the second, and neither is reported. *)
Lemma validate_reports_all_violations_counterexample :
  (exists limits,
     Product.sizeLimits Sample.zero_limits = Some limits /\
     SizeLimits.maxWidth limits = Some 0%Q /\ (0 < 30)%Q /\
     validateSize Sample.zero_limits 30 50 = mk_validation true (Some [])) /\
  (Product.maximumUI Sample.zero_limits = Some 0%Q /\ (0 < 80)%Q /\
   validateUI Sample.zero_limits 80 = mk_validation false (Some [UIBelowMin 100])).
Proof.
  split.
  - eexists. split; [reflexivity|]. split; [reflexivity|].
    split; vm_compute; reflexivity.
  - split; [reflexivity|]. split; vm_compute; reflexivity.
Qed.

(** ** Allocation and reading of line items *)

Section Allocation.
Import Store StoreSpec.

Lemma keeps_refl (h h' : gmap loc object) : keeps h h' h'.
Proof. intros k o _ H. exact H. Qed.

Lemma keeps_narrow (h h1 h' h2 : gmap loc object) :
  h1 ⊆ h' -> keeps h h' h2 -> keeps h h1 h2.
Proof.
  intros Hsub Hk k o Hn H1. apply (Hk k o Hn).
  exact (lookup_weaken _ _ _ _ H1 Hsub).
Qed.

Lemma keeps_later (h h1 h' h2 : gmap loc object) :
  h ⊆ h1 -> keeps h h' h2 -> keeps h1 h' h2.
Proof.
  intros Hsub Hk k o Hn H'. apply (Hk k o); [|exact H'].
  destruct (h !! k) as [o'|] eqn:E; [|reflexivity].
  rewrite (lookup_weaken _ _ _ _ E Hsub) in Hn. discriminate.
Qed.

(** A new object lives at a location the store did not have. *)
Lemma alloc_spec (o : object) (h h' : gmap loc object) (l : loc) :
  alloc o h = (h', l) ->
  h !! l = None /\ h' = <[l := o]> h /\ h ⊆ h'.
Proof.
  unfold alloc. intros H. injection H as <- <-.
  assert (Hl : h !! fresh (dom h) = None).
  { apply not_elem_of_dom. apply is_fresh. }
  repeat split; [exact Hl|]. apply insert_subseteq. exact Hl.
Qed.

Lemma alloc_list_spec {A} alloc1 read1 :
  @allocates A alloc1 read1 ->
  forall xs h h' ls,
    alloc_list alloc1 xs h = (h', ls) ->
    h ⊆ h' /\
    forall h2, keeps h h' h2 -> mapM (read1 h2) ls = Some xs.
Proof.
  intros Ha. induction xs as [|x xs IH]; intros h h' ls H; simpl in H.
  - injection H as <- <-. split; [reflexivity|]. intros h2 _. reflexivity.
  - destruct (alloc1 x h) as [h1 l] eqn:H1.
    destruct (alloc_list alloc1 xs h1) as [h2' ls'] eqn:H2.
    injection H as <- <-.
    destruct (Ha _ _ _ _ H1) as (Hs1 & _ & Hr1).
    destruct (IH _ _ _ H2) as (Hs2 & Hr2).
    split; [etransitivity; eassumption|].
    intros h2 Hk. simpl.
    rewrite (Hr1 h2 (keeps_narrow _ _ _ _ Hs2 Hk)). simpl.
    rewrite (Hr2 h2 (keeps_later _ _ _ _ Hs1 Hk)). reflexivity.
Qed.

Lemma alloc_entry_allocates : allocates alloc_entry read_entry.
Proof.
  intros e h h' l H. unfold alloc_entry in H.
  apply alloc_spec in H as (Hl & -> & Hs). repeat split; try assumption.
  intros h2 Hk. unfold read_entry.
  rewrite (Hk l _ Hl (lookup_insert_eq _ _ _)). destruct e; reflexivity.
Qed.

Lemma alloc_item_allocates : allocates alloc_item read_item.
Proof.
  intros i h h' l H. unfold alloc_item in H.
  destruct (alloc_list alloc_entry (Snapshot.appliedAddons i) h) as [h1 es] eqn:H1.
  destruct (alloc (AddonArray es) h1) as [h2 a] eqn:H2.
  apply (alloc_list_spec _ _ alloc_entry_allocates) in H1 as (Hs1 & Hr1).
  apply alloc_spec in H2 as (Ha & -> & Hs2).
  apply alloc_spec in H as (Hl & -> & Hs3).
  assert (Hs : h ⊆ <[l := Item (Snapshot.ui i) (Snapshot.basePrice i)
                        (Snapshot.addonTotal i) (Snapshot.lineItemParTotal i) a]>
                     (<[a := AddonArray es]> h1)).
  { etransitivity; [exact Hs1|]. etransitivity; eassumption. }
  assert (Hl0 : h !! l = None).
  { destruct (h !! l) as [o|] eqn:E; [|reflexivity].
    rewrite (lookup_weaken _ _ _ _ E (transitivity Hs1 Hs2)) in Hl. discriminate. }
  assert (Ha0 : h !! a = None).
  { destruct (h !! a) as [o|] eqn:E; [|reflexivity].
    rewrite (lookup_weaken _ _ _ _ E Hs1) in Ha. discriminate. }
  split; [exact Hs|]. split; [exact Hl0|].
  intros h2 Hk. unfold read_item.
  rewrite (Hk l _ Hl0 (lookup_insert_eq _ _ _)).
  assert (Hla : l <> a).
  { intros ->. rewrite lookup_insert_eq in Hl. discriminate. }
  rewrite (Hk a (AddonArray es) Ha0).
  2:{ rewrite lookup_insert_ne by exact Hla. apply lookup_insert_eq. }
  rewrite (Hr1 h2).
  2:{ eapply keeps_narrow; [|exact Hk]. etransitivity; eassumption. }
  destruct i; reflexivity.
Qed.

Lemma alloc_items_spec (items : list Snapshot.item) (h h' : gmap loc object)
    (l : loc) :
  alloc_items items h = (h', l) ->
  h ⊆ h' /\ h !! l = None /\
  forall h2, keeps h h' h2 -> read h2 l = Some items.
Proof.
  unfold alloc_items. intros H.
  destruct (alloc_list alloc_item items h) as [h1 ls] eqn:H1.
  apply (alloc_list_spec _ _ alloc_item_allocates) in H1 as (Hs1 & Hr1).
  apply alloc_spec in H as (Hl & -> & Hs2).
  assert (Hl0 : h !! l = None).
  { destruct (h !! l) as [o|] eqn:E; [|reflexivity].
    rewrite (lookup_weaken _ _ _ _ E Hs1) in Hl. discriminate. }
  split; [etransitivity; eassumption|]. split; [exact Hl0|].
  intros h2 Hk. unfold read.
  rewrite (Hk l _ Hl0 (lookup_insert_eq _ _ _)).
  apply Hr1. eapply keeps_narrow; [exact Hs2|exact Hk].
Qed.

Lemma mapM_weaken {A B} (f g : A -> option B) (ls : list A) :
  (forall l y, f l = Some y -> g l = Some y) ->
  forall ys, mapM f ls = Some ys -> mapM g ls = Some ys.
Proof.
  intros Hfg. induction ls as [|l ls IH]; intros ys H; simpl in *; [exact H|].
  destruct (f l) as [y|] eqn:Hy; [|discriminate]. simpl in H.
  destruct (mapM f ls) as [ys'|]; [|discriminate].
  rewrite (Hfg _ _ Hy), (IH _ eq_refl). exact H.
Qed.

(** Reading through references only depends on the objects met. *)
Lemma read_entry_weaken (h h' : gmap loc object) (l : loc) e :
  h ⊆ h' -> read_entry h l = Some e -> read_entry h' l = Some e.
Proof.
  intros Hs. unfold read_entry.
  destruct (h !! l) as [o|] eqn:E; [|discriminate].
  rewrite (lookup_weaken _ _ _ _ E Hs). tauto.
Qed.

Lemma read_item_weaken (h h' : gmap loc object) (l : loc) i :
  h ⊆ h' -> read_item h l = Some i -> read_item h' l = Some i.
Proof.
  intros Hs. unfold read_item.
  destruct (h !! l) as [o|] eqn:E; [|discriminate].
  rewrite (lookup_weaken _ _ _ _ E Hs).
  destruct o as [|ui b t p a| |]; try discriminate.
  destruct (h !! a) as [o|] eqn:Ea; [|discriminate].
  rewrite (lookup_weaken _ _ _ _ Ea Hs).
  destruct o as [| |es|]; try discriminate.
  destruct (mapM (read_entry h) es) as [ys|] eqn:Hys; [|discriminate].
  rewrite (mapM_weaken _ (read_entry h') es
             (fun l y => read_entry_weaken h h' l y Hs) _ Hys).
  tauto.
Qed.

Lemma read_weaken (h h' : gmap loc object) (l : loc) items :
  h ⊆ h' -> read h l = Some items -> read h' l = Some items.
Proof.
  intros Hs. unfold read.
  destruct (h !! l) as [o|] eqn:E; [|discriminate].
  rewrite (lookup_weaken _ _ _ _ E Hs).
  destruct o as [ls| | |]; try discriminate.
  apply mapM_weaken. intros k y. apply read_item_weaken. exact Hs.
Qed.

Lemma json_number (p : prop) : is_number p -> json p = p.
Proof. destruct p as [| |[|q]]; simpl; tauto. Qed.

(** JSON keeps a line item whose prices are numbers as it is. *)
Lemma json_item_priced (i : Snapshot.item) : priced i -> json_item i = i.
Proof.
  destruct i as [ui b t p es]. unfold priced, json_item. simpl.
  intros (Hb & Ht & Hp & Hes).
  rewrite (json_number _ Hb), (json_number _ Ht), (json_number _ Hp).
  f_equal. induction Hes as [|e es He _ IH]; simpl; [reflexivity|].
  rewrite IH. f_equal. destruct e as [id name price hidden].
  unfold json_entry. simpl in *. rewrite (json_number _ He). reflexivity.
Qed.

Lemma json_items_priced (items : list Snapshot.item) :
  Forall priced items -> map json_item items = items.
Proof.
  induction 1 as [|i rest Hi _ IH]; simpl; [reflexivity|].
  rewrite IH, (json_item_priced i Hi). reflexivity.
Qed.

End Allocation.

(** ** [createQuoteVersion] *)

Section CreateQuoteVersion.
Import Store StoreSpec Snapshots.

Context {M : Type}.

(** A failure of [calculateQuote] is the failure of the call. *)
Lemma createQuoteVersion_throws (now : Z) (timestamp : string)
    (h : gmap loc object) (quoteId : string) (lineItems : loc)
    (salesUplift : Q) (metadata : M) items e :
  read h lineItems = Some items ->
  calculateQuote (map to_LineItem items) [] salesUplift = Throw e ->
  createQuoteVersion now timestamp h quoteId lineItems salesUplift metadata =
    Some (Throw e).
Proof.
  intros Hr Hq. unfold createQuoteVersion. rewrite Hr. simpl.
  rewrite Hq. reflexivity.
Qed.

Lemma createQuoteVersion_returns (now : Z) (timestamp : string)
    (h : gmap loc object) (quoteId : string) (lineItems : loc)
    (salesUplift : Q) (metadata : M) items q :
  read h lineItems = Some items ->
  calculateQuote (map to_LineItem items) [] salesUplift = Ok q ->
  createQuoteVersion now timestamp h quoteId lineItems salesUplift metadata =
    Some (Ok (fst (JSON_clone items h),
              QuoteVersion.mk M (quoteId +:+ "_v" +:+ pretty now) quoteId
                timestamp (snd (JSON_clone items h))
                (QuoteTotals.totalParPrice q) (QuoteTotals.salesUplift q)
                (QuoteTotals.finalPrice q) true metadata)).
Proof.
  intros Hr Hq. unfold createQuoteVersion. rewrite Hr. simpl.
  rewrite Hq. simpl. destruct (JSON_clone items h). reflexivity.
Qed.

End CreateQuoteVersion.




(** ** Strings: appending, trimming, splitting *)

#[local] Arguments String.append !_ _ / : simpl nomatch.

Section Strings.
Import JsString CsvSpec.

Lemma append_nil_r (s : string) : s +:+ "" = s.
Proof. induction s as [|c s IH]; simpl; [reflexivity|]. rewrite IH. reflexivity. Qed.

Lemma append_assoc (a b c : string) : (a +:+ b) +:+ c = a +:+ (b +:+ c).
Proof. induction a as [|d a IH]; simpl; [reflexivity|]. rewrite IH. reflexivity. Qed.

Lemma append_nonempty_r (a b : string) : b <> "" -> a +:+ b <> "".
Proof. destruct a; simpl; [tauto|discriminate]. Qed.

Lemma contains_append (c : ascii) (a b : string) :
  contains c (a +:+ b) = contains c a || contains c b.
Proof.
  induction a as [|d a IH]; simpl; [reflexivity|].
  rewrite IH, orb_assoc. reflexivity.
Qed.

(** [trimEnd] leaves a text alone when its end does. *)
Lemma trimEnd_append (a b : string) :
  b <> "" -> trimEnd b = b -> trimEnd (a +:+ b) = a +:+ b.
Proof.
  intros Hne Hb. induction a as [|d a IH]; simpl; [exact Hb|].
  rewrite IH. destruct (a +:+ b) eqn:E; [|reflexivity].
  destruct (append_nonempty_r a b Hne E).
Qed.

Lemma trimEnd_append_space (a : string) (c : ascii) :
  is_space c = true -> trimEnd (a +:+ String c "") = trimEnd a.
Proof.
  intros Hc. induction a as [|d a IH]; simpl.
  - rewrite Hc. reflexivity.
  - rewrite IH. reflexivity.
Qed.

Lemma trimEnd_last (c : ascii) : is_space c = false -> trimEnd (String c "") = String c "".
Proof. intros Hc. simpl. rewrite Hc. reflexivity. Qed.

(** A text between two characters that are not white space is trimmed. *)
Lemma trim_delimited (c d : ascii) (s : string) :
  is_space c = false -> is_space d = false ->
  trim (String c (s +:+ String d "")) = String c (s +:+ String d "").
Proof.
  intros Hc Hd. unfold trim. simpl trimStart. rewrite Hc.
  apply (trimEnd_append (String c s) (String d "")); [discriminate|].
  apply trimEnd_last. exact Hd.
Qed.

(** Splitting at a separator that the first piece does not contain. *)
Lemma split_piece (sep : ascii) (a : string) :
  contains sep a = false -> split sep a = [a].
Proof.
  induction a as [|c a IH]; simpl; [reflexivity|].
  intros H. apply orb_false_elim in H as [Hc Ha].
  rewrite Hc, (IH Ha). reflexivity.
Qed.

Lemma split_append (sep : ascii) (a b : string) :
  contains sep a = false ->
  split sep (a +:+ String sep b) = a :: split sep b.
Proof.
  induction a as [|c a IH]; simpl.
  - intros _. rewrite Ascii.eqb_refl. reflexivity.
  - intros H. apply orb_false_elim in H as [Hc Ha].
    rewrite Hc, (IH Ha). reflexivity.
Qed.

Lemma remove_absent (c : ascii) (s : string) :
  contains c s = false -> remove c s = s.
Proof.
  induction s as [|d s IH]; simpl; [reflexivity|].
  intros H. apply orb_false_elim in H as [Hd Hs].
  rewrite Hd, (IH Hs). reflexivity.
Qed.

(** The three parts of [safe_text]. *)
Lemma safe_text_spec (s : string) :
  safe_text s = true ->
  contains DQUOTE s = false /\ contains LF s = false /\ trim s = s.
Proof.
  unfold safe_text. intros H.
  apply andb_prop in H as [H Ht]. apply andb_prop in H as [Hq Hl].
  apply negb_true_iff in Hq, Hl. apply String.eqb_eq in Ht. auto.
Qed.

End Strings.

(** ** Lines of quoted fields *)

Section Rows.
Import JsString CsvSpec VersionUtils CsvText.
Context `{NumberFormat}.

Lemma row_row_text (fields : list string) :
  row fields = line (row_text fields).
Proof. reflexivity. Qed.

(** Inside quotes the loop appends every character but the quote. *)
Lemma parseCSVLine_loop_quoted (f rest : string) : forall values current,
  contains DQUOTE f = false ->
  parseCSVLine_loop (f +:+ rest) values current true =
    parseCSVLine_loop rest values (current +:+ f) true.
Proof.
  induction f as [|c f IH]; intros values current Hf; simpl.
  - rewrite append_nil_r. reflexivity.
  - simpl in Hf. apply orb_false_elim in Hf as [Hc Hf].
    rewrite Hc, andb_false_r. rewrite (IH _ _ Hf), append_assoc. reflexivity.
Qed.

Lemma parseCSVLine_loop_field (f rest : string) (values : list string) :
  contains DQUOTE f = false ->
  parseCSVLine_loop (quoted f +:+ rest) values "" false =
    parseCSVLine_loop rest values f false.
Proof.
  intros Hf. unfold quoted. simpl.
  rewrite append_assoc, (parseCSVLine_loop_quoted f _ _ _ Hf). simpl.
  reflexivity.
Qed.

Lemma parseCSVLine_loop_row (fields : list string) : forall f values,
  Forall (fun f => safe_text f = true) (f :: fields) ->
  parseCSVLine_loop (row_text (f :: fields)) values "" false =
    values ++ f :: fields.
Proof.
  induction fields as [|g fields IH]; intros f values Hs.
  - apply Forall_cons in Hs as [Hf _].
    apply safe_text_spec in Hf as (Hq & _ & Ht).
    unfold row_text. simpl join.
    rewrite <- (append_nil_r (quoted f)), (parseCSVLine_loop_field f "" values Hq).
    simpl. rewrite Ht. reflexivity.
  - apply Forall_cons in Hs as [Hf Hs].
    apply safe_text_spec in Hf as (Hq & _ & Ht).
    change (row_text (f :: g :: fields))
      with (quoted f +:+ "," +:+ row_text (g :: fields)).
    rewrite (parseCSVLine_loop_field f _ values Hq). simpl.
    rewrite Ht, (IH g _ Hs), <- app_assoc. reflexivity.
Qed.

(** [parseCSVLine] returns the fields of a row of safe fields. *)
Lemma parseCSVLine_row (fields : list string) :
  fields <> [] ->
  Forall (fun f => safe_text f = true) fields ->
  parseCSVLine (row_text fields) = fields.
Proof.
  intros Hne Hs. destruct fields as [|f fields]; [congruence|].
  unfold parseCSVLine. rewrite (parseCSVLine_loop_row fields f [] Hs). simpl app.
  clear Hne. induction Hs as [|g gs Hg _ IH]; simpl; [reflexivity|].
  apply safe_text_spec in Hg as (Hq & _). rewrite (remove_absent _ _ Hq), IH.
  reflexivity.
Qed.

End Rows.

(** ** The lines of the exported text *)

Section Lines.
Import JsString CsvSpec VersionUtils CsvText.
Context `{NumberFormat}.

Lemma unlines_app (a b : list string) : unlines (a ++ b) = unlines a +:+ unlines b.
Proof.
  induction a as [|l a IH]; simpl; [reflexivity|].
  rewrite IH, append_assoc. reflexivity.
Qed.

Lemma rows_unlines {A} (fields : A -> list string) (l : list A) : forall csv,
  rows fields l csv = csv +:+ unlines (map (fun x => row_text (fields x)) l).
Proof.
  unfold rows. induction l as [|x l IH]; intros csv; simpl.
  - rewrite append_nil_r. reflexivity.
  - rewrite IH, row_row_text, append_assoc. reflexivity.
Qed.

Lemma unlines_join (l : string) (ls : list string) :
  unlines (l :: ls) = join LFs (l :: ls) +:+ LFs.
Proof.
  revert l. induction ls as [|l' ls IH]; intros l.
  - simpl. rewrite append_nil_r. reflexivity.
  - change (unlines (l :: l' :: ls)) with (line l +:+ unlines (l' :: ls)).
    rewrite IH. change (join LFs (l :: l' :: ls))
      with (l +:+ LFs +:+ join LFs (l' :: ls)).
    unfold line. rewrite !append_assoc. reflexivity.
Qed.

Lemma join_stable (sep l : string) (ls : list string) :
  stable (List.last (l :: ls) "") -> stable (join sep (l :: ls)).
Proof.
  revert l. induction ls as [|l' ls IH]; intros l Hl.
  - exact Hl.
  - change (join sep (l :: l' :: ls)) with (l +:+ sep +:+ join sep (l' :: ls)).
    destruct (IH l' Hl) as [Hne Hst]. split.
    + apply append_nonempty_r, append_nonempty_r. exact Hne.
    + rewrite <- append_assoc. apply trimEnd_append; assumption.
Qed.

Lemma split_join (l : string) (ls : list string) :
  Forall (fun l => contains LF l = false) (l :: ls) ->
  split LF (join LFs (l :: ls)) = l :: ls.
Proof.
  revert l. induction ls as [|l' ls IH]; intros l Hl.
  - apply Forall_cons in Hl as [Hl _]. simpl. apply split_piece. exact Hl.
  - apply Forall_cons in Hl as [Hl Hls].
    change (join LFs (l :: l' :: ls)) with (l +:+ String LF (join LFs (l' :: ls))).
    rewrite (split_append LF l _ Hl), (IH l' Hls). reflexivity.
Qed.

(** The lines [importFromCSV] gets from a text written line by line. *)
Lemma split_trim_unlines (l : string) (ls : list string) :
  trimStart l = l -> l <> "" ->
  stable (List.last (l :: ls) "") ->
  Forall (fun l => contains LF l = false) (l :: ls) ->
  split LF (trim (unlines (l :: ls))) = l :: ls.
Proof.
  intros Hstart Hne Hlast Hlf. unfold trim.
  assert (Hs : trimStart (unlines (l :: ls)) = unlines (l :: ls)).
  { simpl. unfold line. destruct l as [|c l]; [congruence|].
    simpl in *. destruct (is_space c); [|reflexivity].
    exfalso. clear -Hstart.
    assert (Hlen : forall s, String.length (trimStart s) <= String.length s).
    { induction s as [|d s IH]; simpl; [lia|].
      destruct (is_space d); simpl; lia. }
    specialize (Hlen l). rewrite Hstart in Hlen. simpl in Hlen. lia. }
  rewrite Hs, unlines_join.
  rewrite (trimEnd_append_space _ LF eq_refl).
  destruct (join_stable LFs l ls Hlast) as [_ ->].
  apply split_join. exact Hlf.
Qed.

(** A row starts and ends with a double quote. *)
Lemma row_text_shape (f : string) (fields : list string) :
  exists middle,
    row_text (f :: fields) = String DQUOTE (middle +:+ String DQUOTE "").
Proof.
  revert f. induction fields as [|g fields IH]; intros f.
  - exists f. reflexivity.
  - destruct (IH g) as [middle Hm].
    exists (f +:+ String DQUOTE "" +:+ "," +:+ String DQUOTE middle).
    change (row_text (f :: g :: fields))
      with (quoted f +:+ "," +:+ row_text (g :: fields)).
    rewrite Hm. unfold quoted. simpl. rewrite !append_assoc. reflexivity.
Qed.

Lemma row_text_trim (f : string) (fields : list string) :
  trim (row_text (f :: fields)) = row_text (f :: fields).
Proof.
  destruct (row_text_shape f fields) as [middle ->].
  apply trim_delimited; reflexivity.
Qed.

Lemma row_text_stable (f : string) (fields : list string) :
  stable (row_text (f :: fields)).
Proof.
  destruct (row_text_shape f fields) as [middle ->]. split; [discriminate|].
  apply (trimEnd_append (String DQUOTE middle) (String DQUOTE ""));
    [discriminate|reflexivity].
Qed.

Lemma row_text_no_LF (fields : list string) :
  Forall (fun f => safe_text f = true) fields ->
  contains LF (row_text fields) = false.
Proof.
  unfold row_text. induction 1 as [|f fields Hf Hfs IH]; [reflexivity|].
  apply safe_text_spec in Hf as (_ & Hlf & _).
  assert (Hq : contains LF (quoted f) = false).
  { unfold quoted. simpl. rewrite contains_append, Hlf. reflexivity. }
  destruct fields as [|g fields]; [exact Hq|].
  change (join "," (map quoted (f :: g :: fields)))
    with (quoted f +:+ "," +:+ join "," (map quoted (g :: fields))).
  rewrite !contains_append, Hq, IH. reflexivity.
Qed.

End Lines.

(** ** The import loop on the exported lines *)

Section ImportLoop.
Import JsString CsvSpec VersionUtils CsvText.
Context `{NumberFormat}.

Lemma unlines_cons (l : string) (ls : list string) :
  unlines (l :: ls) = line l +:+ unlines ls.
Proof. reflexivity. Qed.

Lemma append_nil_l (s : string) : "" +:+ s = s.
Proof. reflexivity. Qed.

Lemma exportAsCSV_lines (version : CatalogData.t) :
  exportAsCSV version = unlines (export_lines version).
Proof.
  unfold exportAsCSV, export_lines. rewrite !rows_unlines.
  rewrite ?unlines_cons, ?unlines_app, ?unlines_cons, ?unlines_app,
    ?unlines_cons, ?unlines_app, ?unlines_cons.
  rewrite !append_assoc, !append_nil_l. reflexivity.
Qed.

Lemma import_lines_cons (l : string) (rest : list string) sec data :
  import_lines (l :: rest) sec data =
    let line := trim l in
    let skipped := match rest with [] => rest | _ :: rest' => rest' end in
    if String.eqb line "MANUFACTURERS" then
      import_lines skipped (Some manufacturers) data
    else if String.eqb line "PRODUCT LINES" then
      import_lines skipped (Some productLines) data
    else if String.eqb line "PRODUCTS" then
      import_lines skipped (Some products) data
    else if String.eqb line "ADDONS" then
      import_lines skipped (Some addons) data
    else if String.eqb line "" then
      import_lines rest sec data
    else
      data' ← store_line sec (parseCSVLine line) data;
      import_lines rest sec data'.
Proof. reflexivity. Qed.

Lemma import_lines_blank (rest : list string) sec data :
  import_lines ("" :: rest) sec data = import_lines rest sec data.
Proof. reflexivity. Qed.

Lemma import_lines_section (name titles : string) (rest : list string) sec sec' data :
  (name = "MANUFACTURERS" /\ sec' = manufacturers) \/
  (name = "PRODUCT LINES" /\ sec' = productLines) \/
  (name = "PRODUCTS" /\ sec' = products) \/
  (name = "ADDONS" /\ sec' = addons) ->
  import_lines (name :: titles :: rest) sec data =
    import_lines rest (Some sec') data.
Proof.
  intros [[-> ->]|[[-> ->]|[[-> ->]|[-> ->]]]]; reflexivity.
Qed.

(** A row of safe fields is handed to [store_line] field by field. *)
Lemma import_lines_row (f : string) (fields rest : list string) sec data :
  Forall (fun f => safe_text f = true) (f :: fields) ->
  import_lines (row_text (f :: fields) :: rest) sec data =
    data' ← store_line sec (f :: fields) data;
    import_lines rest sec data'.
Proof.
  intros Hs. rewrite import_lines_cons. cbv zeta.
  rewrite row_text_trim, (parseCSVLine_row (f :: fields)) by (congruence || exact Hs).
  destruct (row_text_shape f fields) as [middle ->]. reflexivity.
Qed.

(** The rows of a section, when every row is stored. *)
Lemma import_lines_rows {A} (fields : A -> list string)
    (ins : A -> CatalogData.t -> CatalogData.t) sec (es : list A) :
  Forall (fun e =>
            fields e <> [] /\
            Forall (fun f => safe_text f = true) (fields e) /\
            forall data, store_line sec (fields e) data = Ok (ins e data)) es ->
  forall rest data,
    import_lines (map (fun e => row_text (fields e)) es ++ rest) sec data =
      import_lines rest sec (fold_left (fun data e => ins e data) es data).
Proof.
  induction 1 as [|e es (Hne & Hs & Hstore) _ IH]; intros rest data;
    cbn [map app fold_left].
  - reflexivity.
  - destruct (fields e) as [|f fs] eqn:Hf; [congruence|].
    rewrite (import_lines_row f fs _ sec data Hs), Hstore.
    apply IH.
Qed.

End ImportLoop.

(** ** The fields of a row, read back *)

Section Fields.
Import JsString CsvSpec VersionUtils CsvText.
Context `{NumberFormat}.

Lemma trimStart_length (s : string) :
  (String.length (trimStart s) <= String.length s)%nat.
Proof.
  induction s as [|c s IH]; simpl; [lia|]. destruct (is_space c); simpl; lia.
Qed.

Lemma trimEnd_length (s : string) :
  (String.length (trimEnd s) <= String.length s)%nat.
Proof.
  induction s as [|c s IH]; simpl; [lia|].
  destruct (trimEnd s); [destruct (is_space c)|]; simpl in *; lia.
Qed.

(** A trimmed text has no white space at its start nor at its end. *)
Lemma trim_fixed (s : string) : trim s = s -> trimStart s = s /\ trimEnd s = s.
Proof.
  unfold trim. intros Ht.
  assert (Hs : trimStart s = s).
  { pose proof (trimEnd_length (trimStart s)) as H1. rewrite Ht in H1.
    destruct s as [|c s]; [reflexivity|]. simpl in *.
    destruct (is_space c); [|reflexivity].
    pose proof (trimStart_length s). lia. }
  split; [exact Hs|]. rewrite Hs in Ht. exact Ht.
Qed.

Lemma trimStart_append (a b : string) :
  a <> "" -> trimStart a = a -> trimStart (a +:+ b) = a +:+ b.
Proof.
  destruct a as [|c a]; [congruence|]. intros _. simpl.
  destruct (is_space c); [|reflexivity].
  intros Ha. pose proof (trimStart_length a) as Hl. rewrite Ha in Hl.
  simpl in Hl. lia.
Qed.

Lemma safe_element_spec (s : string) :
  safe_element s = true ->
  safe_text s = true /\ s <> "" /\ contains SEMICOLON s = false.
Proof.
  unfold safe_element, nonempty. intros Hs.
  apply andb_prop in Hs as [Hs Hsc]. apply andb_prop in Hs as [Hs Hne].
  apply negb_true_iff in Hsc, Hne. apply String.eqb_neq in Hne. auto.
Qed.

(** The pieces of a joined list: the first element, then every other one
    after a space. *)
Lemma split_joined (x : string) (l : list string) :
  Forall (fun s => safe_element s = true) (x :: l) ->
  split SEMICOLON (join "; " (x :: l)) = x :: map (String " ") l.
Proof.
  revert x. induction l as [|y l IH]; intros x Hs.
  - apply Forall_cons in Hs as [Hx _].
    apply safe_element_spec in Hx as (_ & _ & Hx). simpl. apply split_piece, Hx.
  - apply Forall_cons in Hs as [Hx Hs].
    apply safe_element_spec in Hx as (_ & _ & Hx).
    change (join "; " (x :: y :: l))
      with (x +:+ String SEMICOLON (String " " (join "; " (y :: l)))).
    rewrite (split_append SEMICOLON x _ Hx).
    change (split SEMICOLON (String " " (join "; " (y :: l))))
      with (match split SEMICOLON (join "; " (y :: l)) with
            | z :: zs => String " " z :: zs
            | [] => [String " " ""]
            end).
    rewrite (IH y Hs). reflexivity.
Qed.

Lemma split_list_joined (x : string) (l : list string) :
  Forall (fun s => safe_element s = true) (x :: l) ->
  split_list (join "; " (x :: l)) = x :: l.
Proof.
  intros Hs. unfold split_list. rewrite (split_joined x l Hs).
  apply Forall_cons in Hs as [Hx Hs]. cbn [map List.filter].
  apply safe_element_spec in Hx as (Hx & Hne & _).
  apply safe_text_spec in Hx as (_ & _ & Hx). rewrite Hx.
  assert (Hn : nonempty x = true).
  { unfold nonempty. apply negb_true_iff, String.eqb_neq, Hne. }
  rewrite Hn. f_equal.
  induction Hs as [|y l Hy _ IH]; cbn [map List.filter]; [reflexivity|].
  apply safe_element_spec in Hy as (Hy & Hyne & _).
  apply safe_text_spec in Hy as (_ & _ & Hy).
  change (trim (String " " y)) with (trim y). rewrite Hy.
  assert (Hny : nonempty y = true).
  { unfold nonempty. apply negb_true_iff, String.eqb_neq, Hyne. }
  rewrite Hny, IH. reflexivity.
Qed.

Lemma joined_safe (x : string) (l : list string) :
  Forall (fun s => safe_element s = true) (x :: l) ->
  safe_text (join "; " (x :: l)) = true /\ nonempty (join "; " (x :: l)) = true.
Proof.
  intros Hs.
  assert (Hc : forall c, c = DQUOTE \/ c = LF ->
            contains c (join "; " (x :: l)) = false).
  { intros c Hcq. revert x Hs. induction l as [|y l IH]; intros x Hs.
    - apply Forall_cons in Hs as [Hx _].
      apply safe_element_spec in Hx as (Hx & _).
      apply safe_text_spec in Hx as (Hq & Hl & _).
      destruct Hcq as [->| ->]; assumption.
    - apply Forall_cons in Hs as [Hx Hs].
      apply safe_element_spec in Hx as (Hx & _).
      apply safe_text_spec in Hx as (Hq & Hl & _).
      change (join "; " (x :: y :: l)) with (x +:+ "; " +:+ join "; " (y :: l)).
      rewrite !contains_append, (IH y Hs).
      destruct Hcq as [->| ->]; [rewrite Hq|rewrite Hl]; reflexivity. }
  assert (Hfirst : trimStart x = x /\ x <> "").
  { apply Forall_cons in Hs as [Hx _].
    apply safe_element_spec in Hx as (Hx & Hne & _).
    apply safe_text_spec in Hx as (_ & _ & Hx). apply trim_fixed in Hx. tauto. }
  assert (Hlast : stable (List.last (x :: l) "")).
  { assert (Hin : In (List.last (x :: l) "") (x :: l)).
    { clear. revert x. induction l as [|y l IH]; intros x; [left; reflexivity|].
      right. apply (IH y). }
    apply list_elem_of_In in Hin.
    rewrite Forall_forall in Hs. specialize (Hs _ Hin).
    apply safe_element_spec in Hs as (Hx & Hne & _).
    apply safe_text_spec in Hx as (_ & _ & Hx). apply trim_fixed in Hx.
    split; tauto. }
  destruct (join_stable "; " x l Hlast) as [Hne Hend].
  assert (Hstart : trimStart (join "; " (x :: l)) = join "; " (x :: l)).
  { destruct l as [|y l]; [tauto|].
    change (join "; " (x :: y :: l)) with (x +:+ "; " +:+ join "; " (y :: l)).
    apply trimStart_append; tauto. }
  split.
  - unfold safe_text. rewrite (Hc DQUOTE), (Hc LF) by tauto. cbn [negb andb].
    apply String.eqb_eq. unfold trim. rewrite Hstart. exact Hend.
  - unfold nonempty. apply negb_true_iff, String.eqb_neq. exact Hne.
Qed.

(** A list-valued field: the text is safe, and the list is read back,
    an empty list as no list. *)
Lemma list_field (o : option (list string)) :
  safe_list o = true ->
  safe_text (join "; " (default [] o)) = true /\
  if_present (Some (join "; " (default [] o))) (fun v => Some (split_list v)) =
    PricingEngine.restricts o.
Proof.
  unfold safe_list. intros Hs.
  destruct o as [[|x l]|]; simpl default in *; try (split; reflexivity).
  assert (Hall : Forall (fun s => safe_element s = true) (x :: l)).
  { apply Forall_forall. intros s Hin. rewrite forallb_forall in Hs.
    apply Hs, list_elem_of_In, Hin. }
  destruct (joined_safe x l Hall) as [Hsafe Hne]. split; [exact Hsafe|].
  unfold if_present. rewrite Hne, (split_list_joined x l Hall). reflexivity.
Qed.

(** A number written when it is truthy and read back by [parse]. *)
Lemma number_field_safe (o : option Q) :
  prints o -> safe_text (number_or_empty o) = true.
Proof.
  unfold prints, number_or_empty. destruct (truthyQ o); [|reflexivity].
  intros Hp. apply Hp. reflexivity.
Qed.

Lemma number_field (parse : string -> option Q) (o : option Q) :
  prints o -> reads parse o ->
  if_present (Some (number_or_empty o)) parse = truthy_number o.
Proof.
  unfold prints, reads, number_or_empty, truthy_number, if_present.
  destruct (truthyQ o); [|reflexivity].
  intros Hp Hr. destruct (Hp eq_refl) as [_ ->]. apply Hr. reflexivity.
Qed.

Lemma selected_number_field (parse : string -> option Q) (P : Prop)
    `{Decision P} (o : option Q) :
  prints o -> (P -> reads parse o) ->
  (if bool_decide P then if_present (Some (number_or_empty o)) parse else None) =
  (if bool_decide P then truthy_number o else None).
Proof.
  intros Hp Hr. destruct (bool_decide P) eqn:E; [|reflexivity].
  apply bool_decide_eq_true in E. apply number_field; auto.
Qed.

Lemma group_field (o : option string) :
  if_present (Some (string_or_empty o)) Some = truthy_string o.
Proof.
  unfold string_or_empty, truthy_string, if_present.
  destruct (truthyS o) eqn:E; [|reflexivity].
  destruct o as [s|]; [|discriminate]. simpl in *. unfold nonempty.
  rewrite E. reflexivity.
Qed.

Lemma yes_no_field (b : bool) : is_yes (Some (yes_no b)) = Ok b.
Proof. destruct b; reflexivity. Qed.

Lemma model_field (o : option string) (model : string) :
  model <> "undefined" ->
  String.eqb (template o) model = bool_decide (o = Some model).
Proof.
  intros Hm. destruct o as [s|].
  - change (template (Some s)) with s.
    destruct (String.eqb_spec s model) as [->|Hne].
    + symmetry. apply bool_decide_eq_true. reflexivity.
    + symmetry. apply bool_decide_eq_false. congruence.
  - change (template None) with "undefined".
    destruct (String.eqb_spec "undefined" model) as [<-|Hne]; [congruence|].
    symmetry. apply bool_decide_eq_false. discriminate.
Qed.

End Fields.

(** ** Storing the rows of a section *)

Section Sections.
Import JsString CsvSpec VersionUtils CsvText.
Context `{NumberFormat}.

Lemma store_manufacturer (m : Manufacturer.t) (d : CatalogData.t) :
  store_line (Some manufacturers) (manufacturer_fields m) d =
    Ok (ins_manufacturer m d).
Proof. destruct m. reflexivity. Qed.

Lemma store_productLine (pl : ProductLine.t) (d : CatalogData.t) :
  store_line (Some productLines) (productLine_fields pl) d =
    Ok (ins_productLine pl d).
Proof. destruct pl. reflexivity. Qed.

Lemma parse_product_row (a b c d e f g h i j : string) :
  parse_product [a; b; c; d; e; f; g; h; i; j] =
    Some (Product.mk a (Some b) None (Some c) None (Some d) e (Some f)
            (if bool_decide (Some f = Some "UI")
             then if_present (Some g) parseFloat else None)
            (if bool_decide (Some f = Some "FLAT")
             then if_present (Some h) parseFloat else None)
            (Some (orQ (parseInt i) 0))
            (if_present (Some j) parseInt) None None).
Proof. reflexivity. Qed.

Lemma model_decide (o : option string) (model : string) :
  model <> "undefined" ->
  bool_decide (Some (template o) = Some model) = bool_decide (o = Some model).
Proof.
  intros Hm. rewrite <- (model_field o model Hm).
  destruct (String.eqb_spec (template o) model) as [->|Hne].
  - apply bool_decide_eq_true. reflexivity.
  - apply bool_decide_eq_false. congruence.
Qed.

Lemma present_template (o : option string) :
  safe_present o -> Some (template o) = o /\ safe_text (template o) = true.
Proof. intros (s & -> & Hs). split; [reflexivity|exact Hs]. Qed.

Lemma parse_product_fields (p : Product.t) :
  safe_product p ->
  parse_product (product_fields p) = Some (exported_product p).
Proof.
  intros (_ & Hl & Ht & Hc & _ & Hmo & Hpu & Hpf & Hpm & _ & Hru & Hrf & Hrm & Hmin).
  unfold product_fields. cbv zeta. rewrite parse_product_row.
  unfold exported_product.
  rewrite !model_decide by discriminate.
  rewrite (proj1 (present_template _ Hl)), (proj1 (present_template _ Ht)),
    (proj1 (present_template _ Hc)), (proj1 (present_template _ Hmo)).
  rewrite Hmin, (number_field parseInt _ Hpm Hrm).
  rewrite (selected_number_field parseFloat _ _ Hpu Hru),
    (selected_number_field parseFloat _ _ Hpf Hrf).
  reflexivity.
Qed.

Lemma store_product (p : Product.t) (d : CatalogData.t) :
  safe_product p ->
  store_line (Some products) (product_fields p) d = Ok (ins_product p d).
Proof.
  intros Hp. unfold store_line. rewrite (parse_product_fields p Hp).
  reflexivity.
Qed.

Lemma parse_addon_row (a b c d e f g h i j k l m : string) :
  parse_addon [a; b; c; d; e; f; g; h; i; j; k; l; m] =
    Some (mandatory ← is_yes (Some g);
          hiddenFromCustomer ← is_yes (Some h);
          isJobBased ← is_yes (Some i);
          Ok (Addon.mk a b (Some c)
                (if String.eqb c "UI"
                 then if_present (Some d) parseFloat else None)
                (if String.eqb c "FLAT"
                 then if_present (Some e) parseFloat else None)
                (if_present (Some f) Some)
                mandatory hiddenFromCustomer isJobBased
                (if_present (Some j) (fun v => Some (split_list v)))
                (if_present (Some k) (fun v => Some (split_list v)))
                (if_present (Some l) parseFloat)
                (if_present (Some m) parseFloat))).
Proof. reflexivity. Qed.

Lemma parse_addon_fields (a : Addon.t) :
  safe_addon a ->
  parse_addon (addon_fields a) = Some (Ok (exported_addon a)).
Proof.
  intros (_ & _ & Hmo & _ & Hlt & Hll & Hpu & Hpf & Hpmin & Hpmax &
          Hru & Hrf & Hrmin & Hrmax).
  unfold addon_fields. cbv zeta. rewrite parse_addon_row.
  rewrite !yes_no_field. cbn [mbind result_bind].
  unfold exported_addon.
  rewrite !model_field by discriminate.
  rewrite (proj1 (present_template _ Hmo)).
  rewrite group_field.
  rewrite (proj2 (list_field _ Hlt)), (proj2 (list_field _ Hll)).
  rewrite (number_field parseFloat _ Hpmin Hrmin),
    (number_field parseFloat _ Hpmax Hrmax).
  rewrite (selected_number_field parseFloat _ _ Hpu Hru),
    (selected_number_field parseFloat _ _ Hpf Hrf).
  reflexivity.
Qed.

Lemma store_addon (a : Addon.t) (d : CatalogData.t) :
  safe_addon a ->
  store_line (Some addons) (addon_fields a) d = Ok (ins_addon a d).
Proof.
  intros Ha. unfold store_line. rewrite (parse_addon_fields a Ha).
  reflexivity.
Qed.

(** The fields of a safe entity are safe texts. *)
Lemma manufacturer_fields_safe (m : Manufacturer.t) :
  safe_manufacturer m ->
  Forall (fun f => safe_text f = true) (manufacturer_fields m).
Proof. intros (H1 & H2). repeat constructor; assumption. Qed.

Lemma productLine_fields_safe (pl : ProductLine.t) :
  safe_productLine pl ->
  Forall (fun f => safe_text f = true) (productLine_fields pl).
Proof. intros (H1 & H2 & H3). repeat constructor; assumption. Qed.

Lemma product_fields_safe (p : Product.t) :
  safe_product p ->
  Forall (fun f => safe_text f = true) (product_fields p).
Proof.
  intros (H1 & H2 & H3 & H4 & H5 & H6 & Hpu & Hpf & Hpm & Hmin & _).
  unfold product_fields. cbv zeta.
  repeat constructor; try assumption;
    try (apply present_template; assumption);
    apply number_field_safe; assumption.
Qed.

Lemma yes_no_safe (b : bool) : safe_text (yes_no b) = true.
Proof. destruct b; reflexivity. Qed.

Lemma addon_fields_safe (a : Addon.t) :
  safe_addon a ->
  Forall (fun f => safe_text f = true) (addon_fields a).
Proof.
  intros (H1 & H2 & H3 & H4 & Hlt & Hll & Hpu & Hpf & Hpmin & Hpmax & _).
  unfold addon_fields. cbv zeta.
  repeat constructor; try assumption;
    try (apply present_template; assumption);
    try apply yes_no_safe;
    try (apply number_field_safe; assumption);
    try (apply list_field; assumption).
Qed.

End Sections.

(** ** Dictionaries filled entry by entry *)

Section Inserts.
Import VersionUtils.
Context {V W : Type} (key : V -> string) (f : V -> W).

Lemma fold_left_inserts (l : list (string * V)) : forall init : gmap string W,
  NoDup l.*1 ->
  (forall k v, (k, v) ∈ l -> key v = k) ->
  fold_left (fun acc v => <[key v := f v]> acc) l.*2 init =
    (f <$> (list_to_map l : gmap string V)) ∪ init.
Proof.
  induction l as [|[k v] l IH]; intros init Hnd Hkey.
  - simpl. rewrite fmap_empty, (left_id_L ∅ (∪)). reflexivity.
  - cbn [fmap list_fmap fst snd fold_left] in *.
    apply NoDup_cons in Hnd as [Hk Hnd].
    rewrite (Hkey k v) by left.
    rewrite IH; [|exact Hnd|intros k' v' Hin; apply Hkey; right; exact Hin].
    cbn [list_to_map foldr curry]. rewrite fmap_insert.
    rewrite <- insert_union_l. cbn [fst snd]. symmetry. apply insert_union_r.
    rewrite lookup_fmap.
    rewrite (not_elem_of_list_to_map_1 (M:=gmap string) _ _ Hk). reflexivity.
Qed.

Lemma fold_left_values (m : gmap string V) :
  (forall k v, m !! k = Some v -> key v = k) ->
  fold_left (fun acc v => <[key v := f v]> acc) (Object_values m) ∅ = f <$> m.
Proof.
  intros Hkey. unfold Object_values.
  rewrite fold_left_inserts.
  - rewrite list_to_map_to_list, (right_id_L ∅ (∪)). reflexivity.
  - apply NoDup_fst_map_to_list.
  - intros k v Hin. apply Hkey, elem_of_map_to_list, Hin.
Qed.

Lemma elem_of_Object_values (m : gmap string V) (v : V) :
  v ∈ Object_values m -> exists k, m !! k = Some v.
Proof.
  unfold Object_values. intros Hin.
  apply list_elem_of_fmap in Hin as ([k v'] & -> & Hin).
  exists k. apply elem_of_map_to_list. exact Hin.
Qed.

End Inserts.

Section RoundTrip.
Import JsString CsvSpec VersionUtils CsvText.
Context `{NumberFormat}.

Lemma fold_ins_manufacturer (es : list Manufacturer.t) : forall d,
  fold_left (fun d m => ins_manufacturer m d) es d =
    CatalogData.mk
      (fold_left (fun acc m => <[Manufacturer.id m := m]> acc) es
         (CatalogData.manufacturers d))
      (CatalogData.productLines d) (CatalogData.products d)
      (CatalogData.addons d).
Proof.
  induction es as [|e es IH]; intros d; simpl; [destruct d; reflexivity|].
  rewrite IH. reflexivity.
Qed.

Lemma fold_ins_productLine (es : list ProductLine.t) : forall d,
  fold_left (fun d pl => ins_productLine pl d) es d =
    CatalogData.mk (CatalogData.manufacturers d)
      (fold_left (fun acc pl => <[ProductLine.id pl := pl]> acc) es
         (CatalogData.productLines d))
      (CatalogData.products d) (CatalogData.addons d).
Proof.
  induction es as [|e es IH]; intros d; simpl; [destruct d; reflexivity|].
  rewrite IH. reflexivity.
Qed.

Lemma fold_ins_product (es : list Product.t) : forall d,
  fold_left (fun d p => ins_product p d) es d =
    CatalogData.mk (CatalogData.manufacturers d) (CatalogData.productLines d)
      (fold_left (fun acc p => <[Product.id p := exported_product p]> acc) es
         (CatalogData.products d))
      (CatalogData.addons d).
Proof.
  induction es as [|e es IH]; intros d; simpl; [destruct d; reflexivity|].
  rewrite IH. reflexivity.
Qed.

Lemma fold_ins_addon (es : list Addon.t) : forall d,
  fold_left (fun d a => ins_addon a d) es d =
    CatalogData.mk (CatalogData.manufacturers d) (CatalogData.productLines d)
      (CatalogData.products d)
      (fold_left (fun acc a => <[Addon.id a := exported_addon a]> acc) es
         (CatalogData.addons d)).
Proof.
  induction es as [|e es IH]; intros d; simpl; [destruct d; reflexivity|].
  rewrite IH. reflexivity.
Qed.

(** Every value of a dictionary of safe entities is safe. *)
Lemma keyed_values {V} (id : V -> string) (safe : V -> Prop) (m : gmap string V) :
  keyed id safe m -> Forall safe (Object_values m).
Proof.
  intros Hk. apply Forall_forall. intros v Hin.
  apply elem_of_Object_values in Hin as [k Hv]. apply (Hk k v Hv).
Qed.

Lemma last_rows {A} (g : A -> string) (x : string) (es : list A) :
  stable x -> (forall e, stable (g e)) ->
  stable (List.last (x :: map g es) "").
Proof.
  intros Hx Hg. revert x Hx. induction es as [|e es IH]; intros x Hx.
  - exact Hx.
  - apply (IH (g e)), Hg.
Qed.

Lemma last_app_cons {A} (a b : list A) (x d : A) :
  List.last (a ++ x :: b) d = List.last (x :: b) d.
Proof.
  induction a as [|y a IH]; [reflexivity|].
  cbn [app]. rewrite <- IH. destruct (a ++ x :: b) eqn:E; [|reflexivity].
  destruct a; discriminate.
Qed.

Lemma last_cons_cons {A} (x y d : A) (l : list A) :
  List.last (x :: y :: l) d = List.last (y :: l) d.
Proof. reflexivity. Qed.

Lemma last_cons_app {A} (a b : list A) (x z d : A) :
  List.last (x :: a ++ z :: b) d = List.last (z :: b) d.
Proof. apply (last_app_cons (x :: a)). Qed.

Lemma rows_no_LF {A} (fields : A -> list string) (safe : A -> Prop) (es : list A) :
  (forall e, safe e -> Forall (fun f => safe_text f = true) (fields e)) ->
  Forall safe es ->
  Forall (fun l => contains LF l = false)
         (map (fun e => row_text (fields e)) es).
Proof.
  intros Hf Hs. apply Forall_map. eapply Forall_impl; [exact Hs|].
  intros e He. apply row_text_no_LF, Hf, He.
Qed.

End RoundTrip.


Lemma keyed_singleton {V} (id : V -> string) (safe : V -> Prop) (k : string) (v : V) :
  id v = k -> safe v -> CsvSpec.keyed id safe {[ k := v ]}.
Proof.
  intros Hid Hsafe k' v' Hv. apply lookup_singleton_Some in Hv as [<- <-]. auto.
Qed.

Lemma keyed_empty {V} (id : V -> string) (safe : V -> Prop) :
  CsvSpec.keyed id safe ∅.
Proof. intros k v Hv. rewrite lookup_empty in Hv. discriminate. Qed.



(** ** Eligibility of an addon *)

Section EligibilityFacts.
Import Eligibility.

Lemma truthyS_Some (o : option string) :
  truthyS o = true <-> exists s, o = Some s /\ s <> "".
Proof.
  unfold truthyS. destruct o as [s|].
  - rewrite negb_true_iff. split.
    + intros H. exists s. split; [reflexivity|]. intros ->. discriminate.
    + intros (s' & [= <-] & Hne). apply String.eqb_neq. exact Hne.
  - split; [discriminate|]. intros (s & H & _). discriminate.
Qed.

Lemma orS_pair (a b : option string) :
  (truthyS (orS a b) = true -> orS a b = first_nonempty [a; b]) /\
  (truthyS (orS a b) = false -> first_nonempty [a; b] = None).
Proof.
  unfold orS. cbn [first_nonempty].
  destruct (truthyS a) eqn:Ea.
  - rewrite Ea. split; [reflexivity|discriminate].
  - destruct (truthyS b) eqn:Eb; split; congruence.
Qed.

Lemma orS_chain (a b c : option string) :
  (truthyS (orS (orS a b) c) = true ->
     orS (orS a b) c = first_nonempty [a; b; c]) /\
  (truthyS (orS (orS a b) c) = false -> first_nonempty [a; b; c] = None).
Proof.
  unfold orS. cbn [first_nonempty].
  destruct (truthyS a) eqn:Ea.
  - rewrite Ea. split; [reflexivity|congruence].
  - destruct (truthyS b) eqn:Eb.
    + rewrite Eb. split; [reflexivity|congruence].
    + destruct (truthyS c) eqn:Ec; split; congruence.
Qed.

(** A restriction list against the value it is matched with. *)
Lemma restriction_listed (l : option (list string)) (v : option string)
    (fields : list (option string)) :
  (truthyS v = true -> v = first_nonempty fields) /\
  (truthyS v = false -> first_nonempty fields = None) ->
  match restricts l with
  | Some types => truthyS v && includes types v
  | None => true
  end = true <-> listed l (first_nonempty fields).
Proof.
  intros [Ht Hf]. unfold restricts, listed.
  destruct l as [[|x r]|]; try tauto.
  rewrite andb_true_iff. unfold includes. split.
  - intros [Hv Hin]. rewrite <- (Ht Hv). destruct v as [s|]; [|discriminate].
    apply bool_decide_eq_true in Hin. eauto.
  - intros (s & Hs & Hin). destruct (truthyS v) eqn:Hv.
    + rewrite (Ht eq_refl), Hs. split; [reflexivity|].
      apply bool_decide_eq_true. exact Hin.
    + rewrite (Hf eq_refl) in Hs. discriminate.
Qed.

Lemma isAddonAllowed_iff (addon : Addon.t) (product : Product.t) (ui : Q) :
  isAddonAllowed addon product ui = true <->
  listed (Addon.allowedProductTypes addon)
    (first_nonempty [Product.productType product; Product.type product;
                     Product.productTypeCode product]) /\
  listed (Addon.allowedProductLines addon)
    (first_nonempty [Product.productLineId product;
                     Product.productLine product]) /\
  within addon ui.
Proof.
  unfold isAddonAllowed, within.
  rewrite <- (restriction_listed (Addon.allowedProductTypes addon)
                (orS (orS (Product.productType product) (Product.type product))
                     (Product.productTypeCode product))).
  2:{ apply orS_chain. }
  rewrite <- (restriction_listed (Addon.allowedProductLines addon)
                (orS (Product.productLineId product) (Product.productLine product))).
  2:{ apply orS_pair. }
  destruct (match restricts (Addon.allowedProductTypes addon) with
            | Some types => _ | None => true end); simpl;
    [|split; [discriminate|intros [H _]; discriminate]].
  destruct (match restricts (Addon.allowedProductLines addon) with
            | Some lines => _ | None => true end); simpl;
    [|split; [discriminate|intros (_ & H & _); discriminate]].
  destruct (Addon.maxSize addon) as [hi|], (Addon.minSize addon) as [lo|].
  - destruct (Qltb hi ui) eqn:E1.
    + apply Qltb_lt in E1. split; [discriminate|].
      intros (_ & _ & H & _). specialize (H hi eq_refl). lra.
    + apply Qltb_ge in E1. destruct (Qltb ui lo) eqn:E2.
      * apply Qltb_lt in E2. split; [discriminate|].
        intros (_ & _ & _ & H). specialize (H lo eq_refl). lra.
      * apply Qltb_ge in E2. split; [|reflexivity]. intros _.
        repeat split; try reflexivity; intros m [= <-]; assumption.
  - destruct (Qltb hi ui) eqn:E1.
    + apply Qltb_lt in E1. split; [discriminate|].
      intros (_ & _ & H & _). specialize (H hi eq_refl). lra.
    + apply Qltb_ge in E1. split; [|reflexivity]. intros _.
      repeat split; try reflexivity; [intros m [= <-]; assumption|discriminate].
  - destruct (Qltb ui lo) eqn:E2.
    + apply Qltb_lt in E2. split; [discriminate|].
      intros (_ & _ & _ & H). specialize (H lo eq_refl). lra.
    + apply Qltb_ge in E2. split; [|reflexivity]. intros _.
      repeat split; try reflexivity; [discriminate|intros m [= <-]; assumption].
  - split; [|reflexivity]. intros _. repeat split; discriminate.
Qed.

End EligibilityFacts.


(** X1. [isAddonAllowed] accepts an addon for a product and a size exactly
    when three conditions hold.  The list of allowed product types, unless
    it is absent or empty, holds the type of the product, which is the
    first of [productType], [type] and [productTypeCode] that is present
    and not empty; the list of allowed product lines, unless it is absent
    or empty, holds the first of [productLineId] and [productLine] that is
    present and not empty; and the size is neither above a [maxSize] nor
    below a [minSize] that is present. *)
Theorem isAddonAllowed_restrictions
    (addon : Addon.t) (product : Product.t) (ui : Q) :
  isAddonAllowed addon product ui = true <->
  Eligibility.listed (Addon.allowedProductTypes addon)
    (Eligibility.first_nonempty
       [Product.productType product; Product.type product;
        Product.productTypeCode product]) /\
  Eligibility.listed (Addon.allowedProductLines addon)
    (Eligibility.first_nonempty
       [Product.productLineId product; Product.productLine product]) /\
  Eligibility.within addon ui.
Proof. apply isAddonAllowed_iff. Qed.

(** X2. The sizes an addon is allowed at, for a given product, form an
    interval: an addon allowed at two sizes is allowed at every size
    between them. *)
Theorem isAddonAllowed_between
    (addon : Addon.t) (product : Product.t) (lo ui hi : Q) :
  isAddonAllowed addon product lo = true ->
  isAddonAllowed addon product hi = true ->
  (lo <= ui)%Q -> (ui <= hi)%Q ->
  isAddonAllowed addon product ui = true.
Proof.
  rewrite !isAddonAllowed_iff. unfold Eligibility.within.
  intros (Ht & Hl & _ & Hlo) (_ & _ & Hhi & _) H1 H2.
  repeat split; try assumption.
  - intros m Hm. specialize (Hhi m Hm). lra.
  - intros m Hm. specialize (Hlo m Hm). lra.
Qed.

(** The grids of the sample catalog, allowed up to 55, at 40, 50 and 55. *)
Lemma isAddonAllowed_between_witness :
  isAddonAllowed Sample.grids Sample.window 40 = true /\
  isAddonAllowed Sample.grids Sample.window 55 = true /\
  isAddonAllowed Sample.grids Sample.window 50 = true.
Proof.
  assert (H1 : isAddonAllowed Sample.grids Sample.window 40 = true)
    by (vm_compute; reflexivity).
  assert (H2 : isAddonAllowed Sample.grids Sample.window 55 = true)
    by (vm_compute; reflexivity).
  split; [exact H1|]. split; [exact H2|].
  apply (isAddonAllowed_between Sample.grids Sample.window 40 50 55 H1 H2);
    vm_compute; discriminate.
Defined.

(** ** [getAvailableAddonsForProduct] *)

Lemma List_filter_sublist {A} (f : A -> bool) (l : list A) :
  sublist (List.filter f l) l.
Proof.
  induction l as [|x l IH]; simpl; [constructor|].
  destruct (f x); [apply sublist_skip|apply sublist_cons]; exact IH.
Qed.

Section Available.
Import Offer.

Variables (product : Product.t) (ui : Q) (allAddons : gmap string Addon.t).

Lemma elem_of_Object_keys {V} (o : gmap string V) (k : string) :
  k ∈ Object_keys o <-> exists v, o !! k = Some v.
Proof.
  unfold Object_keys. rewrite list_elem_of_fmap. split.
  - intros ([k' v] & -> & H). apply elem_of_map_to_list in H. eauto.
  - intros (v & H). exists (k, v). split; [reflexivity|].
    apply elem_of_map_to_list. exact H.
Qed.

Lemma elem_of_available (addonId : string) :
  addonId ∈ getAvailableAddonsForProduct product ui allAddons <->
  exists addon,
    allAddons !! addonId = Some addon /\ isAddonAllowed addon product ui = true.
Proof.
  unfold getAvailableAddonsForProduct.
  rewrite list_elem_of_In, filter_In, <- list_elem_of_In, elem_of_Object_keys.
  split.
  - intros [(addon & Hl) H]. rewrite Hl in H. eauto.
  - intros (addon & Hl & H). rewrite Hl. eauto.
Qed.

Lemma available_accepted (addonId : string) :
  addonId ∈ getAvailableAddonsForProduct product ui allAddons <->
  exists addon, Spec.accepted product ui allAddons addonId = Some addon.
Proof.
  rewrite elem_of_available. unfold Spec.accepted. split.
  - intros (addon & -> & ->). eauto.
  - intros (addon & H). destruct (allAddons !! addonId) as [a|]; [|discriminate].
    destruct (isAddonAllowed a product ui) eqn:E; [|discriminate]. eauto.
Qed.

End Available.

(** X3. [getAvailableAddonsForProduct] lists, each once, the ids of the
    catalog whose addon [isAddonAllowed] accepts for the product at the
    size, and no other id. *)
Theorem getAvailableAddonsForProduct_lists_allowed
    (product : Product.t) (ui : Q) (allAddons : gmap string Addon.t) :
  NoDup (Offer.getAvailableAddonsForProduct product ui allAddons) /\
  forall addonId,
    addonId ∈ Offer.getAvailableAddonsForProduct product ui allAddons <->
    exists addon,
      allAddons !! addonId = Some addon /\
      isAddonAllowed addon product ui = true.
Proof.
  split; [|apply elem_of_available].
  unfold Offer.getAvailableAddonsForProduct.
  eapply sublist_NoDup; [|apply List_filter_sublist].
  unfold Offer.Object_keys. apply NoDup_fst_map_to_list.
Qed.




(** ** When [calculateLineItem] returns *)

Lemma priced_or_not (product : Product.t) :
  (Product.pricingModel product = Some "UI" \/
   Product.pricingModel product = Some "FLAT") \/
  (Product.pricingModel product <> Some "UI" /\
   Product.pricingModel product <> Some "FLAT").
Proof.
  destruct (decide (Product.pricingModel product = Some "UI")); [tauto|].
  destruct (decide (Product.pricingModel product = Some "FLAT")); tauto.
Qed.

Lemma basePrice_of_priced (product : Product.t) (effectiveUI : Q) (e : error) :
  Product.pricingModel product = Some "UI" \/
  Product.pricingModel product = Some "FLAT" ->
  basePrice_of product effectiveUI <> Throw e.
Proof.
  unfold basePrice_of. intros [H|H]; rewrite H; discriminate.
Qed.

(** X5. [calculateLineItem] returns a line item exactly when the pricing
    model of the product is UI or FLAT and no exclusive group is declared
    by two accepted addons of the set.  When it fails, it fails with the
    invalid pricing model of the product, or, the product being priced,
    with a conflict in a group that two accepted addons share; it has no
    other way to fail. *)
Theorem calculateLineItem_returns_iff
    (product : Product.t) (width height : Q) (selectedAddonIds : list string)
    (allAddons : gmap string Addon.t) :
  let ids := allAddonIds product selectedAddonIds allAddons in
  let ui := calculateUI width height in
  let call := calculateLineItem product width height selectedAddonIds allAddons in
  let priced :=
    Product.pricingModel product = Some "UI" \/
    Product.pricingModel product = Some "FLAT" in
  ((exists li, call = Ok li) <->
   priced /\ forall g, ~ Spec.shared_group product ui allAddons ids g) /\
  (forall e, call = Throw e ->
     (~ priced /\ e = InvalidConfiguration (Product.pricingModel product)) \/
     (priced /\
      exists g, e = ExclusiveGroupConflict g /\
                Spec.shared_group product ui allAddons ids g)).
Proof.
  cbv zeta.
  assert (Hthrow : forall e,
    calculateLineItem product width height selectedAddonIds allAddons = Throw e ->
    (~ (Product.pricingModel product = Some "UI" \/
        Product.pricingModel product = Some "FLAT") /\
     e = InvalidConfiguration (Product.pricingModel product)) \/
    ((Product.pricingModel product = Some "UI" \/
      Product.pricingModel product = Some "FLAT") /\
     exists g, e = ExclusiveGroupConflict g /\
       Spec.shared_group product (calculateUI width height) allAddons
         (allAddonIds product selectedAddonIds allAddons) g)).
  { intros e He. destruct (priced_or_not product) as [Hp|[Hn1 Hn2]].
    - right. split; [exact Hp|].
      apply calculateLineItem_Throw in He as [Hb|(g & pre & post & -> & Hs & _ & Hin)].
      + destruct (basePrice_of_priced _ _ _ Hp Hb).
      + exists g. split; [reflexivity|].
        eapply repeated_group_shared; [apply new_Set_NoDup|exact Hs|exact Hin].
    - left. split; [tauto|].
      rewrite (invalid_product_pricing_model product width height
                 selectedAddonIds allAddons Hn1 Hn2) in He.
      injection He as <-. reflexivity. }
  split; [|exact Hthrow]. split.
  - intros (li & Hli). split.
    + destruct (priced_or_not product) as [Hp|[Hn1 Hn2]]; [exact Hp|].
      rewrite (invalid_product_pricing_model product width height
                 selectedAddonIds allAddons Hn1 Hn2) in Hli. discriminate.
    + intros g Hg.
      apply calculateLineItem_Ok in Hli as (_ & _ & _ & _ & _ & _ & _ & Hnd).
      exact (shared_group_not_NoDup _ _ _ _ _ Hg Hnd).
  - intros (Hp & Hfree).
    destruct (calculateLineItem product width height selectedAddonIds allAddons)
      as [li|e] eqn:Hcall; [eauto|].
    destruct (Hthrow e eq_refl) as [[Hn _]|(_ & g & _ & Hg)]; [tauto|].
    destruct (Hfree g Hg).
Qed.

(** The sample window with the tint returns; with the tempered glass,
    which shares the group of the mandatory grids, it fails on that
    group. *)
Lemma calculateLineItem_returns_iff_witness :
  ((Product.pricingModel Sample.window = Some "UI" \/
    Product.pricingModel Sample.window = Some "FLAT") /\
   forall g,
     ~ Spec.shared_group Sample.window (calculateUI 30 20) Sample.addons
         (allAddonIds Sample.window ["tint"] Sample.addons) g) /\
  exists g,
    calculateLineItem Sample.window 30 20 ["tempered"] Sample.addons =
      Throw (ExclusiveGroupConflict g) /\
    Spec.shared_group Sample.window (calculateUI 30 20) Sample.addons
      (allAddonIds Sample.window ["tempered"] Sample.addons) g.
Proof.
  split.
  - apply (proj1 (calculateLineItem_returns_iff Sample.window 30 20 ["tint"]
                    Sample.addons)).
    eexists. vm_compute. reflexivity.
  - destruct (calculateLineItem Sample.window 30 20 ["tempered"] Sample.addons)
      as [li|e] eqn:Hcall; [vm_compute in Hcall; discriminate|].
    destruct (proj2 (calculateLineItem_returns_iff Sample.window 30 20
                       ["tempered"] Sample.addons) e Hcall)
      as [[Hn _]|(_ & g & -> & Hg)].
    + exfalso. apply Hn. left. reflexivity.
    + exists g. split; [reflexivity|exact Hg].
Defined.

(** ** The order of the applied addons *)

Lemma set_add_sublist (s : list string) (x : string) :
  sublist (set_add s x) (s ++ [x]).
Proof.
  unfold set_add. case_bool_decide; [|reflexivity].
  apply sublist_inserts_r. reflexivity.
Qed.

Lemma fold_set_add_sublist (l : list string) : forall s,
  sublist (fold_left set_add l s) (s ++ l).
Proof.
  induction l as [|x l IH]; intros s; simpl.
  - rewrite app_nil_r. reflexivity.
  - etransitivity; [apply IH|].
    replace (s ++ x :: l) with ((s ++ [x]) ++ l) by (rewrite <- app_assoc; reflexivity).
    apply sublist_app; [apply set_add_sublist|reflexivity].
Qed.

Lemma new_Set_sublist (l : list string) : sublist (new_Set l) l.
Proof. apply (fold_set_add_sublist l []). Qed.

Lemma entries_ids (product : Product.t) (ui effectiveUI : Q)
    (allAddons : gmap string Addon.t) (ids : list string) :
  map AppliedAddon.id (Spec.entries product ui effectiveUI allAddons ids) =
    List.filter (Eligibility.takes product ui allAddons) ids.
Proof.
  unfold Spec.entries, Eligibility.takes.
  induction ids as [|x ids IH]; [reflexivity|].
  change (omap ?f (x :: ids)) with
    (match f x with Some y => y :: omap f ids | None => omap f ids end).
  cbn [List.filter].
  destruct (Spec.accepted product ui allAddons x) as [addon|]; simpl.
  - f_equal. exact IH.
  - exact IH.
Qed.

(** X6. In a line item that is returned no addon is applied twice, also
    when an id is selected more than once or is selected and mandatory;
    and the applied addons come in the order of the mandatory ids followed
    by the selected ids. *)
Theorem applied_addons_once_in_order
    (product : Product.t) (width height : Q) (selectedAddonIds : list string)
    (allAddons : gmap string Addon.t) (li : LineItem.t) :
  calculateLineItem product width height selectedAddonIds allAddons = Ok li ->
  NoDup (map AppliedAddon.id (LineItem.appliedAddons li)) /\
  sublist (map AppliedAddon.id (LineItem.appliedAddons li))
          (mandatoryAddonIds product allAddons ++ selectedAddonIds).
Proof.
  intros H. apply calculateLineItem_Ok in H as (_ & _ & _ & _ & Happ & _).
  rewrite Happ, entries_ids.
  assert (Hsub : sublist
            (List.filter (Eligibility.takes product (calculateUI width height) allAddons)
               (allAddonIds product selectedAddonIds allAddons))
            (allAddonIds product selectedAddonIds allAddons))
    by apply List_filter_sublist.
  split.
  - eapply sublist_NoDup; [apply new_Set_NoDup|exact Hsub].
  - etransitivity; [exact Hsub|]. apply new_Set_sublist.
Qed.

(** The tint selected twice and the mandatory grids selected as well:
    each is applied once, the grids first. *)
Lemma applied_addons_once_in_order_witness :
  exists li,
    calculateLineItem Sample.window 30 20 ["tint"; "grids"; "tint"]
      Sample.addons = Ok li /\
    map AppliedAddon.id (LineItem.appliedAddons li) = ["grids"; "tint"] /\
    NoDup (map AppliedAddon.id (LineItem.appliedAddons li)).
Proof.
  destruct (calculateLineItem Sample.window 30 20 ["tint"; "grids"; "tint"]
              Sample.addons) as [li|e] eqn:Hcall;
    [|vm_compute in Hcall; discriminate].
  exists li. split; [reflexivity|]. split.
  - vm_compute in Hcall. injection Hcall as <-. reflexivity.
  - exact (proj1 (applied_addons_once_in_order Sample.window 30 20
                    ["tint"; "grids"; "tint"] Sample.addons li Hcall)).
Defined.


(** ** The selection as a set *)

Section Selection.

Variables (product : Product.t) (ui effectiveUI : Q).
Variable allAddons : gmap string Addon.t.

Local Abbreviation takes := (Eligibility.takes product ui allAddons).

(** The loop passes over the ids it does not take. *)
Lemma addon_loop_filter (ids : list string) : forall st,
  addon_loop product ui effectiveUI allAddons st (List.filter takes ids) =
  addon_loop product ui effectiveUI allAddons st ids.
Proof.
  induction ids as [|x ids IH]; intros st; [reflexivity|].
  cbn [List.filter]. unfold Eligibility.takes at 1.
  destruct (Spec.accepted product ui allAddons x) as [addon|] eqn:Ha.
  - simpl. destruct (addon_step product ui effectiveUI allAddons st x);
      simpl; [apply IH|reflexivity].
  - simpl. rewrite (addon_step_skip _ _ _ _ st x Ha). simpl. apply IH.
Qed.

End Selection.

Lemma filter_set_add (f : string -> bool) (s : list string) (x : string) :
  List.filter f (set_add s x) =
    if f x then set_add (List.filter f s) x else List.filter f s.
Proof.
  unfold set_add. destruct (f x) eqn:Hx.
  - assert (Hiff : x ∈ s <-> x ∈ List.filter f s).
    { rewrite !list_elem_of_In, filter_In. tauto. }
    destruct (bool_decide (x ∈ s)) eqn:E.
    + apply bool_decide_eq_true in E.
      rewrite (bool_decide_eq_true_2 _ (proj1 Hiff E)). reflexivity.
    + apply bool_decide_eq_false in E.
      rewrite bool_decide_eq_false_2 by tauto.
      rewrite List.filter_app. simpl. rewrite Hx. reflexivity.
  - destruct (bool_decide (x ∈ s)); [reflexivity|].
    rewrite List.filter_app. simpl. rewrite Hx. apply app_nil_r.
Qed.

Lemma filter_fold_set_add (f : string -> bool) (l : list string) : forall s,
  List.filter f (fold_left set_add l s) =
    fold_left set_add (List.filter f l) (List.filter f s).
Proof.
  induction l as [|x l IH]; intros s; [reflexivity|].
  simpl. rewrite IH, filter_set_add. destruct (f x); reflexivity.
Qed.

Lemma filter_new_Set (f : string -> bool) (l : list string) :
  List.filter f (new_Set l) = new_Set (List.filter f l).
Proof. apply (filter_fold_set_add f l []). Qed.

Lemma filter_filter_same {A} (f : A -> bool) (l : list A) :
  List.filter f (List.filter f l) = List.filter f l.
Proof.
  induction l as [|x l IH]; [reflexivity|]. simpl.
  destruct (f x) eqn:Hx; simpl; [rewrite Hx, IH|]; tauto.
Qed.

Lemma set_add_present (s : list string) (x : string) :
  x ∈ s -> set_add s x = s.
Proof. intros H. unfold set_add. rewrite bool_decide_eq_true_2; tauto. Qed.

Lemma fold_set_add_new_Set (l : list string) : forall s,
  NoDup s -> fold_left set_add (new_Set l) s = fold_left set_add l s.
Proof.
  induction l as [|x l IH] using rev_ind; intros s Hs; [reflexivity|].
  unfold new_Set in *. rewrite !fold_left_app. simpl.
  destruct (decide (x ∈ l)) as [Hin|Hin].
  - rewrite (set_add_present (fold_left set_add l [])).
    2:{ apply (set_add_fold l [] (NoDup_nil_2 (A:=string))). tauto. }
    rewrite (set_add_present (fold_left set_add l s)).
    2:{ apply (set_add_fold l s Hs). tauto. }
    apply IH. exact Hs.
  - unfold set_add at 2. rewrite bool_decide_eq_false_2.
    2:{ intros H. apply (set_add_fold l [] (NoDup_nil_2 (A:=string))) in H.
        rewrite elem_of_nil in H. tauto. }
    rewrite fold_left_app. simpl. rewrite IH by exact Hs. reflexivity.
Qed.

Lemma new_Set_app_new_Set (m l : list string) :
  new_Set (m ++ new_Set l) = new_Set (m ++ l).
Proof.
  unfold new_Set at 1 3. rewrite !fold_left_app.
  apply fold_set_add_new_Set. apply (set_add_fold m []). constructor.
Qed.


(** ** The base price and the united inches *)

Lemma effectiveUI_ge (product : Product.t) (ui : Q) :
  (ui <= effectiveUI_of product ui)%Q /\
  (forall m, Product.minimumUI product = Some m ->
     (m <= effectiveUI_of product ui)%Q).
Proof.
  unfold effectiveUI_of. split; [apply Q.le_max_l|].
  intros m ->. unfold orQ. destruct (Qeq_bool m 0) eqn:E.
  - apply Qeq_bool_iff in E. rewrite E. apply Q.le_max_r.
  - apply Q.le_max_r.
Qed.

(** X8. A product priced by UI at a rate that is not negative has a
    minimum charge: the base price of a returned line item is a number that
    is not below the raw united inches times the rate, nor below
    [minimumUI] times the rate. *)
Theorem base_price_minimum_charge
    (product : Product.t) (width height : Q) (selectedAddonIds : list string)
    (allAddons : gmap string Addon.t) (li : LineItem.t) (rate : Q) :
  Product.pricingModel product = Some "UI" ->
  Product.uiRate product = Some rate ->
  (0 <= rate)%Q ->
  calculateLineItem product width height selectedAddonIds allAddons = Ok li ->
  exists b,
    LineItem.basePrice li = Num b /\
    (calculateUI width height * rate <= b)%Q /\
    (forall m, Product.minimumUI product = Some m -> (m * rate <= b)%Q).
Proof.
  intros Hmodel Hrate Hpos H.
  apply calculateLineItem_Ok in H as (base & Hb & _ & Hbase & _).
  unfold basePrice_of in Hb. rewrite Hmodel, Hrate in Hb. simpl in Hb.
  injection Hb as <-. eexists. split; [exact Hbase|].
  destruct (effectiveUI_ge product (calculateUI width height)) as [H1 H2].
  split.
  - apply Qmult_le_compat_r; assumption.
  - intros m Hm. apply Qmult_le_compat_r; [apply H2; exact Hm|exact Hpos].
Qed.

(** The sample window at 30 by 20: 50 united inches at a rate of 10 and a
    minimum of 60 are charged 600. *)
Lemma base_price_minimum_charge_witness :
  exists li b,
    calculateLineItem Sample.window 30 20 [] Sample.addons = Ok li /\
    LineItem.basePrice li = Num b /\
    (60 * 10 <= b)%Q.
Proof.
  destruct (calculateLineItem Sample.window 30 20 [] Sample.addons)
    as [li|e] eqn:Hcall; [|vm_compute in Hcall; discriminate].
  assert (Hpos : (0 <= 10)%Q) by (vm_compute; discriminate).
  destruct (base_price_minimum_charge Sample.window 30 20 [] Sample.addons li 10
              eq_refl eq_refl Hpos Hcall) as (b & Hb & _ & Hmin).
  exists li, b. split; [reflexivity|]. split; [exact Hb|].
  apply (Hmin 60%Q). reflexivity.
Defined.


(** X9. The united inches of a returned line item meet the minimum of the
    product: [validateUI] on the [ui] of the line item never reports that
    it is below [minimumUI].  Where [validateUI] reports the raw
    [calculateUI(width, height)] as below the minimum [m], the size is
    not refused but raised: the line item that is returned has the [ui]
    [m]. *)
Theorem line_item_ui_meets_minimum
    (product : Product.t) (width height : Q) (selectedAddonIds : list string)
    (allAddons : gmap string Addon.t) (li : LineItem.t) :
  calculateLineItem product width height selectedAddonIds allAddons = Ok li ->
  (forall m errs,
     errors (validateUI product (LineItem.ui li)) = Some errs ->
     UIBelowMin m ∉ errs) /\
  (forall m errs,
     errors (validateUI product (calculateUI width height)) = Some errs ->
     UIBelowMin m ∈ errs ->
     LineItem.ui li = m).
Proof.
  intros H. apply calculateLineItem_Ok in H as (_ & _ & Hui & _).
  rewrite Hui. unfold validateUI. simpl. split.
  - intros m errs [= <-]. rewrite elem_of_app, !elem_of_check.
    intros [(m' & [Hm _] & Hlt & [= <-])|(m' & _ & _ & [=])].
    apply Qltb_lt in Hlt.
    pose proof (proj2 (effectiveUI_ge product (calculateUI width height)) m Hm).
    lra.
  - intros m errs [= <-]. rewrite elem_of_app, !elem_of_check.
    intros [(m' & [Hm Hnz] & Hlt & [= <-])|(m' & _ & _ & [=])].
    apply Qltb_lt in Hlt. unfold effectiveUI_of. rewrite Hm. unfold orQ.
    destruct (Qeq_bool m 0) eqn:E; [apply Qeq_bool_iff in E; tauto|].
    unfold Qmax, GenericMinMax.gmax.
    pose proof (proj1 (Qlt_alt (calculateUI width height) m) Hlt) as Hc.
    rewrite Hc. reflexivity.
Qed.

(** The sample window at 30 by 20: the raw 50 united inches are reported as
    below the minimum of 60, and the line item has 60. *)
Lemma line_item_ui_meets_minimum_witness :
  exists li,
    calculateLineItem Sample.window 30 20 [] Sample.addons = Ok li /\
    validateUI Sample.window (calculateUI 30 20) =
      mk_validation false (Some [UIBelowMin 60]) /\
    LineItem.ui li = 60%Q /\
    validateUI Sample.window (LineItem.ui li) = mk_validation true (Some []).
Proof.
  destruct (calculateLineItem Sample.window 30 20 [] Sample.addons)
    as [li|e] eqn:Hcall; [|vm_compute in Hcall; discriminate].
  exists li. split; [reflexivity|].
  assert (Hv : validateUI Sample.window (calculateUI 30 20) =
               mk_validation false (Some [UIBelowMin 60]))
    by (vm_compute; reflexivity).
  assert (Hui : LineItem.ui li = 60%Q).
  { apply (proj2 (line_item_ui_meets_minimum Sample.window 30 20 []
                    Sample.addons li Hcall) 60%Q [UIBelowMin 60]).
    - rewrite Hv. reflexivity.
    - left. }
  split; [exact Hv|]. split; [exact Hui|]. rewrite Hui. vm_compute. reflexivity.
Defined.

(** ** What the price does not depend on *)

Section Limits.

Variables (product : Product.t) (maximumUI : option Q).
Variable sizeLimits : option SizeLimits.t.
Variables (ui effectiveUI : Q) (allAddons : gmap string Addon.t).

Local Abbreviation product' :=
  (Eligibility.with_limits product maximumUI sizeLimits).

Lemma addon_step_with_limits st addonId :
  addon_step product' ui effectiveUI allAddons st addonId =
  addon_step product ui effectiveUI allAddons st addonId.
Proof. reflexivity. Qed.

Lemma addon_loop_with_limits (ids : list string) : forall st,
  addon_loop product' ui effectiveUI allAddons st ids =
  addon_loop product ui effectiveUI allAddons st ids.
Proof.
  induction ids as [|x ids IH]; intros st; [reflexivity|].
  simpl. rewrite addon_step_with_limits.
  destruct (addon_step product ui effectiveUI allAddons st x); simpl;
    [apply IH|reflexivity].
Qed.

End Limits.

(** X10. The price reads the size as united inches only, and no limit:
    [calculateLineItem] has the same outcome for two sizes of the same
    [calculateUI], whatever their areas, and whatever the [maximumUI] and
    the [sizeLimits] of the product are. *)
Theorem price_reads_united_inches_only
    (product : Product.t) (maximumUI : option Q)
    (sizeLimits : option SizeLimits.t) (width height width' height' : Q)
    (selectedAddonIds : list string) (allAddons : gmap string Addon.t) :
  calculateUI width height = calculateUI width' height' ->
  calculateLineItem (Eligibility.with_limits product maximumUI sizeLimits)
    width' height' selectedAddonIds allAddons =
  calculateLineItem product width height selectedAddonIds allAddons.
Proof.
  intros Hui. unfold calculateLineItem. rewrite <- Hui.
  change (basePrice_of (Eligibility.with_limits product maximumUI sizeLimits))
    with (basePrice_of product).
  change (effectiveUI_of (Eligibility.with_limits product maximumUI sizeLimits))
    with (effectiveUI_of product).
  change (allAddonIds (Eligibility.with_limits product maximumUI sizeLimits))
    with (allAddonIds product).
  rewrite addon_loop_with_limits. reflexivity.
Qed.

(** A window of 10 by 90 and one of 50 by 50 have 100 united inches and
    areas of 6.25 and about 17.4 square feet; the second one, with a
    maximum UI of 80 and a maximum width of 40, is priced as the first. *)
Lemma price_reads_united_inches_only_witness :
  calculateUI 10 90 = calculateUI 50 50 /\
  ~ (calculateSquareFootage 10 90 == calculateSquareFootage 50 50)%Q /\
  validateUI (Eligibility.with_limits Sample.window (Some 80%Q)
                (Some (SizeLimits.mk None (Some 40%Q) None None)))
    (calculateUI 50 50) = mk_validation false (Some [UIAboveMax 80]) /\
  validateSize (Eligibility.with_limits Sample.window (Some 80%Q)
                  (Some (SizeLimits.mk None (Some 40%Q) None None)))
    50 50 = mk_validation false (Some [WidthAboveMax 40]) /\
  calculateLineItem
    (Eligibility.with_limits Sample.window (Some 80%Q)
       (Some (SizeLimits.mk None (Some 40%Q) None None)))
    50 50 [] Sample.addons =
  calculateLineItem Sample.window 10 90 [] Sample.addons.
Proof.
  assert (H : calculateUI 10 90 = calculateUI 50 50) by reflexivity.
  split; [exact H|]. split; [vm_compute; discriminate|].
  split; [vm_compute; reflexivity|]. split; [vm_compute; reflexivity|].
  apply price_reads_united_inches_only. exact H.
Defined.


(** ** Rounding of the united inches *)


(** ** Sums of prices *)

Section SumFacts.

Lemma add_comm a b : number_eq (add a b) (add b a).
Proof. destruct a, b; simpl; try exact I. ring. Qed.

#[local] Instance add_number_eq_proper :
  Proper (number_eq ==> number_eq ==> number_eq) add.
Proof. intros a a' Ha b b' Hb. apply add_proper; assumption. Qed.

Lemma sum_Permutation (l l' : list number) :
  l ≡ₚ l' -> number_eq (Spec.sum l) (Spec.sum l').
Proof.
  induction 1 as [|x l l' _ IH|x y l|l l' l'' _ IH1 _ IH2]; simpl.
  - reflexivity.
  - apply add_proper; [reflexivity|exact IH].
  - rewrite <- !add_assoc. apply add_proper; [apply add_comm|reflexivity].
  - etransitivity; eassumption.
Qed.

Lemma sum_NaN (l : list number) : NaN ∈ l -> Spec.sum l = NaN.
Proof.
  induction l as [|x l IH]; intros H; [inversion H|].
  simpl. apply elem_of_cons in H as [<-|H]; [reflexivity|].
  rewrite (IH H). destruct x; reflexivity.
Qed.

Lemma sum_numeric (lineItems : list LineItem.t) :
  Forall Totals.numeric lineItems ->
  exists t, Spec.sum (map LineItem.lineItemParTotal lineItems) = Num t.
Proof.
  induction 1 as [|x l (t & Hx) _ (s & IH)]; simpl; [eauto|].
  rewrite Hx, IH. simpl. eauto.
Qed.

Lemma sum_jobs (jobs : list JobAddon.t) :
  Spec.sum (map (fun a => Num (orQ (JobAddon.price a) 0)) jobs) =
    Num (Totals.job_sum jobs).
Proof.
  induction jobs as [|x l IH]; simpl; [reflexivity|].
  rewrite IH. reflexivity.
Qed.

(** The totals [calculateQuote] computes, as sums. *)
Lemma calculateQuote_sums (lineItems : list LineItem.t)
    (jobBasedAddons : list JobAddon.t) (salesUplift : Q) :
  let total := Spec.sum (map LineItem.lineItemParTotal lineItems) in
  let final :=
    add (add total (Num (Totals.job_sum jobBasedAddons))) (Num salesUplift) in
  exists t j,
    number_eq t total /\
    number_eq j (Num (Totals.job_sum jobBasedAddons)) /\
    calculateQuote lineItems jobBasedAddons salesUplift =
      if Qltb salesUplift 0 then Throw NegativeUplift
      else if lt final total then Throw PriceFloorViolation
      else Ok (QuoteTotals.mk t j jobBasedAddons salesUplift
                 (add (add t j) (Num salesUplift))).
Proof.
  cbv zeta. unfold calculateQuote.
  set (t := fold_left _ lineItems (Num 0)).
  set (j := fold_left _ jobBasedAddons (Num 0)).
  assert (Ht : number_eq t (Spec.sum (map LineItem.lineItemParTotal lineItems)))
    by apply (fold_left_sum LineItem.lineItemParTotal).
  assert (Hj : number_eq j (Num (Totals.job_sum jobBasedAddons))).
  { rewrite <- sum_jobs.
    apply (fold_left_sum (fun a => Num (orQ (JobAddon.price a) 0))). }
  exists t, j. split; [exact Ht|]. split; [exact Hj|].
  destruct (Qltb salesUplift 0); [reflexivity|].
  rewrite (lt_proper (add (add t j) (Num salesUplift))
             (add (add (Spec.sum (map LineItem.lineItemParTotal lineItems))
                       (Num (Totals.job_sum jobBasedAddons)))
                  (Num salesUplift))
             t (Spec.sum (map LineItem.lineItemParTotal lineItems))).
  - reflexivity.
  - apply add_proper; [apply add_proper; assumption|reflexivity].
  - exact Ht.
Qed.

Lemma job_sum_Permutation (jobs jobs' : list JobAddon.t) :
  jobs ≡ₚ jobs' -> (Totals.job_sum jobs == Totals.job_sum jobs')%Q.
Proof.
  induction 1 as [|x l l' _ IH|x y l|l l' l'' _ IH1 _ IH2]; simpl.
  - reflexivity.
  - rewrite IH. reflexivity.
  - ring.
  - etransitivity; eassumption.
Qed.

End SumFacts.






(** X14. A par total that is not a number voids the price floor: when the
    [lineItemParTotal] of some line item is [NaN] and the uplift is not
    negative, [calculateQuote] returns, whatever the job-based addons, and
    the total par price and the final price it returns are [NaN]. *)
Theorem calculateQuote_NaN_total
    (lineItems : list LineItem.t) (jobBasedAddons : list JobAddon.t)
    (salesUplift : Q) (item : LineItem.t) :
  item ∈ lineItems ->
  LineItem.lineItemParTotal item = NaN ->
  (0 <= salesUplift)%Q ->
  exists q,
    calculateQuote lineItems jobBasedAddons salesUplift = Ok q /\
    QuoteTotals.totalParPrice q = NaN /\
    QuoteTotals.finalPrice q = NaN.
Proof.
  intros Hin Hnan Hu.
  destruct (calculateQuote_sums lineItems jobBasedAddons salesUplift)
    as (t & j & Ht & Hj & ->).
  rewrite sum_NaN in *.
  2,3: rewrite <- Hnan; apply list_elem_of_fmap; eauto.
  apply Qltb_ge in Hu. rewrite Hu. simpl.
  destruct t; [|destruct Ht]. eexists. split; [reflexivity|]. split; reflexivity.
Qed.

(** A line item without a par total and a job-based addon of -20. *)
Lemma calculateQuote_NaN_total_witness :
  exists q,
    calculateQuote
      [LineItem.mk 50 (Num 500) (Num 0) (Num 500) [];
       LineItem.mk 50 NaN (Num 0) NaN []]
      [JobAddon.mk (Some (-20)%Q)] 0 = Ok q /\
    QuoteTotals.totalParPrice q = NaN /\
    QuoteTotals.finalPrice q = NaN.
Proof.
  apply (calculateQuote_NaN_total _ _ 0 (LineItem.mk 50 NaN (Num 0) NaN [])).
  - right. left.
  - reflexivity.
  - vm_compute. discriminate.
Defined.

(** ** More on [createQuoteVersion] *)

(** X15. [createQuoteVersion] passes no job-based addons on, so that the
    price floor cannot fail it: on a line items array it fails with
    NegativeUplift when the uplift is below 0 and returns a version
    otherwise, whose total par price is the sum of the par totals and whose
    final price is that total plus the uplift. *)
Theorem createQuoteVersion_fails_on_uplift_only {M : Type}
    (now : Z) (timestamp : string) (h : gmap Store.loc Store.object)
    (quoteId : string) (lineItems : Store.loc) (salesUplift : Q) (metadata : M)
    (items : list Store.Snapshot.item) :
  Store.read h lineItems = Some items ->
  ((salesUplift < 0)%Q ->
     Snapshots.createQuoteVersion now timestamp h quoteId lineItems salesUplift
       metadata = Some (Throw NegativeUplift)) /\
  ((0 <= salesUplift)%Q ->
     exists h' v,
       Snapshots.createQuoteVersion now timestamp h quoteId lineItems
         salesUplift metadata = Some (Ok (h', v)) /\
       QuoteVersion.salesUplift v = salesUplift /\
       number_eq (QuoteVersion.totalParPrice v)
         (Spec.sum (map (fun i =>
                           Store.ToNumber (Store.Snapshot.lineItemParTotal i))
                      items)) /\
       number_eq (QuoteVersion.finalPrice v)
         (add (QuoteVersion.totalParPrice v) (Num salesUplift))).
Proof.
  intros Hr.
  destruct (calculateQuote_sums (map Store.to_LineItem items) [] salesUplift)
    as (t & j & Ht & Hj & Hq).
  rewrite map_map in Ht, Hq. simpl in Ht, Hj, Hq. split.
  - intros Hu. apply Qltb_lt in Hu. rewrite Hu in Hq.
    apply (createQuoteVersion_throws now timestamp h quoteId lineItems
             salesUplift metadata items _ Hr Hq).
  - intros Hu. apply Qltb_ge in Hu as Hu'. rewrite Hu' in Hq.
    set (total := Spec.sum _) in *.
    assert (Hfloor : lt (add (add total (Num 0)) (Num salesUplift)) total = false).
    { destruct total as [|T]; [reflexivity|]. simpl. apply Qltb_ge. lra. }
    rewrite Hfloor in Hq.
    rewrite (createQuoteVersion_returns now timestamp h quoteId lineItems
               salesUplift metadata items _ Hr Hq).
    eexists. eexists. split; [reflexivity|]. simpl.
    split; [reflexivity|]. split; [exact Ht|].
    destruct t as [|t0], j as [|j0]; simpl in *; try tauto. rewrite Hj. ring.
Qed.

(** The two sample line items: an uplift of -1 is refused, an uplift of
    100 gives a version. *)
Lemma createQuoteVersion_fails_on_uplift_only_witness :
  Snapshots.createQuoteVersion 1700000000000 "2024-01-01T00:00:00.000Z"
    (fst SampleStore.store) "q1" (snd SampleStore.store) (-1) tt =
    Some (Throw NegativeUplift) /\
  exists h' v,
    Snapshots.createQuoteVersion 1700000000000 "2024-01-01T00:00:00.000Z"
      (fst SampleStore.store) "q1" (snd SampleStore.store) 100 tt =
      Some (Ok (h', v)) /\
    QuoteVersion.salesUplift v = 100%Q.
Proof.
  assert (Hr : Store.read (fst SampleStore.store) (snd SampleStore.store) =
               Some SampleStore.items) by (vm_compute; reflexivity).
  split.
  - apply (proj1 (createQuoteVersion_fails_on_uplift_only 1700000000000
                    "2024-01-01T00:00:00.000Z" (fst SampleStore.store) "q1"
                    (snd SampleStore.store) (-1) tt SampleStore.items Hr)).
    reflexivity.
  - destruct (proj2 (createQuoteVersion_fails_on_uplift_only 1700000000000
                       "2024-01-01T00:00:00.000Z" (fst SampleStore.store) "q1"
                       (snd SampleStore.store) 100 tt SampleStore.items Hr))
      as (h' & v & Hv & Hu & _).
    + vm_compute. discriminate.
    + exists h', v. auto.
Defined.

Lemma createQuoteVersion_id {M : Type}
    (now : Z) (timestamp : string) (h : gmap Store.loc Store.object)
    (quoteId : string) (lineItems : Store.loc) (salesUplift : Q) (metadata : M)
    h' v :
  Snapshots.createQuoteVersion now timestamp h quoteId lineItems salesUplift
    metadata = Some (Ok (h', v)) ->
  QuoteVersion.id v = quoteId +:+ "_v" +:+ pretty now.
Proof.
  unfold Snapshots.createQuoteVersion. intros H.
  destruct (Store.read h lineItems) as [items|]; [|discriminate]. simpl in H.
  destruct (calculateQuote _ _ _) as [q|]; [|discriminate]. simpl in H.
  destruct (Store.JSON_clone items h). injection H as _ <-. reflexivity.
Qed.

(** X16. The id of a version is made of the quote id and the time of the
    call: two versions of the same quote have the same id exactly when they
    were created at the same [Date.now()], whatever their contents. *)
Theorem version_id_tells_the_time {M : Type}
    (now1 now2 : Z) (timestamp1 timestamp2 : string)
    (h1 h2 : gmap Store.loc Store.object) (quoteId : string)
    (lineItems1 lineItems2 : Store.loc) (salesUplift1 salesUplift2 : Q)
    (metadata1 metadata2 : M) h1' h2' v1 v2 :
  Snapshots.createQuoteVersion now1 timestamp1 h1 quoteId lineItems1
    salesUplift1 metadata1 = Some (Ok (h1', v1)) ->
  Snapshots.createQuoteVersion now2 timestamp2 h2 quoteId lineItems2
    salesUplift2 metadata2 = Some (Ok (h2', v2)) ->
  (QuoteVersion.id v1 = QuoteVersion.id v2 <-> now1 = now2).
Proof.
  intros H1 H2. apply createQuoteVersion_id in H1, H2. rewrite H1, H2. split.
  - intros H. apply String.app_inj in H. apply String.app_inj in H.
    apply (inj pretty) in H. exact H.
  - intros ->. reflexivity.
Qed.


(** Two versions of the sample line items, a millisecond apart. *)
Lemma version_id_tells_the_time_witness :
  exists h1 v1 h2 v2,
    Snapshots.createQuoteVersion 1700000000000 "2024-01-01T00:00:00.000Z"
      (fst SampleStore.store) "q1" (snd SampleStore.store) 0 tt =
      Some (Ok (h1, v1)) /\
    Snapshots.createQuoteVersion 1700000000001 "2024-01-01T00:00:00.001Z"
      (fst SampleStore.store) "q1" (snd SampleStore.store) 100 tt =
      Some (Ok (h2, v2)) /\
    QuoteVersion.id v1 <> QuoteVersion.id v2.
Proof.
  destruct (Snapshots.createQuoteVersion 1700000000000 "2024-01-01T00:00:00.000Z"
              (fst SampleStore.store) "q1" (snd SampleStore.store) 0 tt)
    as [[[h1 v1]|e1]|] eqn:H1; try (vm_compute in H1; discriminate).
  destruct (Snapshots.createQuoteVersion 1700000000001 "2024-01-01T00:00:00.001Z"
              (fst SampleStore.store) "q1" (snd SampleStore.store) 100 tt)
    as [[[h2 v2]|e2]|] eqn:H2; try (vm_compute in H2; discriminate).
  exists h1, v1, h2, v2. split; [reflexivity|]. split; [reflexivity|].
  intros Hid.
  apply (version_id_tells_the_time _ _ _ _ _ _ _ _ _ _ _ _ _ _ _ _ _ H1 H2) in Hid.
  discriminate.
Defined.

(** ** Limits that contradict each other *)

Lemma check_reports (o : option Q) (violated : Q -> bool)
    (message : Q -> violation) (m : Q) :
  Spec.limit o m -> violated m = true -> check o violated message = [message m].
Proof.
  intros [-> Hnz] Hv. unfold check, truthyQ.
  destruct (Qeq_bool m 0) eqn:E; [apply Qeq_bool_iff in E; tauto|].
  simpl. rewrite Hv. reflexivity.
Qed.

Lemma check_passes (o : option Q) (violated : Q -> bool)
    (message : Q -> violation) :
  (forall m, o = Some m -> violated m = false) ->
  check o violated message = [].
Proof.
  intros H. unfold check. destruct o as [m|]; [|reflexivity].
  rewrite (H m eq_refl), andb_false_r. reflexivity.
Qed.

Lemma check_length (o : option Q) (violated : Q -> bool)
    (message : Q -> violation) :
  (length (check o violated message) <= 1)%nat.
Proof.
  unfold check. destruct o as [m|]; [|simpl; lia].
  destruct (truthyQ (Some m) && violated m); simpl; lia.
Qed.

(** A minimum above the maximum: one of the two checks reports. *)
Lemma contradictory_checks (omin omax : option Q) (lo hi x : Q)
    (below above : Q -> violation) :
  Spec.limit omin lo -> Spec.limit omax hi -> (hi < lo)%Q ->
  check omin (fun m => Qltb x m) below ++ check omax (fun m => Qltb m x) above
    <> [].
Proof.
  intros Hlo Hhi Hlt. destruct (Qltb x lo) eqn:E.
  - rewrite (check_reports omin (fun m => Qltb x m) below lo Hlo E). discriminate.
  - apply Qltb_ge in E. assert (E' : Qltb hi x = true) by (apply Qltb_lt; lra).
    rewrite (check_reports omax (fun m => Qltb m x) above hi Hhi E').
    destruct (check omin _ below); discriminate.
Qed.

(** A minimum that is not above the maximum: one check at most reports. *)
Lemma consistent_checks (omin omax : option Q) (lo hi x : Q)
    (below above : Q -> violation) :
  omin = Some lo -> omax = Some hi -> (lo <= hi)%Q ->
  (length (check omin (fun m => Qltb x m) below ++
           check omax (fun m => Qltb m x) above) <= 1)%nat.
Proof.
  intros Hlo Hhi Hle. rewrite length_app. destruct (Qltb x lo) eqn:E.
  - apply Qltb_lt in E. rewrite (check_passes omax (fun m => Qltb m x) above).
    + pose proof (check_length omin (fun m => Qltb x m) below). simpl. lia.
    + intros m Hm. rewrite Hhi in Hm. injection Hm as <-. apply Qltb_ge. lra.
  - rewrite (check_passes omin (fun m => Qltb x m) below).
    + pose proof (check_length omax (fun m => Qltb m x) above). simpl. lia.
    + intros m Hm. rewrite Hlo in Hm. injection Hm as <-. exact E.
Qed.

(** X17. Limits that contradict each other reject every size.  When the
    minimum UI of a product is above its maximum UI, both being present and
    not 0, [validateUI] is never valid; when the minimum width is above the
    maximum width, or the minimum height above the maximum height,
    [validateSize] is never valid.  When the minimum UI is not above the
    maximum UI, [validateUI] reports one violation at most. *)
Theorem contradictory_limits_reject_all (product : Product.t) (lo hi : Q) :
  ((hi < lo)%Q ->
   Spec.limit (Product.minimumUI product) lo ->
   Spec.limit (Product.maximumUI product) hi ->
   forall ui, valid (validateUI product ui) = false) /\
  ((hi < lo)%Q ->
   forall limits,
     Product.sizeLimits product = Some limits ->
     (Spec.limit (SizeLimits.minWidth limits) lo /\
      Spec.limit (SizeLimits.maxWidth limits) hi) \/
     (Spec.limit (SizeLimits.minHeight limits) lo /\
      Spec.limit (SizeLimits.maxHeight limits) hi) ->
     forall width height, valid (validateSize product width height) = false) /\
  ((lo <= hi)%Q ->
   Product.minimumUI product = Some lo ->
   Product.maximumUI product = Some hi ->
   forall ui errs,
     errors (validateUI product ui) = Some errs -> (length errs <= 1)%nat).
Proof.
  split; [|split].
  - intros Hlt Hlo Hhi ui. unfold validateUI. simpl.
    pose proof (contradictory_checks _ _ lo hi ui UIBelowMin UIAboveMax Hlo Hhi Hlt).
    destruct (_ ++ _); [congruence|reflexivity].
  - intros Hlt limits Hl Hcase width height. unfold validateSize. rewrite Hl.
    simpl. destruct Hcase as [[Hlo Hhi]|[Hlo Hhi]].
    + pose proof (contradictory_checks _ _ lo hi width WidthBelowMin WidthAboveMax
                    Hlo Hhi Hlt) as H.
      rewrite (app_assoc (check (SizeLimits.minWidth limits) _ _)).
      destruct (check (SizeLimits.minWidth limits) _ _ ++
                check (SizeLimits.maxWidth limits) _ _); [congruence|reflexivity].
    + pose proof (contradictory_checks _ _ lo hi height HeightBelowMin
                    HeightAboveMax Hlo Hhi Hlt) as H.
      destruct (check (SizeLimits.minWidth limits) _ _); [|reflexivity].
      destruct (check (SizeLimits.maxWidth limits) _ _); [|reflexivity].
      simpl.
      destruct (check (SizeLimits.minHeight limits) _ _ ++
                check (SizeLimits.maxHeight limits) _ _); [congruence|reflexivity].
  - intros Hle Hlo Hhi ui errs. unfold validateUI. simpl. intros [= <-].
    apply (consistent_checks _ _ lo hi ui UIBelowMin UIAboveMax Hlo Hhi Hle).
Qed.

(** The sample window, whose minimum UI is 60, with a maximum UI of 40:
    neither 30 nor 50 nor 70 united inches are valid. *)
Lemma contradictory_limits_reject_all_witness :
  valid (validateUI (Eligibility.with_limits Sample.window (Some 40%Q) None)
           30) = false /\
  valid (validateUI (Eligibility.with_limits Sample.window (Some 40%Q) None)
           50) = false /\
  valid (validateUI (Eligibility.with_limits Sample.window (Some 40%Q) None)
           70) = false.
Proof.
  assert (H : forall ui,
            valid (validateUI
                     (Eligibility.with_limits Sample.window (Some 40%Q) None)
                     ui) = false).
  { apply (proj1 (contradictory_limits_reject_all
                    (Eligibility.with_limits Sample.window (Some 40%Q) None)
                    60 40)).
    - vm_compute. reflexivity.
    - split; [reflexivity|]. vm_compute. discriminate.
    - split; [reflexivity|]. vm_compute. discriminate. }
  split; [apply H|]. split; apply H.
Defined.


(** ** The totals of a line item *)

Section LineTotals.
Import Spec Totals.

Lemma fold_left_add_eq (l : list number) (a : number) :
  number_eq (fold_left add l a) (add a (Spec.sum l)).
Proof.
  pose proof (fold_left_add_sum (fun x : number => x) l a) as H.
  rewrite map_id in H. exact H.
Qed.

Lemma add_Num (a b : number) :
  (exists t, add a b = Num t) <-> (exists x, a = Num x) /\ (exists y, b = Num y).
Proof.
  destruct a as [|x], b as [|y]; simpl;
    (split; [intros (t & Ht)|intros [(x0 & Hx) (y0 & Hy)]]);
    try discriminate; eauto.
Qed.

Lemma sum_Num (l : list number) :
  (exists t, Spec.sum l = Num t) <-> Forall (fun x => exists q, x = Num q) l.
Proof.
  induction l as [|x l IH]; simpl.
  - split; [constructor|eauto].
  - rewrite add_Num, IH, Forall_cons. tauto.
Qed.

Lemma number_eq_Num (a b : number) :
  number_eq a b -> (exists t, a = Num t) <-> (exists t, b = Num t).
Proof.
  destruct a, b; simpl; try tauto; intros _;
    (split; intros (t & Ht)); try discriminate; eauto.
Qed.

(** The price of an addon, by its pricing model. *)
Lemma addonPrice_cases (addon : Addon.t) (effectiveUI : Q) :
  (Addon.pricingModel addon = Some "UI" /\
   addonPrice addon effectiveUI =
     match Addon.uiRate addon with
     | Some r => Num (effectiveUI * r)
     | None => NaN
     end) \/
  (Addon.pricingModel addon = Some "FLAT" /\
   addonPrice addon effectiveUI = toNumber (Addon.flatPrice addon)) \/
  (Addon.pricingModel addon <> Some "UI" /\
   Addon.pricingModel addon <> Some "FLAT" /\
   addonPrice addon effectiveUI = Num 0).
Proof.
  unfold addonPrice.
  destruct (decide (Addon.pricingModel addon = Some "UI")) as [->|Hn1];
    [left; split; reflexivity|].
  destruct (decide (Addon.pricingModel addon = Some "FLAT")) as [->|Hn2];
    [right; left; split; reflexivity|].
  right. right. split; [exact Hn1|]. split; [exact Hn2|].
  destruct (Addon.pricingModel addon) as [m|]; [|reflexivity].
  assert (H1 : m <> "UI") by congruence.
  assert (H2 : m <> "FLAT") by congruence.
  clear Hn1 Hn2.
  repeat match goal with
  | |- context [match ?s with EmptyString => _ | String _ _ => _ end] =>
      destruct s; try reflexivity; try congruence
  | |- context [match ?x with Ascii _ _ _ _ _ _ _ _ => _ end] =>
      destruct x
  | |- context [if ?b then _ else _] =>
      destruct b; try reflexivity; try congruence
  end.
Qed.

Lemma addonPrice_Num (addon : Addon.t) (effectiveUI : Q) :
  (exists q, addonPrice addon effectiveUI = Num q) <-> rated_addon addon.
Proof.
  unfold rated_addon.
  destruct (addonPrice_cases addon effectiveUI)
    as [[Hm ->]|[[Hm ->]|(Hn1 & Hn2 & ->)]].
  - rewrite Hm. destruct (Addon.uiRate addon) as [r|]; split.
    + intros _. split; [eauto|discriminate].
    + eauto.
    + intros (q & [=]).
    + intros [H _]. destruct (H eq_refl) as (r & [=]).
  - rewrite Hm. destruct (Addon.flatPrice addon) as [r|]; simpl; split.
    + intros _. split; [discriminate|eauto].
    + eauto.
    + intros (q & [=]).
    + intros [_ H]. destruct (H eq_refl) as (r & [=]).
  - split; [|eauto]. intros _. split; intros Hm; congruence.
Qed.

End LineTotals.




Section ParTotal.
Import Spec Totals.

Lemma add_0_l a : number_eq (add (Num 0) a) a.
Proof. destruct a; simpl; [exact I|ring]. Qed.

Lemma basePrice_of_Num (product : Product.t) (effectiveUI : Q) (b : number) :
  basePrice_of product effectiveUI = Ok b ->
  (exists t, b = Num t) <-> rated_product product.
Proof.
  intros Hb. unfold rated_product.
  destruct (priced_or_not product) as [[Hm|Hm]|[Hn1 Hn2]].
  - unfold basePrice_of in Hb. rewrite Hm in Hb. simpl in Hb.
    injection Hb as <-. rewrite Hm.
    destruct (Product.uiRate product) as [r|]; split.
    + intros _. split; [eauto|discriminate].
    + eauto.
    + intros (t & [=]).
    + intros [H _]. destruct (H eq_refl) as (r & [=]).
  - unfold basePrice_of in Hb. rewrite Hm in Hb. simpl in Hb.
    injection Hb as <-. rewrite Hm.
    destruct (Product.flatPrice product) as [r|]; simpl; split.
    + intros _. split; [discriminate|eauto].
    + eauto.
    + intros (t & [=]).
    + intros [_ H]. destruct (H eq_refl) as (r & [=]).
  - exfalso. unfold basePrice_of in Hb.
    destruct (Product.pricingModel product) as [m|]; [|discriminate].
    assert (H1 : m <> "UI") by congruence.
    assert (H2 : m <> "FLAT") by congruence.
    revert Hb. clear -H1 H2.
    repeat match goal with
    | |- context [match ?s with EmptyString => _ | String _ _ => _ end] =>
        destruct s; try discriminate; try congruence
    | |- context [match ?x with Ascii _ _ _ _ _ _ _ _ => _ end] =>
        destruct x
    | |- context [if ?b then _ else _] =>
        destruct b; try discriminate; try congruence
    end.
Qed.

End ParTotal.




(** ** Area and united inches *)




(** ** More on strings *)

Section MoreStrings.
Import JsString CsvSpec.

Lemma contains_trimStart (c : ascii) (s : string) :
  contains c s = false -> contains c (trimStart s) = false.
Proof.
  induction s as [|d s IH]; [reflexivity|]. simpl.
  destruct (is_space d); [|tauto].
  intros H. apply orb_false_iff in H as [_ H]. exact (IH H).
Qed.

Lemma contains_trimEnd (c : ascii) (s : string) :
  contains c s = false -> contains c (trimEnd s) = false.
Proof.
  induction s as [|d s IH]; [reflexivity|]. simpl.
  intros H. apply orb_false_iff in H as [Hd H]. specialize (IH H).
  destruct (trimEnd s) as [|e r].
  - destruct (is_space d); simpl; [reflexivity|]. rewrite Hd. reflexivity.
  - simpl in *. rewrite Hd. exact IH.
Qed.

Lemma contains_trim (c : ascii) (s : string) :
  contains c s = false -> contains c (trim s) = false.
Proof. intros H. apply contains_trimEnd, contains_trimStart, H. Qed.

Lemma trimEnd_idem (s : string) : trimEnd (trimEnd s) = trimEnd s.
Proof.
  induction s as [|c s IH]; [reflexivity|]. simpl.
  destruct (trimEnd s) as [|d r] eqn:E.
  - destruct (is_space c) eqn:Hc; [reflexivity|]. simpl. rewrite Hc. reflexivity.
  - change (trimEnd (String c (String d r))) with
      (match trimEnd (String d r) with
       | EmptyString => if is_space c then EmptyString else String c EmptyString
       | r' => String c r'
       end).
    rewrite IH. reflexivity.
Qed.

(** A text that does not start with white space still does not after
    [trimEnd]. *)
Lemma trimStart_trimEnd (s : string) :
  trimStart s = s -> trimStart (trimEnd s) = trimEnd s.
Proof.
  destruct s as [|c s]; [reflexivity|]. simpl.
  destruct (is_space c) eqn:Hc.
  - intros H. exfalso. pose proof (trimStart_length s) as Hl.
    rewrite H in Hl. simpl in Hl. lia.
  - intros _. destruct (trimEnd s); simpl; rewrite Hc; reflexivity.
Qed.

Lemma trimStart_idem (s : string) : trimStart (trimStart s) = trimStart s.
Proof.
  induction s as [|c s IH]; [reflexivity|]. simpl.
  destruct (is_space c) eqn:Hc; [exact IH|]. simpl. rewrite Hc. reflexivity.
Qed.

Lemma trim_idem (s : string) : trim (trim s) = trim s.
Proof.
  unfold trim. rewrite (trimStart_trimEnd (trimStart s) (trimStart_idem s)).
  apply trimEnd_idem.
Qed.

(** White space at the end of a text does not count for [trim]. *)
Lemma trim_append_space (s : string) (c : ascii) :
  is_space c = true -> trim (s +:+ String c "") = trim s.
Proof.
  intros Hc. unfold trim. induction s as [|d s IH]; simpl.
  - rewrite Hc. reflexivity.
  - destruct (is_space d) eqn:Hd; [exact IH|].
    change (String d (s +:+ String c "")) with (String d s +:+ String c "").
    apply trimEnd_append_space. exact Hc.
Qed.

End MoreStrings.

(** ** [parseCSVLine] *)

Section ParseLine.
Import JsString CsvSpec VersionUtils CsvText CsvFacts.

(** The loop never puts a double quote into a value. *)
Lemma parseCSVLine_loop_clean (line : string) : forall values current inQuotes,
  Forall clean values -> contains DQUOTE current = false ->
  Forall clean (parseCSVLine_loop line values current inQuotes).
Proof.
  assert (Hpush : forall values current,
            Forall clean values -> contains DQUOTE current = false ->
            Forall clean (values ++ [trim current])).
  { intros values current Hv Hc. apply Forall_app. split; [exact Hv|].
    repeat constructor; [apply contains_trim; exact Hc|apply trim_idem]. }
  induction line as [|c line IH]; intros values current inQuotes Hv Hc; simpl.
  - apply Hpush; assumption.
  - destruct (Ascii.eqb c DQUOTE) eqn:Hq; [apply IH; assumption|].
    destruct (Ascii.eqb c COMMA && negb inQuotes).
    + apply IH; [apply Hpush; assumption|reflexivity].
    + apply IH; [exact Hv|]. rewrite contains_append, Hc. simpl.
      rewrite Hq. reflexivity.
Qed.

Lemma parseCSVLine_loop_length (line : string) : forall values current inQuotes,
  (length values < length (parseCSVLine_loop line values current inQuotes))%nat.
Proof.
  induction line as [|c line IH]; intros values current inQuotes; simpl.
  - rewrite length_app. simpl. lia.
  - destruct (Ascii.eqb c DQUOTE); [apply IH|].
    destruct (Ascii.eqb c COMMA && negb inQuotes); [|apply IH].
    specialize (IH (values ++ [trim current]) "" inQuotes).
    rewrite length_app in IH. simpl in IH. lia.
Qed.

Lemma map_remove_clean (values : list string) :
  Forall clean values -> map (remove DQUOTE) values = values.
Proof.
  induction 1 as [|v values [Hv _] _ IH]; simpl; [reflexivity|].
  rewrite IH, (remove_absent _ _ Hv). reflexivity.
Qed.

(** The last step of [parseCSVLine], which removes the double quotes of
    the values, finds none. *)
Lemma parseCSVLine_loop_eq (line : string) :
  parseCSVLine line = parseCSVLine_loop line [] "" false.
Proof.
  unfold parseCSVLine. apply map_remove_clean.
  apply parseCSVLine_loop_clean; [constructor|reflexivity].
Qed.

(** Outside quotes the loop cuts at the commas. *)
Lemma parseCSVLine_loop_unquoted (line : string) : forall values current,
  contains DQUOTE line = false -> contains COMMA current = false ->
  parseCSVLine_loop line values current false =
    values ++ map trim (split COMMA (current +:+ line)).
Proof.
  induction line as [|c line IH]; intros values current Hq Hc; simpl.
  - rewrite append_nil_r, (split_piece _ _ Hc). reflexivity.
  - simpl in Hq. apply orb_false_iff in Hq as [Hq1 Hq]. rewrite Hq1.
    destruct (Ascii.eqb c COMMA) eqn:Hcomma; simpl.
    + apply Ascii.eqb_eq in Hcomma as ->.
      rewrite (IH _ "" Hq eq_refl), <- app_assoc. simpl.
      rewrite (split_append COMMA current line Hc). reflexivity.
    + rewrite (IH _ _ Hq).
      * rewrite append_assoc. reflexivity.
      * rewrite contains_append, Hc. simpl. rewrite Hcomma. reflexivity.
Qed.

End ParseLine.

(** X21. On a line without double quotes [parseCSVLine] is a split at
    the commas followed by a trim of every piece. *)
Theorem parseCSVLine_unquoted (line : string) :
  CsvSpec.contains JsString.DQUOTE line = false ->
  VersionUtils.parseCSVLine line =
    map JsString.trim (JsString.split JsString.COMMA line).
Proof.
  intros H. rewrite parseCSVLine_loop_eq.
  apply (parseCSVLine_loop_unquoted line [] "" H eq_refl).
Qed.

(** A line of three values, the second one empty. *)
Lemma parseCSVLine_unquoted_witness :
  VersionUtils.parseCSVLine "door , , Entry Door" = ["door"; ""; "Entry Door"].
Proof.
  rewrite (parseCSVLine_unquoted "door , , Entry Door" eq_refl).
  vm_compute. reflexivity.
Defined.

(** X22. [parseCSVLine] returns at least one value for every line, the
    empty line included, and every value it returns is without double
    quotes and without white space at either end. *)
Theorem parseCSVLine_values_clean (line : string) :
  VersionUtils.parseCSVLine line <> [] /\
  Forall CsvFacts.clean (VersionUtils.parseCSVLine line).
Proof.
  rewrite parseCSVLine_loop_eq. split.
  - pose proof (parseCSVLine_loop_length line [] "" false) as H.
    destruct (VersionUtils.parseCSVLine_loop line [] "" false);
      [simpl in H; lia|discriminate].
  - apply parseCSVLine_loop_clean; [constructor|reflexivity].
Qed.

(** X23. A row as [exportAsCSV] writes it is read back field by field
    from its trimmed line, commas inside the fields included, when no field
    holds a double quote or a line feed or starts or ends with white
    space. *)
Theorem parseCSVLine_reads_row (fields : list string) :
  fields <> [] ->
  Forall (fun f => CsvSpec.safe_text f = true) fields ->
  VersionUtils.parseCSVLine (JsString.trim (VersionUtils.row fields)) = fields.
Proof.
  intros Hne Hsafe. destruct fields as [|f fields]; [congruence|].
  rewrite row_row_text.
  unfold VersionUtils.line.
  rewrite trim_append_space by reflexivity.
  rewrite row_text_trim. apply parseCSVLine_row; assumption.
Qed.

(** A row of two fields with a comma in the second. *)
Lemma parseCSVLine_reads_row_witness :
  VersionUtils.row ["series400"; "400 Series, Premium"] =
    String JsString.DQUOTE
      ("series400" +:+ String JsString.DQUOTE
         ("," +:+ String JsString.DQUOTE
            ("400 Series, Premium" +:+ String JsString.DQUOTE
               (String JsString.LF "")))) /\
  VersionUtils.parseCSVLine
    (JsString.trim (VersionUtils.row ["series400"; "400 Series, Premium"])) =
    ["series400"; "400 Series, Premium"].
Proof.
  split; [vm_compute; reflexivity|].
  apply parseCSVLine_reads_row; [discriminate|].
  repeat constructor.
Defined.


(** ** The loop of [importFromCSV] *)

(** Induction along the loop, which moves on by one line or by two. *)
Lemma lines_ind (P : list string -> Prop) :
  P [] ->
  (forall l rest, P rest -> P (tail rest) -> P (l :: rest)) ->
  forall lines, P lines.
Proof.
  intros Hnil Hcons lines.
  assert (H : P lines /\ P (tail lines)).
  { induction lines as [|l rest [IH1 IH2]]; simpl; [tauto|].
    split; [apply Hcons; assumption|exact IH1]. }
  exact (proj1 H).
Qed.

Section ImportFacts.
Import JsString CsvSpec VersionUtils CsvText CsvFacts.
Context `{NumberFormat}.

(** One turn of the loop. *)
Lemma import_lines_step (l : string) (rest : list string) sec data :
  import_lines (l :: rest) sec data =
    if String.eqb (trim l) "MANUFACTURERS" then
      import_lines (tail rest) (Some manufacturers) data
    else if String.eqb (trim l) "PRODUCT LINES" then
      import_lines (tail rest) (Some productLines) data
    else if String.eqb (trim l) "PRODUCTS" then
      import_lines (tail rest) (Some products) data
    else if String.eqb (trim l) "ADDONS" then
      import_lines (tail rest) (Some addons) data
    else if String.eqb (trim l) "" then
      import_lines rest sec data
    else
      data' ← store_line sec (parseCSVLine (trim l)) data;
      import_lines rest sec data'.
Proof. rewrite import_lines_cons. destruct rest; reflexivity. Qed.

(** Outside a section the loop stores nothing. *)
Lemma import_lines_no_header (lines : list string) : forall data,
  Forall (fun l => is_header (trim l) = false) lines ->
  import_lines lines None data = Ok data.
Proof.
  induction lines as [|l rest IH]; intros data Hl; [reflexivity|].
  apply Forall_cons in Hl as [Hh Hl]. rewrite import_lines_step.
  unfold is_header in Hh. rewrite !orb_false_iff in Hh.
  destruct Hh as [[[-> ->] ->] ->].
  destruct (String.eqb (trim l) ""); [apply IH; exact Hl|].
  simpl. apply IH. exact Hl.
Qed.

(** What [parse_addon] makes of a row, by the number of its values. *)
Lemma parse_addon_length (values : list string) :
  match parse_addon values with
  | None => (length values < 4)%nat
  | Some (Throw e) => e = TypeError /\ short values
  | Some (Ok a) => (9 <= length values)%nat
  end.
Proof.
  unfold short.
  destruct values as [|v0 [|v1 [|v2 [|v3 rest]]]]; simpl; try lia.
  destruct rest as [|v4 [|v5 [|v6 [|v7 [|v8 rest]]]]]; simpl;
    try (split; [reflexivity|lia]).
  lia.
Qed.

(** Storing a row only fails on a short addon row. *)
Lemma store_line_Throw sec (values : list string) data e :
  store_line sec values data = Throw e <->
  e = TypeError /\ sec = Some addons /\ short values.
Proof.
  unfold store_line. destruct sec as [[| | |]|].
  - split; [|intros (_ & [=] & _)].
    destruct values as [|? [|? ?]]; discriminate.
  - split; [|intros (_ & [=] & _)].
    destruct values as [|? [|? [|? ?]]]; discriminate.
  - split; [|intros (_ & [=] & _)].
    destruct (parse_product values); discriminate.
  - pose proof (parse_addon_length values) as Hp.
    destruct (parse_addon values) as [[a|e']|]; simpl.
    + split; [discriminate|]. intros (_ & _ & Hs). unfold short in Hs. lia.
    + destruct Hp as [-> Hs]. split.
      * intros [= <-]. auto.
      * intros (-> & _). reflexivity.
    + split; [discriminate|]. intros (_ & _ & Hs). unfold short in Hs. lia.
  - split; [|intros (_ & [=] & _)].
    destruct values; discriminate.
Qed.

Lemma import_lines_Throw (lines : list string) : forall sec data e,
  import_lines lines sec data = Throw e ->
  e = TypeError /\
  exists l, l ∈ lines /\ short (parseCSVLine (trim l)).
Proof.
  induction lines as [|l rest IH1 IH2] using lines_ind; intros sec data e;
    [discriminate|].
  assert (Hskip : forall sec' data',
            import_lines (tail rest) sec' data' = Throw e ->
            e = TypeError /\
            exists l', l' ∈ l :: rest /\ short (parseCSVLine (trim l'))).
  { intros sec' data' Hi. apply IH2 in Hi as (-> & l' & Hin & Hs).
    split; [reflexivity|]. exists l'. split; [|exact Hs].
    right. destruct rest; [inversion Hin|right; exact Hin]. }
  assert (Hrest : forall sec' data',
            import_lines rest sec' data' = Throw e ->
            e = TypeError /\
            exists l', l' ∈ l :: rest /\ short (parseCSVLine (trim l'))).
  { intros sec' data' Hi. apply IH1 in Hi as (-> & l' & Hin & Hs).
    split; [reflexivity|]. exists l'. split; [right; exact Hin|exact Hs]. }
  rewrite import_lines_step.
  destruct (String.eqb (trim l) "MANUFACTURERS"); [apply Hskip|].
  destruct (String.eqb (trim l) "PRODUCT LINES"); [apply Hskip|].
  destruct (String.eqb (trim l) "PRODUCTS"); [apply Hskip|].
  destruct (String.eqb (trim l) "ADDONS"); [apply Hskip|].
  destruct (String.eqb (trim l) ""); [apply Hrest|].
  destruct (store_line sec (parseCSVLine (trim l)) data) as [data'|e'] eqn:Hst;
    simpl; [apply Hrest|].
  intros [= <-]. apply store_line_Throw in Hst as (-> & _ & Hs).
  split; [reflexivity|]. exists l. split; [left|exact Hs].
Qed.

(** The loop reads a line through its trimmed text only. *)
Lemma import_lines_trim (lines : list string) : forall sec data,
  import_lines (map trim lines) sec data = import_lines lines sec data.
Proof.
  induction lines as [|l rest IH1 IH2] using lines_ind; intros sec data;
    [reflexivity|].
  cbn [map]. rewrite !import_lines_step, trim_idem.
  replace (tail (map trim rest)) with (map trim (tail rest))
    by (destruct rest; reflexivity).
  rewrite !IH2, IH1.
  destruct (store_line sec (parseCSVLine (trim l)) data) as [data'|e];
    simpl; [rewrite IH1|]; reflexivity.
Qed.

(** The entities the loop stores are keyed by their id, and the products
    are bare. *)
Lemma store_line_keyed sec (values : list string) data data' :
  keyed_by_id data ->
  store_line sec values data = Ok data' ->
  keyed_by_id data'.
Proof.
  assert (Hins : forall {V} (id : V -> string) (safe : V -> Prop) m v,
            keyed id safe m -> safe v -> keyed id safe (<[id v := v]> m)).
  { intros V id safe m v Hm Hv k w. destruct (decide (k = id v)) as [->|Hk].
    - rewrite lookup_insert_eq. intros [= <-]. auto.
    - rewrite lookup_insert_ne by congruence. apply Hm. }
  intros Hk. pose proof Hk as (Hm & Hl & Hp & Ha). unfold store_line.
  destruct sec as [[| | |]|].
  - destruct values as [|id [|name ?]]; intros [= <-]; try exact Hk.
    split; [|split; [|split]]; try assumption.
    apply (Hins _ Manufacturer.id (fun _ => True) _ (Manufacturer.mk id name) Hm I).
  - destruct values as [|id [|mid [|name ?]]]; intros [= <-]; try exact Hk.
    split; [|split; [|split]]; try assumption.
    apply (Hins _ ProductLine.id (fun _ => True) _ (ProductLine.mk id mid name) Hl I).
  - destruct (parse_product values) as [p|] eqn:Hparse; intros [= <-];
      [|exact Hk].
    split; [|split; [|split]]; try assumption.
    apply (Hins _ Product.id bare _ p Hp).
    unfold parse_product in Hparse.
    destruct values as [|v0 [|v1 [|v2 [|v3 [|v4 rest]]]]]; try discriminate.
    injection Hparse as <-. unfold bare. simpl. eauto 10.
  - destruct (parse_addon values) as [[a|e]|]; simpl; intros [= <-];
      [|exact Hk].
    split; [|split; [|split]]; try assumption.
    apply (Hins _ Addon.id (fun _ => True) _ a Ha I).
  - intros [= <-]. exact Hk.
Qed.

Lemma import_lines_keyed (lines : list string) : forall sec data data',
  keyed_by_id data ->
  import_lines lines sec data = Ok data' ->
  keyed_by_id data'.
Proof.
  induction lines as [|l rest IH1 IH2] using lines_ind; intros sec data data' Hk.
  - intros [= <-]. exact Hk.
  - rewrite import_lines_step.
    destruct (String.eqb (trim l) "MANUFACTURERS"); [apply IH2; exact Hk|].
    destruct (String.eqb (trim l) "PRODUCT LINES"); [apply IH2; exact Hk|].
    destruct (String.eqb (trim l) "PRODUCTS"); [apply IH2; exact Hk|].
    destruct (String.eqb (trim l) "ADDONS"); [apply IH2; exact Hk|].
    destruct (String.eqb (trim l) ""); [apply IH1; exact Hk|].
    destruct (store_line sec (parseCSVLine (trim l)) data) as [d|e] eqn:Hst;
      simpl; [|discriminate].
    apply IH1. exact (store_line_keyed _ _ _ _ Hk Hst).
Qed.

Lemma empty_keyed : keyed_by_id empty.
Proof.
  split; [|split; [|split]]; intros k v Hl; simpl in Hl;
    rewrite lookup_empty in Hl; discriminate.
Qed.

End ImportFacts.


(** ** Carriage returns *)

Section CarriageReturns.
Import JsString CsvSpec VersionUtils CsvFacts.

Lemma crlf_empty (s : string) : crlf s = "" -> s = "".
Proof.
  destruct s as [|c s]; [reflexivity|]. simpl.
  destruct (Ascii.eqb c LF); discriminate.
Qed.

Lemma trimStart_crlf (s : string) : trimStart (crlf s) = crlf (trimStart s).
Proof.
  induction s as [|c s IH]; [reflexivity|]. simpl.
  destruct (Ascii.eqb c LF) eqn:Hc.
  - apply Ascii.eqb_eq in Hc as ->. simpl. exact IH.
  - simpl. destruct (is_space c); [exact IH|]. simpl. rewrite Hc. reflexivity.
Qed.

Lemma trimEnd_crlf (s : string) : trimEnd (crlf s) = crlf (trimEnd s).
Proof.
  induction s as [|c s IH]; [reflexivity|].
  cbn [crlf]. destruct (Ascii.eqb c LF) eqn:Hc.
  - apply Ascii.eqb_eq in Hc as ->.
    change (trimEnd (String CR (String LF (crlf s)))) with
      (match (match trimEnd (crlf s) with
              | EmptyString => EmptyString
              | r' => String LF r'
              end) with
       | EmptyString => EmptyString
       | r' => String CR r'
       end).
    change (trimEnd (String LF s)) with
      (match trimEnd s with
       | EmptyString => EmptyString
       | r' => String LF r'
       end).
    rewrite IH. destruct (trimEnd s) as [|d r]; [reflexivity|].
    cbn [crlf]. destruct (Ascii.eqb d LF); reflexivity.
  - cbn [trimEnd]. rewrite IH. destruct (trimEnd s) as [|d r].
    + simpl. destruct (is_space c); [reflexivity|]. simpl. rewrite Hc. reflexivity.
    + cbn [crlf]. rewrite Hc. destruct (Ascii.eqb d LF); reflexivity.
Qed.

Lemma trim_crlf (s : string) : trim (crlf s) = crlf (trim s).
Proof. unfold trim. rewrite trimStart_crlf. apply trimEnd_crlf. Qed.

Lemma split_nonempty (sep : ascii) (s : string) : split sep s <> [].
Proof.
  destruct s as [|c s]; simpl; [discriminate|].
  destruct (Ascii.eqb c sep); [discriminate|].
  destruct (split sep s); discriminate.
Qed.

(** The lines of the text with carriage returns are those of the text
    without, with a carriage return at the end of some. *)
Lemma split_crlf (s : string) :
  Forall2 (fun a b => a = b \/ a = b +:+ String CR "")
          (split LF (crlf s)) (split LF s).
Proof.
  induction s as [|c s IH]; [repeat constructor|].
  cbn [crlf]. destruct (Ascii.eqb c LF) eqn:Hc.
  - apply Ascii.eqb_eq in Hc as ->.
    change (split LF (String CR (String LF (crlf s)))) with
      (String CR "" :: split LF (crlf s)).
    change (split LF (String LF s)) with ("" :: split LF s).
    constructor; [right; reflexivity|exact IH].
  - cbn [split]. rewrite Hc.
    destruct IH as [|a b la lb Hab Hrest]; [repeat constructor|].
    constructor; [|exact Hrest].
    destruct Hab as [->| ->]; [left|right]; reflexivity.
Qed.

Lemma map_trim_crlf (s : string) :
  map trim (split LF (crlf s)) = map trim (split LF s).
Proof.
  induction (split_crlf s) as [|a b la lb Hab _ IH]; [reflexivity|].
  simpl. rewrite IH. f_equal.
  destruct Hab as [->| ->]; [reflexivity|].
  apply trim_append_space. reflexivity.
Qed.

End CarriageReturns.

(** ** Properties of [importFromCSV] *)

(** X24. Rows outside a section are not stored: a text none of whose
    lines is a section header, such as the empty text, is imported as the
    catalog without entities. *)
Theorem rows_outside_sections_ignored `{VersionUtils.NumberFormat}
    (content : string) :
  Forall (fun l => CsvFacts.is_header (JsString.trim l) = false)
         (JsString.split JsString.LF (JsString.trim content)) ->
  VersionUtils.importFromCSV content = Ok CsvFacts.empty.
Proof. intros Hl. apply import_lines_no_header. exact Hl. Qed.

(** The empty text, and two rows without a header above them. *)
Lemma rows_outside_sections_ignored_witness :
  @VersionUtils.importFromCSV IntegerFormat.format "" = Ok CsvFacts.empty /\
  @VersionUtils.importFromCSV IntegerFormat.format
    ("andersen,Andersen" +:+ String JsString.LF "pella,Pella") =
    Ok CsvFacts.empty.
Proof.
  split; apply rows_outside_sections_ignored; repeat constructor.
Defined.

(** X25. [importFromCSV] has one way to fail: a TypeError, on a line that
    holds at least four values and fewer than nine, as an addon row
    without its three flags does.  A text without such a line is always
    imported. *)
Theorem importFromCSV_fails_on_short_rows_only `{VersionUtils.NumberFormat}
    (content : string) (e : error) :
  VersionUtils.importFromCSV content = Throw e ->
  e = TypeError /\
  exists l,
    l ∈ JsString.split JsString.LF (JsString.trim content) /\
    CsvFacts.short (VersionUtils.parseCSVLine (JsString.trim l)).
Proof. apply import_lines_Throw. Qed.

(** An addon row of five values. *)
Lemma importFromCSV_fails_on_short_rows_only_witness :
  @VersionUtils.importFromCSV IntegerFormat.format
    ("ADDONS" +:+ String JsString.LF
       ("ID,Name,Pricing Model,UI Rate,Flat Price" +:+ String JsString.LF
          "grids,Grids,FLAT,,30")) = Throw TypeError /\
  exists l,
    l ∈ JsString.split JsString.LF
          (JsString.trim
             ("ADDONS" +:+ String JsString.LF
                ("ID,Name,Pricing Model,UI Rate,Flat Price" +:+ String JsString.LF
                   "grids,Grids,FLAT,,30"))) /\
    CsvFacts.short (VersionUtils.parseCSVLine (JsString.trim l)).
Proof.
  assert (Hthrow : @VersionUtils.importFromCSV IntegerFormat.format
            ("ADDONS" +:+ String JsString.LF
               ("ID,Name,Pricing Model,UI Rate,Flat Price" +:+ String JsString.LF
                  "grids,Grids,FLAT,,30")) = Throw TypeError)
    by (vm_compute; reflexivity).
  split; [exact Hthrow|].
  exact (proj2 (importFromCSV_fails_on_short_rows_only _ _ Hthrow)).
Defined.

(** X26. A text with a carriage return before every line feed, as a file
    with Windows line ends has, is imported as the text without them. *)
Theorem importFromCSV_ignores_carriage_returns `{VersionUtils.NumberFormat}
    (content : string) :
  VersionUtils.importFromCSV (CsvFacts.crlf content) =
    VersionUtils.importFromCSV content.
Proof.
  unfold VersionUtils.importFromCSV.
  rewrite <- (import_lines_trim (JsString.split _ (JsString.trim (CsvFacts.crlf _)))).
  rewrite <- (import_lines_trim (JsString.split _ (JsString.trim content))).
  rewrite trim_crlf, map_trim_crlf. reflexivity.
Qed.

(** X27. Whatever the text, the catalog [importFromCSV] returns holds
    every entity under its own id, and its products have a [minimumUI] and
    neither [sizeLimits] nor [allowedAddons]: [validateSize] accepts every
    size for them and [calculateLineItem] finds no mandatory addon. *)
Theorem imported_catalog_keyed `{VersionUtils.NumberFormat}
    (content : string) (data : CatalogData.t) :
  VersionUtils.importFromCSV content = Ok data ->
  CsvFacts.keyed_by_id data /\
  forall k p,
    CatalogData.products data !! k = Some p ->
    (forall width height,
       validateSize p width height = mk_validation true None) /\
    (forall allAddons, mandatoryAddonIds p allAddons = []).
Proof.
  intros Hi. apply import_lines_keyed in Hi; [|apply empty_keyed].
  split; [exact Hi|]. intros k p Hp.
  destruct Hi as (_ & _ & Hk & _).
  destruct (Hk k p Hp) as (_ & Hs & Ha & _). split.
  - intros width height. unfold validateSize. rewrite Hs. reflexivity.
  - intros allAddons. unfold mandatoryAddonIds. rewrite Ha. reflexivity.
Qed.

(** A product row under its header and column titles. *)
Lemma imported_catalog_keyed_witness :
  exists data p,
    @VersionUtils.importFromCSV IntegerFormat.format
      ("PRODUCTS" +:+ String JsString.LF
         ("ID,Product Line ID,Product Type,Type Code,Name,Pricing Model" +:+
          String JsString.LF "door,series400,door,DR,Entry Door,FLAT,,1200,0,")) =
      Ok data /\
    CatalogData.products data !! "door" = Some p /\
    Product.id p = "door" /\
    Product.flatPrice p = Some 1200%Q /\
    validateSize p 500 500 = mk_validation true None.
Proof.
  destruct (@VersionUtils.importFromCSV IntegerFormat.format
      ("PRODUCTS" +:+ String JsString.LF
         ("ID,Product Line ID,Product Type,Type Code,Name,Pricing Model" +:+
          String JsString.LF "door,series400,door,DR,Entry Door,FLAT,,1200,0,")))
    as [data|e] eqn:Hi; [|vm_compute in Hi; discriminate].
  destruct (CatalogData.products data !! "door") as [p|] eqn:Hp.
  2:{ vm_compute in Hi. injection Hi as <-. vm_compute in Hp. discriminate. }
  exists data, p. split; [reflexivity|]. split; [exact Hp|].
  destruct (imported_catalog_keyed _ data Hi) as ((_ & _ & Hk & _) & Hv).
  split; [exact (proj1 (Hk "door" p Hp))|]. split.
  - vm_compute in Hi. injection Hi as <-. vm_compute in Hp.
    injection Hp as <-. reflexivity.
  - apply (Hv "door" p Hp).
Defined.


(** ** [importFromJSON] *)

Section ImportJson.
Import Json VersionJson.

Variable JSON_parse : string -> option value.

Lemma or_empty_truthy (x : option value) : truthy (Some (or_empty x)) = true.
Proof.
  unfold or_empty. destruct x as [v|]; [|reflexivity].
  destruct (truthy (Some v)) eqn:E; [exact E|reflexivity].
Qed.

Lemma or_empty_kept (x : option value) :
  truthy x = true -> Some (or_empty x) = x.
Proof.
  unfold or_empty. destruct x as [v|]; [|discriminate].
  intros ->. reflexivity.
Qed.

Lemma importFromJSON_Returns (content : string) (d : data) :
  importFromJSON JSON_parse content = Returns d <->
  exists members,
    JSON_parse content = Some (JObject members) /\
    truthy (members !! "id") = true /\
    members !! "manufacturers" = Some (manufacturers d) /\
    truthy (Some (manufacturers d)) = true /\
    productLines d = or_empty (members !! "productLines") /\
    products d = or_empty (members !! "products") /\
    addons d = or_empty (members !! "addons").
Proof.
  unfold importFromJSON. split.
  - destruct (JSON_parse content) as [[| | | | |members]|]; try discriminate.
    cbn [get].
    destruct (truthy (members !! "id")) eqn:Hid; [|discriminate].
    destruct (truthy (members !! "manufacturers")) eqn:Hm; [|discriminate].
    cbn [negb orb]. intros [= <-]. exists members.
    cbn [manufacturers productLines products addons].
    rewrite (or_empty_kept _ Hm), Hm. auto 10.
  - intros (members & -> & Hid & Hm & Ht & Hl & Hp & Ha). cbn [get].
    rewrite Hid, Hm, Ht. cbn [negb orb]. destruct d as [m l p a].
    cbn [manufacturers productLines products addons] in *.
    unfold or_empty at 1. rewrite Ht. subst. reflexivity.
Qed.

End ImportJson.

(** X28. [importFromJSON] returns exactly when the text parses to an
    object whose [id] and [manufacturers] are truthy.  It then returns the
    [manufacturers] of the object as they are, and each of [productLines],
    [products] and [addons] as it is when it is truthy and as an empty
    object otherwise, so that the four fields of the result are truthy;
    that they are dictionaries is not checked.  A text that parses to
    another value fails: as an invalid version, or with a TypeError when
    the value is [null]. *)
Theorem importFromJSON_accepts
    (JSON_parse : string -> option Json.value) (content : string) :
  (forall d,
     VersionJson.importFromJSON JSON_parse content = VersionJson.Returns d <->
     exists members,
       JSON_parse content = Some (Json.JObject members) /\
       Json.truthy (members !! "id") = true /\
       members !! "manufacturers" = Some (VersionJson.manufacturers d) /\
       Json.truthy (Some (VersionJson.manufacturers d)) = true /\
       VersionJson.productLines d = Json.or_empty (members !! "productLines") /\
       VersionJson.products d = Json.or_empty (members !! "products") /\
       VersionJson.addons d = Json.or_empty (members !! "addons")) /\
  (forall d,
     VersionJson.importFromJSON JSON_parse content = VersionJson.Returns d ->
     Json.truthy (Some (VersionJson.manufacturers d)) = true /\
     Json.truthy (Some (VersionJson.productLines d)) = true /\
     Json.truthy (Some (VersionJson.products d)) = true /\
     Json.truthy (Some (VersionJson.addons d)) = true) /\
  (JSON_parse content = Some Json.JNull ->
   VersionJson.importFromJSON JSON_parse content =
     VersionJson.Throws VersionJson.PropertyOfNull) /\
  (forall v,
     JSON_parse content = Some v ->
     v <> Json.JNull ->
     (forall members, v <> Json.JObject members) ->
     VersionJson.importFromJSON JSON_parse content =
       VersionJson.Throws VersionJson.InvalidVersionFormat).
Proof.
  split; [|split; [|split]].
  - intros d. apply importFromJSON_Returns.
  - intros d Hd. apply importFromJSON_Returns in Hd
      as (members & _ & _ & _ & Hm & -> & -> & ->).
    split; [exact Hm|]. repeat split; apply or_empty_truthy.
  - intros Hv. unfold VersionJson.importFromJSON. rewrite Hv. reflexivity.
  - intros v Hv Hnull Hno. unfold VersionJson.importFromJSON. rewrite Hv.
    destruct v as [| | | | |members]; try reflexivity.
    + congruence.
    + destruct (Hno members eq_refl).
Qed.

(** X29. What [importFromJSON] returns is not a version: it holds no
    [id], so that a text which parses to the returned object is refused as
    an invalid version. *)
Theorem imported_data_is_no_version
    (JSON_parse : string -> option Json.value) (content content' : string)
    (d : VersionJson.data) :
  VersionJson.importFromJSON JSON_parse content = VersionJson.Returns d ->
  JSON_parse content' = Some (VersionJson.to_value d) ->
  VersionJson.importFromJSON JSON_parse content' =
    VersionJson.Throws VersionJson.InvalidVersionFormat.
Proof.
  intros _ Hparse. unfold VersionJson.importFromJSON. rewrite Hparse.
  unfold VersionJson.to_value. cbn [Json.get].
  rewrite !lookup_insert_ne by discriminate. rewrite lookup_empty. reflexivity.
Qed.


(** A version with an array for [manufacturers] is accepted; the text of
    what is returned is refused. *)
Lemma imported_data_is_no_version_witness :
  VersionJson.importFromJSON SampleJson.parse SampleJson.version_text =
    VersionJson.Returns SampleJson.imported /\
  VersionJson.importFromJSON SampleJson.parse SampleJson.imported_text =
    VersionJson.Throws VersionJson.InvalidVersionFormat.
Proof.
  assert (H1 : VersionJson.importFromJSON SampleJson.parse SampleJson.version_text =
               VersionJson.Returns SampleJson.imported)
    by (vm_compute; reflexivity).
  split; [exact H1|].
  apply (imported_data_is_no_version SampleJson.parse SampleJson.version_text
           SampleJson.imported_text SampleJson.imported H1).
  vm_compute. reflexivity.
Defined.

(** The sample version is accepted with an empty dictionary of product
    lines. *)
Lemma importFromJSON_accepts_witness :
  VersionJson.importFromJSON SampleJson.parse SampleJson.version_text =
    VersionJson.Returns SampleJson.imported /\
  Json.truthy (Some (VersionJson.productLines SampleJson.imported)) = true.
Proof.
  assert (H1 : VersionJson.importFromJSON SampleJson.parse SampleJson.version_text =
               VersionJson.Returns SampleJson.imported)
    by (vm_compute; reflexivity).
  split; [exact H1|].
  exact (proj1 (proj2 (proj1 (proj2 (importFromJSON_accepts SampleJson.parse
                                       SampleJson.version_text))
                         SampleJson.imported H1))).
Defined.
